(** * Phi3-small checkpoint conversion: weight layout and tensor-parallel sharding

    A shallow embedding of
    [tensorrt_llm/models/phi3/phi3small/convert.py] together with the
    part of the PyTorch tensor API the file relies on, and the
    properties of the head-group reassembler, the matrix splitter, the
    QKV splitter, the embedding splitter, the linear-weight packer, the
    per-layer orchestration, the key rewriting and the configuration
    projector.

    Tensors are dense row-major arrays: a shape and the flat list of
    elements.  Python exceptions are an explicit error result. *)

From Stdlib Require Import Bool String Ascii DecimalString DecimalNat.
From Stdlib Require Import List Arith PeanoNat ZArith Lia Permutation.
Import ListNotations.

Set Implicit Arguments.

(** ** Python results and exceptions *)

Module Py.

Inductive exn : Type :=
| RuntimeError
| IndexError
| AssertionError
| ZeroDivisionError
| KeyError
| NameError
| ValueError.

Inductive result (T : Type) : Type :=
| Ok (x : T)
| Err (e : exn).

Arguments Ok {T} x.
Arguments Err {T} e.

Definition bind {T U : Type} (r : result T) (k : T -> result U) : result U :=
  match r with
  | Ok x => k x
  | Err e => Err e
  end.

(** [a // b] on non-negative integers. *)
Definition floordiv (a b : nat) : result nat :=
  if b =? 0 then Err ZeroDivisionError else Ok (a / b).

(** [a % b] on non-negative integers. *)
Definition modulo (a b : nat) : result nat :=
  if b =? 0 then Err ZeroDivisionError else Ok (a mod b).

(** [t[i]] on a tuple or list, [i >= 0]. *)
Definition getitem {T : Type} (l : list T) (i : nat) : result T :=
  match nth_error l i with
  | Some x => Ok x
  | None => Err IndexError
  end.

(** [t[-k]] on a tuple or list, [k >= 1]. *)
Definition getitem_neg {T : Type} (l : list T) (k : nat) : result T :=
  if k <=? length l then getitem l (length l - k) else Err IndexError.

(** [sub in s] on strings. *)
Fixpoint contains (sub s : string) : bool :=
  String.prefix sub s ||
  match s with
  | EmptyString => false
  | String _ s' => contains sub s'
  end.

(** [s.replace(old, new)]: every non-overlapping occurrence, scanning
    from the left.  [skip] counts the characters of a matched occurrence
    still to be dropped. *)
Fixpoint replace_from (old new : string) (skip : nat) (s : string) : string :=
  match s with
  | EmptyString => EmptyString
  | String c s' =>
      match skip with
      | S k => replace_from old new k s'
      | O =>
          if String.prefix old s
          then String.append new (replace_from old new (String.length old - 1) s')
          else String c (replace_from old new 0 s')
      end
  end.

Fixpoint intersperse (new s : string) : string :=
  match s with
  | EmptyString => new
  | String c s' => String.append new (String c (intersperse new s'))
  end.

Definition replace (s old new : string) : string :=
  match old with
  | EmptyString => intersperse new s
  | String _ _ => replace_from old new 0 s
  end.

(** [str(n)] for a non-negative integer, as used by the f-string of the
    layer prefix. *)
Definition str_of_nat (n : nat) : string :=
  NilEmpty.string_of_uint (Nat.to_uint n).

(** *** Dictionaries

    A Python [dict] keeps its keys in insertion order and the conversion
    iterates over one while it may raise, so a dictionary is the list of
    its items in insertion order, keys pairwise distinct. *)

Definition dict (V : Type) : Type := list (string * V).

Fixpoint get {V : Type} (d : dict V) (k : string) : option V :=
  match d with
  | [] => None
  | (k', v) :: d' => if String.eqb k' k then Some v else get d' k
  end.

(** [d[k]] *)
Definition lookup {V : Type} (d : dict V) (k : string) : result V :=
  match get d k with
  | Some v => Ok v
  | None => Err KeyError
  end.

(** [d[k] = v]: an existing key keeps its position. *)
Fixpoint set {V : Type} (d : dict V) (k : string) (v : V) : dict V :=
  match d with
  | [] => [(k, v)]
  | (k', v') :: d' =>
      if String.eqb k' k then (k', v) :: d' else (k', v') :: set d' k v
  end.

(** [d.update(other)] *)
Definition update {V : Type} (d other : dict V) : dict V :=
  fold_left (fun acc kv => set acc (fst kv) (snd kv)) other d.

Definition keys {V : Type} (d : dict V) : list string := map fst d.

End Py.

Import Py.

Notation "x <- e ;; k" := (Py.bind e (fun x => k))
  (at level 61, e at next level, right associativity).

(** ** Tensors and the PyTorch operations used by the converter *)

Module Torch.

Section Tensor.

Context {A : Type}.

Record tensor : Type := mkTensor { shape : list nat; data : list A }.

Definition numel (s : list nat) : nat := fold_right Nat.mul 1 s.

(** A tensor value holds exactly as many elements as its shape says. *)
Definition wf (t : tensor) : Prop := length (data t) = numel (shape t).

Definition ndim (t : tensor) : nat := length (shape t).

(** [t.shape[i]] and [t.shape[-k]] *)
Definition size_at (t : tensor) (i : nat) : result nat := getitem (shape t) i.
Definition size_at_neg (t : tensor) (k : nat) : result nat :=
  getitem_neg (shape t) k.

Fixpoint shape_eqb (s1 s2 : list nat) : bool :=
  match s1, s2 with
  | [], [] => true
  | a :: s1', b :: s2' => (a =? b) && shape_eqb s1' s2'
  | _, _ => false
  end.

(** The first [count] consecutive blocks of [size] elements of a flat
    buffer. *)
Fixpoint blocks (count size : nat) (l : list A) : list (list A) :=
  match count with
  | O => []
  | S c => firstn size l :: blocks c size (skipn size l)
  end.

(** [t.narrow(dim, start, len)], without the range checks: around the
    axis [dim] a row-major buffer is [outer] blocks of [n * inner]
    elements, and the result keeps [len * inner] of them from offset
    [start * inner]. *)
Definition narrow (t : tensor) (dim start len : nat) : tensor :=
  let outer := numel (firstn dim (shape t)) in
  let n := nth dim (shape t) 0 in
  let inner := numel (skipn (S dim) (shape t)) in
  mkTensor
    (firstn dim (shape t) ++ len :: skipn (S dim) (shape t))
    (concat (map (fun b => firstn (len * inner) (skipn (start * inner) b))
                 (blocks outer (n * inner) (data t)))).

(** Basic slicing [t[..., start:stop, ...]] on axis [dim], bounds
    already non-negative: Python clamps them to the size. *)
Definition slice (t : tensor) (dim start stop : nat) : result tensor :=
  if ndim t <=? dim then Err IndexError
  else
    let n := nth dim (shape t) 0 in
    let s := Nat.min start n in
    let e := Nat.min stop n in
    Ok (narrow t dim s (e - s)).

(** [t[..., :-k, ...]] on axis [dim]: the stop bound [n - k], clamped
    at zero. *)
Definition slice_to_neg (t : tensor) (dim k : nat) : result tensor :=
  slice t dim 0 (nth dim (shape t) 0 - k).

(** Integer indexing [t[..., i, ...]] on axis [dim]: the axis is
    dropped. *)
Definition select (t : tensor) (dim i : nat) : result tensor :=
  if ndim t <=? dim then Err IndexError
  else if nth dim (shape t) 0 <=? i then Err IndexError
  else
    Ok (mkTensor (firstn dim (shape t) ++ skipn (S dim) (shape t))
                 (data (narrow t dim i 1))).

(** [t[..., -k, ...]] on axis [dim]. *)
Definition select_neg (t : tensor) (dim k : nat) : result tensor :=
  let n := nth dim (shape t) 0 in
  if ndim t <=? dim then Err IndexError
  else if k <=? n then select t dim (n - k) else Err IndexError.

(** An argument of [reshape]: a size, or [-1]. *)
Inductive dim_spec : Type :=
| Dim (n : nat)
| Infer.

Definition known_size (d : dim_spec) : nat :=
  match d with
  | Dim n => n
  | Infer => 1
  end.

Definition is_infer (d : dim_spec) : bool :=
  match d with
  | Dim _ => false
  | Infer => true
  end.

(** PyTorch's [infer_size]: at most one [-1]; the request is accepted
    when the element counts agree, or when a [-1] is present and the
    product of the given sizes is positive and divides the element
    count; a [-1] next to a zero size is ambiguous. *)
Definition infer_size (spec : list dim_spec) (n : nat) : result (list nat) :=
  let newsize := numel (map known_size spec) in
  let infers := count_occ Bool.bool_dec (map is_infer spec) true in
  if 1 <? infers then Err RuntimeError
  else if (n =? newsize) || ((infers =? 1) && (0 <? newsize) && (n mod newsize =? 0))
  then
    if infers =? 1
    then if newsize =? 0 then Err RuntimeError
         else Ok (map (fun d => match d with
                                | Dim k => k
                                | Infer => n / newsize
                                end) spec)
    else Ok (map known_size spec)
  else Err RuntimeError.

(** [t.reshape(...)]: the row-major order of the elements is kept. *)
Definition reshape (t : tensor) (spec : list dim_spec) : result tensor :=
  s <- infer_size spec (length (data t)) ;;
  Ok (mkTensor s (data t)).

(** [t.squeeze()]: every axis of size one is dropped. *)
Definition squeeze (t : tensor) : tensor :=
  mkTensor (filter (fun n => negb (n =? 1)) (shape t)) (data t).

(** [t.unsqueeze(dim)], [dim >= 0]: valid up to and including the
    number of axes. *)
Definition unsqueeze (t : tensor) (dim : nat) : result tensor :=
  if ndim t <? dim then Err IndexError
  else Ok (mkTensor (firstn dim (shape t) ++ 1 :: skipn dim (shape t)) (data t)).

(** One step of the interleaving done by [torch.cat]: the next block
    of every part, then the same on what is left. *)
Fixpoint cat_blocks (outer : nat) (parts : list (nat * list A)) : list A :=
  match outer with
  | O => []
  | S o =>
      concat (map (fun p => firstn (fst p) (snd p)) parts)
      ++ cat_blocks o (map (fun p => (fst p, skipn (fst p) (snd p))) parts)
  end.

Definition is_legacy_empty (t : tensor) : bool := shape_eqb (shape t) [0].

Definition same_except (dim : nat) (s0 s : list nat) : bool :=
  shape_eqb (firstn dim s0) (firstn dim s)
  && shape_eqb (skipn (S dim) s0) (skipn (S dim) s)
  && (length s0 =? length s).

(** [torch.cat(ts, dim)]: the list must not be empty; one-dimensional
    empty tensors of shape (0,) are skipped; the others must have at
    least one axis and agree on every axis but [dim]. *)
Definition cat (ts : list tensor) (dim : nat) : result tensor :=
  match ts with
  | [] => Err RuntimeError
  | _ =>
      match filter (fun t => negb (is_legacy_empty t)) ts with
      | [] => Ok (mkTensor [0] [])
      | t0 :: rest =>
          if ndim t0 =? 0 then Err RuntimeError
          else if ndim t0 <=? dim then Err IndexError
          else if forallb (fun t => same_except dim (shape t0) (shape t)) rest
          then
            let outer := numel (firstn dim (shape t0)) in
            let inner := numel (skipn (S dim) (shape t0)) in
            let parts := t0 :: rest in
            Ok (mkTensor
                  (firstn dim (shape t0)
                   ++ list_sum (map (fun t => nth dim (shape t) 0) parts)
                   :: skipn (S dim) (shape t0))
                  (cat_blocks outer
                     (map (fun t => (nth dim (shape t) 0 * inner, data t)) parts)))
          else Err RuntimeError
      end
  end.

(** [torch.chunk(t, chunks, dim)]: chunks of [ceil(n / chunks)] slices,
    the last one possibly shorter, hence possibly fewer than [chunks]
    of them; an empty axis yields [chunks] empty chunks. *)
Definition chunk (t : tensor) (chunks dim : nat) : result (list tensor) :=
  if ndim t =? 0 then Err RuntimeError
  else if chunks =? 0 then Err RuntimeError
  else if ndim t <=? dim then Err IndexError
  else
    let n := nth dim (shape t) 0 in
    let split_size := (n + chunks - 1) / chunks in
    if split_size =? 0
    then Ok (map (fun _ => narrow t dim 0 0) (seq 0 chunks))
    else
      let num_splits := Nat.max ((n + split_size - 1) / split_size) 1 in
      let last_split_size := split_size - (split_size * num_splits - n) in
      Ok (map (fun i => narrow t dim (i * split_size)
                          (if i <? num_splits - 1 then split_size
                           else last_split_size))
              (seq 0 num_splits)).

(** Rows of a matrix given as a list of lists, and its transpose. *)
Fixpoint column (j : nat) (rows : list (list A)) : list A :=
  match rows with
  | [] => []
  | r :: rows' =>
      match nth_error r j with
      | Some x => x :: column j rows'
      | None => column j rows'
      end
  end.

(** [t.t()]: tensors of fewer than two axes are returned as they are,
    a matrix is transposed, more axes are refused. *)
Definition transpose (t : tensor) : result tensor :=
  match shape t with
  | [] | [_] => Ok t
  | [r; c] =>
      Ok (mkTensor [c; r]
            (concat (map (fun j => column j (blocks r c (data t))) (seq 0 c))))
  | _ => Err RuntimeError
  end.

(** [torch.nn.functional.pad(t, (0, 0, 0, pad_width), value)]: nothing
    on the last axis, [pad_width] slices of [value] after the end of the
    axis before it. *)
Definition pad_rows_end (t : tensor) (pad_width : nat) (value : A) : result tensor :=
  match rev (shape t) with
  | last :: rows :: outer_rev =>
      let inner := rows * last in
      let outer := numel (rev outer_rev) in
      Ok (mkTensor
            (rev outer_rev ++ [rows + pad_width; last])
            (concat (map (fun b => b ++ repeat value (pad_width * last))
                         (blocks outer inner (data t)))))
  | _ => Err RuntimeError
  end.

End Tensor.

Arguments tensor A : clear implicits.

End Torch.

Import Torch.

(** ** The converter *)

Module Convert.

(** [torch.int8] and [torch.quint4x2], the two weight-only storage
    types the converter selects. *)
Inductive quant_type : Type :=
| int8
| quint4x2.

(** What the converter needs from the element type and from the
    collaborators outside the file: the zero used for padding, the
    dtype table [str_dtype_to_torch], the cast [Tensor.to(dtype)] on one
    element, and the quantization kernel
    [torch.ops.trtllm.symmetric_quantize_last_axis_of_batched_matrix]. *)
Class Numeric (A : Type) : Type := {
  zero : A;
  torch_dtype : Type;
  str_dtype_to_torch : string -> result torch_dtype;
  to_dtype : torch_dtype -> A -> A;
  symmetric_quantize_last_axis_of_batched_matrix :
    tensor A -> option quant_type -> result (tensor A * tensor A)
}.

(** The entries of the model configuration the converter reads.  The
    two optional fields are the keys whose presence the code tests or
    may miss. *)
Record config : Type := {
  num_attention_heads : nat;
  num_kv_heads : option nat;
  num_key_value_heads : option nat;
  hidden_size : nat;
  num_hidden_layers : nat
}.

(** The conversion arguments ([args]). *)
Record arguments : Type := {
  tp_size : nat;
  pp_size : nat;
  dtype : string;
  use_weight_only : bool;
  weight_only_precision : string
}.

Definition required (o : option nat) : result nat :=
  match o with
  | Some n => Ok n
  | None => Err KeyError
  end.

Section Converter.

Context {A : Type} `{Numeric A}.

(** [t.to(dtype)]; [detach], [cpu], [clone] and [contiguous] keep the
    value. *)
Definition to (t : tensor A) (d : torch_dtype) : tensor A :=
  mkTensor (shape t) (map (to_dtype d) (data t)).

Definition shuffle_qkv_weights (weights : tensor A) (cfg : config)
  : result (tensor A) :=
  let num_heads := num_attention_heads cfg in
  num_kv <- match num_kv_heads cfg with
            | Some n => Ok n
            | None => required (num_key_value_heads cfg)
            end ;;
  num_q_per_kv <- floordiv num_heads num_kv ;;
  head_dim <- floordiv (hidden_size cfg) num_heads ;;
  let input_shape := shape weights in
  weights <- (if ndim weights <? 2 then unsqueeze weights 1 else Ok weights) ;;
  last <- size_at_neg weights 1 ;;
  weights <- reshape weights
               [Dim num_kv; Dim (num_q_per_kv + 2); Dim head_dim; Dim last] ;;
  q <- slice_to_neg weights 1 2 ;;
  k <- select_neg weights 1 2 ;;
  v <- select_neg weights 1 1 ;;
  q2 <- size_at q 2 ;;
  q3 <- size_at q 3 ;;
  q <- reshape q [Infer; Dim q2; Dim q3] ;;
  weights <- cat [q; k; v] 0 ;;
  w2 <- size_at weights 2 ;;
  weights <- reshape weights [Infer; Dim w2] ;;
  let weights := squeeze weights in
  if shape_eqb input_shape (shape weights) then Ok weights
  else Err AssertionError.

Definition split (v : tensor A) (tp_size idx dim : nat) : result (tensor A) :=
  if tp_size =? 1 then Ok v
  else if length (shape v) =? 1
  then cs <- chunk v tp_size 0 ;; getitem cs idx
  else cs <- chunk v tp_size dim ;; getitem cs idx.

Definition split_qkv_tp (v : tensor A) (n_head n_hidden tensor_parallel rank : nat)
  : result (tensor A) :=
  v <- reshape v [Dim 3; Dim n_hidden; Dim n_hidden] ;;
  split_v <- split v tensor_parallel rank 1 ;;
  per_rank <- floordiv n_hidden tensor_parallel ;;
  reshape split_v [Dim (3 * per_rank); Dim n_hidden].

Definition split_qkv_bias_tp (v : tensor A) (n_head n_hidden tensor_parallel rank : nat)
  : result (tensor A) :=
  v <- reshape v [Dim 3; Dim n_hidden] ;;
  split_v <- split v tensor_parallel rank 1 ;;
  per_rank <- floordiv n_hidden tensor_parallel ;;
  reshape split_v [Dim (3 * per_rank)].

Definition split_matrix_tp (v : tensor A) (tensor_parallel rank dim : nat)
  : result (tensor A) :=
  split v tensor_parallel rank dim.

(** The body of [split_embedding] once [param] is known to be a
    tensor.  [pad_vocab_size] is what the module's global name
    [pad_vocab_size] is bound to, if anything: the call is a name
    lookup at run time and an unbound name raises [NameError]. *)
Definition split_embedding_tensor
    (pad_vocab_size : option (nat -> nat -> nat))
    (param : tensor A) (tp_size tp_rank : nat)
    (use_parallel_embedding : bool) (sharding_dim : nat) : result (tensor A) :=
  if negb use_parallel_embedding then Ok param
  else
    match shape param with
    | [vocab_size; hidden_size] =>
        param <-
          (if sharding_dim =? 0
           then
             r <- modulo vocab_size tp_size ;;
             if negb (r =? 0)
             then
               match pad_vocab_size with
               | None => Err NameError
               | Some pad =>
                   let vocab_size_padded := pad vocab_size tp_size in
                   let pad_width := vocab_size_padded - vocab_size in
                   pad_rows_end param pad_width zero
               end
             else
               r <- modulo hidden_size tp_size ;;
               if r =? 0 then Ok param else Err AssertionError
           else Ok param) ;;
        split param tp_size tp_rank sharding_dim
    | _ => Err ValueError
    end.

Definition split_embedding_with
    (pad_vocab_size : option (nat -> nat -> nat))
    (param : option (tensor A)) (tp_size tp_rank : nat)
    (use_parallel_embedding : bool) (sharding_dim : nat)
  : result (option (tensor A)) :=
  match param with
  | None => Ok None
  | Some p =>
      r <- split_embedding_tensor pad_vocab_size p tp_size tp_rank
             use_parallel_embedding sharding_dim ;;
      Ok (Some r)
  end.

(** The global names of the module are [torch], [QuantAlgo],
    [str_dtype_to_torch] and its own functions: [pad_vocab_size] is
    neither imported nor defined. *)
Definition module_pad_vocab_size : option (nat -> nat -> nat) := None.

Definition split_embedding := split_embedding_with module_pad_vocab_size.

Definition get_weight (weights : dict (tensor A)) (prefix : string)
    (d : torch_dtype) : result (tensor A) :=
  w <- lookup weights (String.append prefix ".weight") ;;
  Ok (to w d).

Definition get_bias (weights : dict (tensor A)) (prefix : string)
    (d : torch_dtype) : result (tensor A) :=
  b <- lookup weights (String.append prefix ".bias") ;;
  Ok (to b d).

Definition get_weight_and_bias (weights : dict (tensor A)) (prefix : string)
    (d : torch_dtype) : result (tensor A * tensor A) :=
  w <- get_weight weights prefix d ;;
  b <- get_bias weights prefix d ;;
  Ok (w, b).

Definition get_tllm_linear_weight (weight : tensor A) (prefix : string)
    (bias : option (tensor A)) (use_weight_only : bool)
    (plugin_weight_only_quant_type : option quant_type)
  : result (dict (tensor A)) :=
  results <-
    (if use_weight_only
     then
       v <- transpose weight ;;
       pq <- symmetric_quantize_last_axis_of_batched_matrix v
               plugin_weight_only_quant_type ;;
       Ok (set (set [] (String.append prefix ".weight") (fst pq))
               (String.append prefix ".per_channel_scale") (snd pq))
     else Ok (set [] (String.append prefix ".weight") weight)) ;;
  match bias with
  | Some b => Ok (set results (String.append prefix ".bias") b)
  | None => Ok results
  end.

(** The grouped-query branch of the layer loop of [split_weights_tp],
    on the fused weight. *)
Definition split_qkv_weight_gqa (qkv_weight : tensor A)
    (num_heads num_kv hidden tp_size rank : nat) : result (tensor A) :=
  num_q_per_kv <- floordiv num_heads num_kv ;;
  qkv_weight <- reshape qkv_weight [Dim (num_q_per_kv + 2); Infer; Dim hidden] ;;
  q <- slice qkv_weight 0 0 num_q_per_kv ;;
  q <- reshape q [Infer; Dim hidden] ;;
  k <- slice qkv_weight 0 num_q_per_kv (num_q_per_kv + 1) ;;
  k <- reshape k [Infer; Dim hidden] ;;
  v <- slice qkv_weight 0 (num_q_per_kv + 1) (num_q_per_kv + 2) ;;
  v <- reshape v [Infer; Dim hidden] ;;
  sq <- split q tp_size rank 0 ;;
  sk <- split k tp_size rank 0 ;;
  sv <- split v tp_size rank 0 ;;
  cat [sq; sk; sv] 0.

(** The same branch on the fused bias. *)
Definition split_qkv_bias_gqa (qkv_bias : tensor A)
    (num_heads num_kv tp_size rank : nat) : result (tensor A) :=
  num_q_per_kv <- floordiv num_heads num_kv ;;
  qkv_bias <- reshape qkv_bias [Dim (num_q_per_kv + 2); Infer] ;;
  q <- slice qkv_bias 0 0 num_q_per_kv ;;
  q <- reshape q [Infer] ;;
  k <- slice qkv_bias 0 num_q_per_kv (num_q_per_kv + 1) ;;
  k <- reshape k [Infer] ;;
  v <- slice qkv_bias 0 (num_q_per_kv + 1) (num_q_per_kv + 2) ;;
  v <- reshape v [Infer] ;;
  sq <- split q tp_size rank 0 ;;
  sk <- split k tp_size rank 0 ;;
  sv <- split v tp_size rank 0 ;;
  cat [sq; sk; sv] 0.

Definition layer_prefix (layer_id : nat) : string :=
  String.append "transformer.layers."
    (String.append (str_of_nat layer_id) ".").

Definition plugin_quant_type (args : arguments) : option quant_type :=
  if use_weight_only args && String.eqb (weight_only_precision args) "int8"
  then Some int8
  else if use_weight_only args && String.eqb (weight_only_precision args) "int4"
  then Some quint4x2
  else None.

(** One iteration of the layer loop of [split_weights_tp]. *)
Definition split_layer (num_heads num_kv hidden : nat) (args : arguments)
    (rank : nat) (d : torch_dtype) (weights : dict (tensor A)) (layer_id : nat)
  : result (dict (tensor A)) :=
  let mha_mode := num_heads =? num_kv in
  let tp := tp_size args in
  let pack w prefix bias :=
    get_tllm_linear_weight w prefix bias (use_weight_only args)
      (plugin_quant_type args) in
  let prefix := String.append (layer_prefix layer_id) "attention.qkv" in
  wb <- get_weight_and_bias weights prefix d ;;
  let qkv_weight := fst wb in
  let qkv_bias := snd wb in
  wb <-
    (if negb mha_mode
     then
       split_weight <- split_qkv_weight_gqa qkv_weight num_heads num_kv hidden tp rank ;;
       split_bias <- split_qkv_bias_gqa qkv_bias num_heads num_kv tp rank ;;
       Ok (split_weight, split_bias)
     else
       split_weight <- split_qkv_tp qkv_weight num_heads hidden tp rank ;;
       split_bias <- split_qkv_bias_tp qkv_bias num_heads hidden tp rank ;;
       Ok (split_weight, split_bias)) ;;
  let split_weight := fst wb in
  let split_bias := snd wb in
  packed <- pack split_weight prefix (Some split_bias) ;;
  let weights := update weights packed in
  let prefix := String.append (layer_prefix layer_id) "attention.dense" in
  wb <- get_weight_and_bias weights prefix d ;;
  split_v <- split_matrix_tp (fst wb) tp rank 1 ;;
  packed <- pack split_v prefix (Some (snd wb)) ;;
  let weights := update weights packed in
  let prefix := String.append (layer_prefix layer_id) "mlp.fc" in
  wb <- get_weight_and_bias weights prefix d ;;
  split_v <- split_matrix_tp (fst wb) tp rank 0 ;;
  bias <- split_matrix_tp (snd wb) tp rank 0 ;;
  packed <- pack split_v prefix (Some bias) ;;
  let weights := update weights packed in
  let prefix := String.append (layer_prefix layer_id) "mlp.proj" in
  wb <- get_weight_and_bias weights prefix d ;;
  split_v <- split_matrix_tp (fst wb) tp rank 1 ;;
  packed <- pack split_v prefix (Some (snd wb)) ;;
  Ok (update weights packed).

Fixpoint split_layers (num_heads num_kv hidden : nat) (args : arguments)
    (rank : nat) (d : torch_dtype) (weights : dict (tensor A))
    (layer_ids : list nat) : result (dict (tensor A)) :=
  match layer_ids with
  | [] => Ok weights
  | layer_id :: rest =>
      weights <- split_layer num_heads num_kv hidden args rank d weights layer_id ;;
      split_layers num_heads num_kv hidden args rank d weights rest
  end.

Definition split_weights_tp (cfg : config) (weights : dict (tensor A))
    (args : arguments) (rank : nat) (d : torch_dtype)
  : result (dict (tensor A)) :=
  let num_heads := num_attention_heads cfg in
  num_kv <- required (num_kv_heads cfg) ;;
  let hidden := hidden_size cfg in
  let tp := tp_size args in
  weights <- split_layers num_heads num_kv hidden args rank d weights
               (seq 0 (num_hidden_layers cfg)) ;;
  emb <- lookup weights "transformer.vocab_embedding.weight" ;;
  emb <- split_embedding_tensor module_pad_vocab_size emb tp rank false 0 ;;
  let weights := set weights "transformer.vocab_embedding.weight" emb in
  head <- lookup weights "lm_head.weight" ;;
  head <- split_matrix_tp head tp rank 0 ;;
  Ok (set weights "lm_head.weight" head).

(** The key rewriting of [convert_hf_weights]. *)
Definition rename_key (key : string) : string :=
  let key :=
    if contains "model.layers." key
    then
      let key := replace key "model.layers." "transformer.layers." in
      let key := replace key "self_attn." "attention." in
      let key := replace key "query_key_value." "qkv." in
      let key := replace key "mlp.up_proj." "mlp.fc." in
      let key := replace key "mlp.down_proj." "mlp.proj." in
      replace key "post_attention_layernorm." "post_layernorm."
    else key in
  let key := replace key "model.embed_tokens.weight"
               "transformer.vocab_embedding.weight" in
  replace key "model.final_layernorm." "transformer.ln_f.".

Definition rename_state_dict (hf_state_dict : list (string * tensor A))
    (d : torch_dtype) : dict (tensor A) :=
  fold_left (fun weights kv => set weights (rename_key (fst kv)) (to (snd kv) d))
            hf_state_dict [].

(** The loop that reassembles every entry whose key contains "qkv.". *)
Fixpoint shuffle_entries (cfg : config) (weights : dict (tensor A))
    (ks : list string) : result (dict (tensor A)) :=
  match ks with
  | [] => Ok weights
  | key :: rest =>
      weights <-
        (if contains "qkv." key
         then
           w <- lookup weights key ;;
           w <- shuffle_qkv_weights w cfg ;;
           Ok (set weights key w)
         else Ok weights) ;;
      shuffle_entries cfg weights rest
  end.

(** [hf_state_dict] is the list of items of [hf_model.state_dict()],
    in its order. *)
Definition convert_hf_weights (hf_state_dict : list (string * tensor A))
    (cfg : config) (args : arguments) (rank : nat)
  : result (dict (tensor A)) :=
  d <- str_dtype_to_torch (dtype args) ;;
  let weights := rename_state_dict hf_state_dict d in
  emb <- lookup weights "transformer.vocab_embedding.weight" ;;
  let weights := set weights "lm_head.weight" emb in
  weights <- shuffle_entries cfg weights (keys weights) ;;
  split_weights_tp cfg weights args rank d.

End Converter.

End Convert.

Import Convert.

(** ** Vocabulary of the statements *)

Section Layout.

Context {A : Type}.

(** The slices of a tensor along its first axis: the rows of a weight
    matrix, the scalars of a bias. *)
Definition rows (t : tensor A) : list (list A) :=
  blocks (nth 0 (shape t) 0) (numel (tl (shape t))) (data t).

(** Picks the slices [order] of [rs], in that order. *)
Definition gather (rs : list (list A)) (order : list nat) : list (list A) :=
  map (fun i => nth i rs []) order.

(** The axis [split] works on: the only axis of a one-dimensional
    tensor, the requested one otherwise. *)
Definition split_axis (t : tensor A) (dim : nat) : nat :=
  if length (shape t) =? 1 then 0 else dim.

(** The item of the source checkpoint that ends up under the key
    [target] once the keys are rewritten: the last one, in the order of
    the checkpoint, whose rewritten key is [target]. *)
Definition source_entry (hf_state_dict : list (string * tensor A))
    (target : string) : option (tensor A) :=
  fold_left (fun found kv =>
               if String.eqb (rename_key (fst kv)) target
               then Some (snd kv) else found)
            hf_state_dict None.

End Layout.

(** The key/value head count as [shuffle_qkv_weights] reads it, the
    query heads per key/value head and the rows per head. *)
Definition kv_heads (cfg : config) : option nat :=
  match num_kv_heads cfg with
  | Some n => Some n
  | None => num_key_value_heads cfg
  end.

Definition num_q_per_kv (cfg : config) (num_kv : nat) : nat :=
  num_attention_heads cfg / num_kv.

Definition head_dim (cfg : config) : nat :=
  hidden_size cfg / num_attention_heads cfg.

(** The source row behind every output row of the reassembler, for
    [num_kv] groups of [num_q_per_kv] query heads, one key head and one
    value head of [head_dim] rows each: the query rows of every group,
    then the key rows of every group, then the value rows of every
    group. *)
Definition grouped_order (num_kv num_q_per_kv head_dim : nat) : list nat :=
  let group := (num_q_per_kv + 2) * head_dim in
  flat_map (fun g => seq (g * group) (num_q_per_kv * head_dim)) (seq 0 num_kv)
  ++ flat_map (fun g => seq (g * group + num_q_per_kv * head_dim) head_dim)
       (seq 0 num_kv)
  ++ flat_map (fun g => seq (g * group + (num_q_per_kv + 1) * head_dim) head_dim)
       (seq 0 num_kv).

(** Modelled from the spec: the helper [pad_vocab_size] of the package's
    [_utils] module, which is not part of the converter file; the spec
    has it return the vocabulary size rounded up to the next multiple of
    [tp_size]. *)
Definition pad_vocab_size (vocab_size tp_size : nat) : nat :=
  (vocab_size + tp_size - 1) / tp_size * tp_size.

(** A tensor whose slice [i] along the first axis holds [i] at every
    position. *)
Definition labelled (rows_ cols : nat) : tensor nat :=
  mkTensor [rows_; cols] (flat_map (fun i => repeat i cols) (seq 0 rows_)).

(** The configuration of the first end-to-end scenario: four query
    heads, two key/value heads, hidden size eight, hence two rows per
    head. *)
Definition scenario_config : config := {|
  num_attention_heads := 4;
  num_kv_heads := Some 2;
  num_key_value_heads := None;
  hidden_size := 8;
  num_hidden_layers := 1
|}.

(** A small grouped-query model for the examples: two query heads
    sharing one key/value head, hidden size four, one layer, converted
    for two ranks without quantization. *)
Definition example_config : config := {|
  num_attention_heads := 2;
  num_kv_heads := Some 1;
  num_key_value_heads := None;
  hidden_size := 4;
  num_hidden_layers := 1
|}.

Definition example_args : arguments := {|
  tp_size := 2;
  pp_size := 1;
  dtype := "float16";
  use_weight_only := false;
  weight_only_precision := "int8"
|}.

Definition vector (n : nat) : tensor nat := mkTensor [n] (seq 0 n).

(** A source checkpoint of that model, with an output projection of
    its own next to the embedding. *)
Definition example_state_dict : list (string * tensor nat) :=
  [ ("model.embed_tokens.weight", labelled 6 4);
    ("model.layers.0.self_attn.query_key_value.weight", labelled 8 4);
    ("model.layers.0.self_attn.query_key_value.bias", vector 8);
    ("model.layers.0.self_attn.dense.weight", labelled 4 4);
    ("model.layers.0.self_attn.dense.bias", vector 4);
    ("model.layers.0.mlp.up_proj.weight", labelled 8 4);
    ("model.layers.0.mlp.up_proj.bias", vector 8);
    ("model.layers.0.mlp.down_proj.weight", labelled 4 8);
    ("model.layers.0.mlp.down_proj.bias", vector 4);
    ("model.final_layernorm.weight", vector 4);
    ("lm_head.weight", mkTensor [6; 4] (repeat 9 24)) ]%string.


(** The same model under the target names, as [split_weights_tp]
    receives it. *)
Definition example_weights : dict (tensor nat) :=
  [ ("transformer.vocab_embedding.weight", labelled 6 4);
    ("transformer.layers.0.attention.qkv.weight", labelled 8 4);
    ("transformer.layers.0.attention.qkv.bias", vector 8);
    ("transformer.layers.0.attention.dense.weight", labelled 4 4);
    ("transformer.layers.0.attention.dense.bias", vector 4);
    ("transformer.layers.0.mlp.fc.weight", labelled 8 4);
    ("transformer.layers.0.mlp.fc.bias", vector 8);
    ("transformer.layers.0.mlp.proj.weight", labelled 4 8);
    ("transformer.layers.0.mlp.proj.bias", vector 4);
    ("transformer.ln_f.weight", vector 4);
    ("lm_head.weight", labelled 6 4) ]%string.

(** An element type for the examples: natural numbers, a cast that
    changes nothing, and a kernel that returns the matrix it is given
    with a one-element scale. *)
#[local] Instance nat_numeric : Numeric nat := {
  zero := 0;
  torch_dtype := unit;
  str_dtype_to_torch := fun _ => Ok tt;
  to_dtype := fun _ x => x;
  symmetric_quantize_last_axis_of_batched_matrix :=
    fun t _ => Ok (t, mkTensor [1] [1])
}.

(** The results of the conversion on the examples, for rank 1. *)
Definition example_split_output : dict (tensor nat) :=
  Eval vm_compute in
    match split_weights_tp example_config example_weights example_args 1 tt with
    | Ok out => out
    | Err _ => []
    end.

Definition example_convert_output : dict (tensor nat) :=
  Eval vm_compute in
    match convert_hf_weights example_state_dict example_config example_args 1 with
    | Ok out => out
    | Err _ => []
    end.

(** The source rows behind the rows of one rank's fused QKV shard, for
    a reassembled tensor of [num_q_per_kv + 2] blocks of [block] rows
    (the query blocks, then the key block, then the value block): the
    rank's share of the query rows, of the key rows and of the value
    rows. *)
Definition qkv_shard_order (num_q_per_kv block tp_size rank : nat) : list nat :=
  let per_rank := block / tp_size in
  seq (rank * (num_q_per_kv * per_rank)) (num_q_per_kv * per_rank)
  ++ seq (num_q_per_kv * block + rank * per_rank) per_rank
  ++ seq ((num_q_per_kv + 1) * block + rank * per_rank) per_rank.

(** Decimal digits, as [str] prints them. *)
Definition is_digit (c : ascii) : bool :=
  (48 <=? nat_of_ascii c) && (nat_of_ascii c <=? 57).

Fixpoint all_digits (s : string) : bool :=
  match s with
  | EmptyString => true
  | String c s' => is_digit c && all_digits s'
  end.

(** The ten per-layer tensors of a source checkpoint whose keys the
    converter rewrites: the part of the source key after the layer
    index, and the part of the target key after the layer prefix. *)
Definition layer_tensor_names : list (string * string) :=
  [ (".self_attn.query_key_value.weight", "attention.qkv.weight");
    (".self_attn.query_key_value.bias", "attention.qkv.bias");
    (".self_attn.dense.weight", "attention.dense.weight");
    (".self_attn.dense.bias", "attention.dense.bias");
    (".mlp.up_proj.weight", "mlp.fc.weight");
    (".mlp.up_proj.bias", "mlp.fc.bias");
    (".mlp.down_proj.weight", "mlp.proj.weight");
    (".mlp.down_proj.bias", "mlp.proj.bias");
    (".post_attention_layernorm.weight", "post_layernorm.weight");
    (".post_attention_layernorm.bias", "post_layernorm.bias") ]%string.

(** [compatible u old]: one of the two strings is a prefix of the
    other, so an occurrence of [old] could start where [u] does. *)
Definition compatible (u old : string) : bool :=
  String.prefix u old || String.prefix old u.

(** No occurrence of [old] can start inside [pre], whatever follows. *)
Fixpoint clear_of (old pre : string) : bool :=
  match pre with
  | EmptyString => true
  | String _ pre' => negb (compatible pre old) && clear_of old pre'
  end.

(** The example model with its key/value head count stored under the
    name "num_key_value_heads" only. *)
Definition alt_key_config : config := {|
  num_attention_heads := 2;
  num_kv_heads := None;
  num_key_value_heads := Some 1;
  hidden_size := 4;
  num_hidden_layers := 1
|}.

(** The per-layer linear tensors the layer loop shards without
    regrouping, by the part of the key after the layer prefix, with the
    axis each one is split along; [None] for the two biases that every
    rank keeps whole. *)
Definition layer_sharding : list (string * option nat) :=
  [ ("attention.dense.weight", Some 1);
    ("attention.dense.bias", None);
    ("mlp.fc.weight", Some 0);
    ("mlp.fc.bias", Some 0);
    ("mlp.proj.weight", Some 1);
    ("mlp.proj.bias", None) ]%string.

(** ** The configuration projector

    [convert_hf_config] reads attributes of the source configuration
    object and builds the target configuration dictionary.  Attribute
    values are dynamically typed, and the function can raise exceptions
    that name what is missing, so it has a value type and an error type
    of its own. *)

Module Projector.

(** The members of [QuantAlgo] the projector selects. *)
Inductive quant_algo : Type :=
| W8A16
| W4A16.

Section Values.

(** Floating-point numbers are only copied and compared with one
    integer: their type and that comparison are parameters. *)
Context {F : Type} (float_ge_int : F -> Z -> bool).

#[warnings="-register-all"]
Inductive value : Type :=
| VNone
| VBool (b : bool)
| VInt (z : Z)
| VFloat (f : F)
| VStr (s : string)
| VList (items : list value)
| VDict (items : list (string * value))
| VQuantAlgo (q : quant_algo).

Inductive failure : Type :=
| AttributeError (name : string)
| KeyError (key : string)
| TypeError.

Definition outcome (T : Type) : Type := (failure + T)%type.

Definition and_then {T U : Type} (r : outcome T) (k : T -> outcome U)
  : outcome U :=
  match r with
  | inl e => inl e
  | inr x => k x
  end.

(** [obj.name] on the source configuration, given as the dictionary of
    its attributes. *)
Definition getattr (obj : dict value) (name : string) : outcome value :=
  match get obj name with
  | Some v => inr v
  | None => inl (AttributeError name)
  end.

(** [v[key]] for a string key. *)
Definition subscript (v : value) (key : string) : outcome value :=
  match v with
  | VDict items =>
      match get items key with
      | Some x => inr x
      | None => inl (KeyError key)
      end
  | _ => inl TypeError
  end.

(** [v >= bound] for an integer bound: numbers compare, booleans as 0
    and 1, anything else is a [TypeError]. *)
Definition ge_int (v : value) (bound : Z) : outcome bool :=
  match v with
  | VInt z => inr (bound <=? z)%Z
  | VBool b => inr (bound <=? Z.b2z b)%Z
  | VFloat f => inr (float_ge_int f bound)
  | _ => inl TypeError
  end.

(** Where the value of an entry of a dictionary display comes from. *)
Inductive source : Type :=
| Const (v : value)
| Attr (name : string)
| AttrItem (name key : string).

Definition eval_source (hf_config : dict value) (s : source) : outcome value :=
  match s with
  | Const v => inr v
  | Attr name => getattr hf_config name
  | AttrItem name key =>
      and_then (getattr hf_config name) (fun v => subscript v key)
  end.

(** A dictionary display [{k1: e1, k2: e2, ...}] with pairwise
    distinct keys, as all displays of the function are: the values are
    evaluated in order and the first exception wins. *)
Fixpoint display (hf_config : dict value) (entries : list (string * source))
  : outcome (dict value) :=
  match entries with
  | [] => inr []
  | (k, s) :: rest =>
      and_then (eval_source hf_config s) (fun v =>
      and_then (display hf_config rest) (fun d =>
      inr ((k, v) :: d)))
  end.

(** The entries of the first display of [convert_hf_config]. *)
Definition base_entries (dtype : string) : list (string * source) :=
  [ ("architecture", Const (VStr "Phi3SmallForCausalLM"));
    ("dtype", Const (VStr dtype));
    ("num_hidden_layers", Attr "num_hidden_layers");
    ("num_attention_heads", Attr "num_attention_heads");
    ("num_kv_heads", Attr "num_key_value_heads");
    ("rotary_embedding_base", Attr "rope_embedding_base");
    ("hidden_size", Attr "hidden_size");
    ("intermediate_size", Attr "intermediate_size");
    ("vocab_size", Attr "vocab_size");
    ("max_position_embeddings", Attr "max_position_embeddings");
    ("hidden_act", Attr "hidden_act");
    ("share_embedding_table", Const (VBool false));
    ("gegelu_limit", Attr "gegelu_limit");
    ("mup_attn_multiplier", Attr "mup_attn_multiplier");
    ("mup_embedding_multiplier", Attr "mup_embedding_multiplier");
    ("mup_use_scaling", Attr "mup_use_scaling");
    ("mup_width_multiplier", Attr "mup_width_multiplier");
    ("blocksparse_block_size", Attr "blocksparse_block_size");
    ("blocksparse_homo_head_pattern", Attr "blocksparse_homo_head_pattern");
    ("blocksparse_num_local_blocks", Attr "blocksparse_num_local_blocks");
    ("blocksparse_vertical_stride", Attr "blocksparse_vert_stride");
    ("dense_attention_every_n_layers", Attr "dense_attention_every_n_layers")
  ]%string.

(** The entries of the display added for long-context models. *)
Definition longrope_entries : list (string * source) :=
  [ ("original_max_position_embeddings", Attr "original_max_position_embeddings");
    ("longrope_scaling_short_factors", AttrItem "rope_scaling" "short_factor");
    ("longrope_scaling_long_factors", AttrItem "rope_scaling" "long_factor");
    ("longrope_long_mscale", AttrItem "rope_scaling" "long_mscale");
    ("longrope_short_mscale", AttrItem "rope_scaling" "short_mscale")
  ]%string.

Definition mapping_entry (args : arguments) : dict value :=
  [ ("mapping",
     VDict [ ("world_size", VInt (Z.of_nat (tp_size args * pp_size args)));
             ("tp_size", VInt (Z.of_nat (tp_size args)));
             ("pp_size", VInt (Z.of_nat (pp_size args))) ]) ]%string.

Definition quantization_entry (q : quant_algo) : dict value :=
  [ ("quantization", VDict [ ("quant_algo", VQuantAlgo q) ]) ]%string.

Definition convert_hf_config (hf_config : dict value) (dtype : string)
    (args : option arguments) : outcome (dict value) :=
  and_then (display hf_config (base_entries dtype)) (fun config =>
  let config :=
    match args with
    | Some args =>
        let config := update config (mapping_entry args) in
        if use_weight_only args && String.eqb (weight_only_precision args) "int8"
        then update config (quantization_entry W8A16)
        else if use_weight_only args
                && String.eqb (weight_only_precision args) "int4"
        then update config (quantization_entry W4A16)
        else config
    | None => config
    end in
  and_then (getattr hf_config "max_position_embeddings") (fun m =>
  and_then (ge_int m 128000) (fun long_context =>
  if long_context
  then
    and_then (display hf_config longrope_entries) (fun extra =>
    inr (update config extra))
  else inr config))).

(** The [QuantAlgo] member that goes with a weight-only storage
    type. *)
Definition quant_algo_of (q : quant_type) : quant_algo :=
  match q with
  | int8 => W8A16
  | quint4x2 => W4A16
  end.

End Values.

(** Source configurations for the examples; floats are numbered. *)
Definition example_rope_scaling : @value nat :=
  VDict [ ("short_factor", VList [VFloat 5]);
          ("long_factor", VList [VFloat 6]);
          ("long_mscale", VFloat 7);
          ("short_mscale", VFloat 8) ]%string.

Definition example_hf_config (max_positions : Z) (rope_scaling : @value nat)
  : dict (@value nat) :=
  [ ("num_hidden_layers", VInt 1);
    ("num_attention_heads", VInt 2);
    ("num_key_value_heads", VInt 1);
    ("rope_embedding_base", VFloat 0);
    ("hidden_size", VInt 4);
    ("intermediate_size", VInt 8);
    ("vocab_size", VInt 6);
    ("max_position_embeddings", VInt max_positions);
    ("hidden_act", VStr "gegelu");
    ("gegelu_limit", VFloat 1);
    ("mup_attn_multiplier", VFloat 2);
    ("mup_embedding_multiplier", VFloat 3);
    ("mup_use_scaling", VBool true);
    ("mup_width_multiplier", VFloat 4);
    ("blocksparse_block_size", VInt 64);
    ("blocksparse_homo_head_pattern", VBool false);
    ("blocksparse_num_local_blocks", VInt 16);
    ("blocksparse_vert_stride", VInt 8);
    ("dense_attention_every_n_layers", VInt 2);
    ("original_max_position_embeddings", VInt 8192);
    ("rope_scaling", rope_scaling) ]%string.

(** No float of the examples reaches the long-context bound. *)
Definition example_float_ge_int (f : nat) (bound : Z) : bool := false.

(** The source configuration of the examples without its hidden size. *)
Definition example_hf_config_incomplete : dict (@value nat) :=
  filter (fun kv => negb (String.eqb (fst kv) "hidden_size"))
    (example_hf_config 4096 VNone).

Definition example_quantized_args : arguments := {|
  tp_size := 2;
  pp_size := 3;
  dtype := "float16";
  use_weight_only := true;
  weight_only_precision := "int4"
|}.

Definition example_short_config : dict (@value nat) :=
  Eval vm_compute in
  match convert_hf_config example_float_ge_int (example_hf_config 4096 VNone)
          "float16" (Some example_quantized_args) with
  | inr c => c
  | inl _ => []
  end.

Definition example_base_config : dict (@value nat) :=
  Eval vm_compute in
  match display (example_hf_config 131072 VNone) (base_entries "float16") with
  | inr c => c
  | inl _ => []
  end.

Definition example_long_config : dict (@value nat) :=
  Eval vm_compute in
  match convert_hf_config example_float_ge_int
          (example_hf_config 131072 example_rope_scaling) "float16" None with
  | inr c => c
  | inl _ => []
  end.

End Projector.

(** ** Facts about flat buffers *)

Section Buffers.

Context {A : Type}.

Implicit Types (l b : list A) (rs : list (list A)).

Lemma blocks_length count size l : length (blocks count size l) = count.
Proof.
  revert l; induction count as [|c IH]; intros l; simpl; [reflexivity|].
  now rewrite IH.
Qed.

Lemma blocks_as_map count size l :
  blocks count size l
  = map (fun i => firstn size (skipn (i * size) l)) (seq 0 count).
Proof.
  revert l; induction count as [|c IH]; intros l; [reflexivity|].
  cbn [blocks seq map]. f_equal. rewrite IH, <- seq_shift, map_map.
  apply map_ext; intros i. rewrite skipn_skipn. do 2 f_equal. lia.
Qed.

Lemma blocks_concat count size l :
  length l = count * size -> concat (blocks count size l) = l.
Proof.
  revert l; induction count as [|c IH]; intros l Hl; simpl in *.
  - now destruct l.
  - rewrite IH; [apply firstn_skipn|]. rewrite length_skipn. lia.
Qed.

Lemma blocks_cons count size b l :
  length b = size -> blocks (S count) size (b ++ l) = b :: blocks count size l.
Proof.
  intros Hb; simpl.
  rewrite firstn_app, skipn_app, Hb, Nat.sub_diag.
  rewrite firstn_all2, skipn_all2 by lia.
  simpl. now rewrite app_nil_r.
Qed.

Lemma blocks_of_concat size rs :
  Forall (fun r => length r = size) rs ->
  blocks (length rs) size (concat rs) = rs.
Proof.
  induction 1 as [|r rs Hr _ IH]; [reflexivity|].
  cbn [length concat]. rewrite blocks_cons by assumption. now rewrite IH.
Qed.

Lemma firstn_skipn_firstn len off size l :
  off + len <= size ->
  firstn len (skipn off (firstn size l)) = firstn len (skipn off l).
Proof.
  intros Hle. rewrite skipn_firstn_comm, firstn_firstn. f_equal. lia.
Qed.

Lemma piece_length len off l :
  off + len <= length l -> length (firstn len (skipn off l)) = len.
Proof.
  intros Hle. rewrite length_firstn, length_skipn. lia.
Qed.

(** Consecutive pieces of a buffer put it back together. *)
Lemma pieces_concat count size b :
  length b = count * size ->
  concat (map (fun r => firstn size (skipn (r * size) b)) (seq 0 count)) = b.
Proof.
  intros Hb. rewrite <- blocks_as_map. now apply blocks_concat.
Qed.

Lemma concat_map_flat_map {B : Type} (f : B -> list nat) (g : nat -> list A)
    (xs : list B) :
  concat (map g (flat_map f xs)) = concat (map (fun x => concat (map g (f x))) xs).
Proof.
  induction xs as [|x xs IH]; [reflexivity|].
  simpl. now rewrite map_app, concat_app, IH.
Qed.

End Buffers.

Lemma numel_app (s1 s2 : list nat) : numel (s1 ++ s2) = numel s1 * numel s2.
Proof.
  induction s1 as [|a s1 IH]; simpl; [lia|]. rewrite IH. lia.
Qed.

Lemma shape_split (s : list nat) (dim : nat) :
  dim < length s -> firstn dim s ++ nth dim s 0 :: skipn (S dim) s = s.
Proof.
  revert dim; induction s as [|a s IH]; intros [|d] Hd; simpl in *; try lia.
  - reflexivity.
  - f_equal. apply IH. lia.
Qed.

Lemma numel_split (s : list nat) (dim : nat) :
  dim < length s ->
  numel s = numel (firstn dim s) * (nth dim s 0 * numel (skipn (S dim) s)).
Proof.
  intros Hd. rewrite <- (shape_split s Hd) at 1. now rewrite numel_app.
Qed.

Lemma shape_eqb_refl (s : list nat) : shape_eqb s s = true.
Proof.
  induction s as [|a s IH]; simpl; [reflexivity|].
  now rewrite Nat.eqb_refl, IH.
Qed.

Lemma shape_eqb_eq (s1 s2 : list nat) : shape_eqb s1 s2 = true <-> s1 = s2.
Proof.
  split; [|intros ->; apply shape_eqb_refl].
  revert s2; induction s1 as [|a s1 IH]; intros [|b s2]; simpl; try discriminate.
  - reflexivity.
  - intros H. apply andb_prop in H as [Hab Hs].
    apply Nat.eqb_eq in Hab. apply IH in Hs. congruence.
Qed.

(** ** The matrix splitter *)

Section Splitting.

Context {A : Type}.

Implicit Types (t x : tensor A).

Lemma div_ceil_exact (k c : nat) : 0 < k -> (k * c + k - 1) / k = c.
Proof.
  intros Hk. symmetry. apply Nat.div_unique with (r := k - 1); lia.
Qed.

Lemma getitem_map_seq {B : Type} (f : nat -> B) (n i : nat) :
  i < n -> getitem (map f (seq 0 n)) i = Ok (f i).
Proof.
  intros Hi. unfold getitem.
  rewrite nth_error_map, nth_error_seq.
  destruct (Nat.ltb_spec i n); [reflexivity|lia].
Qed.

Lemma getitem_map_seq_out {B : Type} (f : nat -> B) (n i : nat) :
  n <= i -> getitem (map f (seq 0 n)) i = Err IndexError.
Proof.
  intros Hi. unfold getitem.
  rewrite nth_error_map, nth_error_seq.
  destruct (Nat.ltb_spec i n); [lia|reflexivity].
Qed.

Lemma chunk_even t chunks dim c :
  0 < chunks -> dim < ndim t -> nth dim (shape t) 0 = chunks * c ->
  chunk t chunks dim
  = Ok (map (fun i => narrow t dim (i * c) c) (seq 0 chunks)).
Proof.
  intros Hk Hd Hn. unfold chunk.
  destruct (Nat.eqb_spec (ndim t) 0); [lia|].
  destruct (Nat.eqb_spec chunks 0); [lia|].
  destruct (Nat.leb_spec (ndim t) dim); [lia|].
  rewrite Hn, div_ceil_exact by assumption.
  destruct (Nat.eqb_spec c 0) as [->|Hc].
  - apply f_equal. apply map_ext; intros i. now rewrite Nat.mul_0_r.
  - assert (Hq : (chunks * c + c - 1) / c = chunks).
    { replace (chunks * c + c - 1) with (c * chunks + c - 1) by lia.
      apply div_ceil_exact; lia. }
    rewrite Hq, Nat.max_l by lia.
    apply f_equal. apply map_ext; intros i.
    replace (c - (c * chunks - chunks * c)) with c by lia.
    now destruct (i <? chunks - 1).
Qed.


Lemma cat_blocks_single outer m (l : list A) :
  length l = outer * m -> cat_blocks outer [(m, l)] = l.
Proof.
  revert l; induction outer as [|o IH]; intros l Hl.
  - now destruct l.
  - cbn [cat_blocks map concat fst snd]. rewrite app_nil_r, IH.
    + apply firstn_skipn.
    + rewrite length_skipn. lia.
Qed.

(** Interleaving the [tp] narrowed copies of a buffer block by block
    gives the buffer back. *)
Lemma cat_blocks_pieces outer m tp (l : list A) :
  length l = outer * (tp * m) ->
  cat_blocks outer
    (map (fun r => (m, concat (map (fun b => firstn m (skipn (r * m) b))
                                   (blocks outer (tp * m) l))))
         (seq 0 tp)) = l.
Proof.
  revert l; induction outer as [|o IH]; intros l Hl.
  - now destruct l.
  - cbn [cat_blocks blocks]. rewrite !map_map. cbn [fst snd map concat].
    assert (Hb : length (firstn (tp * m) l) = tp * m).
    { rewrite length_firstn. lia. }
    assert (Hpiece : forall r, In r (seq 0 tp) ->
              length (firstn m (skipn (r * m) (firstn (tp * m) l))) = m).
    { intros r Hr. apply in_seq in Hr. apply piece_length. nia. }
    transitivity (firstn (tp * m) l ++ skipn (tp * m) l);
      [|apply firstn_skipn]. f_equal.
    + transitivity (concat (map (fun r => firstn m (skipn (r * m) (firstn (tp * m) l)))
                                (seq 0 tp)));
        [|now apply pieces_concat].
      f_equal. apply map_ext_in; intros r Hr.
      rewrite firstn_app, (Hpiece r Hr), Nat.sub_diag, firstn_all2, app_nil_r;
        [reflexivity|]. rewrite (Hpiece r Hr). lia.
    + etransitivity; [|apply (IH (skipn (tp * m) l)); rewrite length_skipn; lia].
      f_equal. apply map_ext_in; intros r Hr. f_equal.
      rewrite skipn_app, (Hpiece r Hr), Nat.sub_diag, skipn_all2;
        [reflexivity|]. rewrite (Hpiece r Hr). lia.
Qed.

Lemma filter_none {B : Type} (p : B -> bool) (l : list B) :
  (forall z, In z l -> p z = true) -> filter p l = l.
Proof.
  induction l as [|z l IH]; intros Hp; [reflexivity|]. simpl.
  rewrite (Hp z (or_introl eq_refl)), IH; [reflexivity|].
  intros y Hy. apply Hp. now right.
Qed.

Lemma filter_all {B : Type} (p : B -> bool) (l : list B) :
  (forall z, In z l -> p z = false) -> filter p l = [].
Proof.
  induction l as [|z l IH]; intros Hp; [reflexivity|]. simpl.
  rewrite (Hp z (or_introl eq_refl)), IH; [reflexivity|].
  intros y Hy. apply Hp. now right.
Qed.

Lemma firstn_shape_prefix (s s' : list nat) dim c :
  dim <= length s -> firstn dim (firstn dim s ++ c :: s') = firstn dim s.
Proof.
  intros Hd. rewrite firstn_app, length_firstn, Nat.min_l, Nat.sub_diag by assumption.
  rewrite firstn_firstn, Nat.min_id. simpl. apply app_nil_r.
Qed.

Lemma skipn_shape_suffix (s s' : list nat) dim c :
  dim <= length s -> skipn (S dim) (firstn dim s ++ c :: s') = s'.
Proof.
  intros Hd. rewrite skipn_app, length_firstn, Nat.min_l by assumption.
  rewrite skipn_all2 by (rewrite length_firstn; lia).
  now replace (S dim - dim) with 1 by lia.
Qed.

Lemma nth_shape_middle (s s' : list nat) dim c :
  dim <= length s -> nth dim (firstn dim s ++ c :: s') 0 = c.
Proof.
  intros Hd. rewrite app_nth2; rewrite length_firstn, Nat.min_l by assumption; [|lia].
  now rewrite Nat.sub_diag.
Qed.

End Splitting.

Section SplitTheorems.

Context {A : Type}.

Implicit Types (t x : tensor A).

Lemma split_even x tp rank dim c :
  1 < tp -> rank < tp -> split_axis x dim < ndim x ->
  nth (split_axis x dim) (shape x) 0 = tp * c ->
  split x tp rank dim = Ok (narrow x (split_axis x dim) (rank * c) c).
Proof.
  intros Htp Hr Hd Hn. unfold split, split_axis in *.
  destruct (Nat.eqb_spec tp 1); [lia|].
  destruct (length (shape x) =? 1);
    rewrite (@chunk_even A x tp _ c) by (assumption || lia);
    cbn [bind];
    now apply (getitem_map_seq (fun i => narrow x _ (i * c) c)).
Qed.

Lemma cat_ok t0 (rest : list (tensor A)) dim :
  (forall t, In t (t0 :: rest) -> is_legacy_empty t = false) ->
  dim < ndim t0 ->
  (forall t, In t rest -> same_except dim (shape t0) (shape t) = true) ->
  cat (t0 :: rest) dim
  = Ok (mkTensor
          (firstn dim (shape t0)
           ++ list_sum (map (fun t => nth dim (shape t) 0) (t0 :: rest))
           :: skipn (S dim) (shape t0))
          (cat_blocks (numel (firstn dim (shape t0)))
             (map (fun t => (nth dim (shape t) 0
                             * numel (skipn (S dim) (shape t0)), data t))
                  (t0 :: rest)))).
Proof.
  intros Hleg Hd Hsame. unfold cat.
  rewrite filter_none by (intros t Ht; now rewrite (Hleg t Ht)).
  destruct (Nat.eqb_spec (ndim t0) 0); [lia|].
  destruct (Nat.leb_spec (ndim t0) dim); [lia|].
  assert (Hall : forallb (fun t => same_except dim (shape t0) (shape t)) rest = true)
    by now apply forallb_forall.
  now rewrite Hall.
Qed.

Lemma same_except_refl dim (s : list nat) : same_except dim s s = true.
Proof.
  unfold same_except. now rewrite !shape_eqb_refl, Nat.eqb_refl.
Qed.

Lemma list_sum_map_const {B : Type} (l : list B) (c : nat) :
  list_sum (map (fun _ => c) l) = length l * c.
Proof.
  induction l as [|b l IH]; simpl; [reflexivity|]. now rewrite IH.
Qed.

(** C3. Partition completeness: when the size along the split axis is a
    multiple of [tp_size >= 1], the results of [split] for the ranks
    [0 .. tp_size - 1], concatenated along that axis, are the tensor
    itself, element for element. *)
Theorem split_partition_complete x tp_size dim :
  wf x -> 1 <= tp_size ->
  split_axis x dim < ndim x ->
  nth (split_axis x dim) (shape x) 0 mod tp_size = 0 ->
  exists parts,
    Forall2 (fun r part => split x tp_size r dim = Ok part) (seq 0 tp_size) parts
    /\ cat parts (split_axis x dim) = Ok x.
Proof.
  intros Hwf Htp Hd Hmod.
  destruct (Nat.eq_dec tp_size 1) as [->|Hne].
  - exists [x]. split; [repeat constructor|].
    set (a := split_axis x dim) in *. clearbody a.
    destruct x as [s d]. unfold ndim, wf in *. cbn [shape data] in *.
    destruct (is_legacy_empty (mkTensor s d)) eqn:Hleg.
    + unfold cat. cbn [filter]. rewrite Hleg. cbn [negb].
      apply shape_eqb_eq in Hleg. cbn [shape] in Hleg. subst s.
      simpl in Hwf. now destruct d.
    + rewrite cat_ok; cbn [shape data ndim]; try assumption.
      * unfold list_sum. cbn [map fold_right]. rewrite Nat.add_0_r.
        rewrite shape_split by assumption.
        rewrite cat_blocks_single; [reflexivity|]. cbn [shape data].
        rewrite Hwf. now apply numel_split.
      * intros t [<-|[]]. assumption.
      * intros t [].
  - assert (Hn : nth (split_axis x dim) (shape x) 0
                 = tp_size * (nth (split_axis x dim) (shape x) 0 / tp_size)).
    { apply Nat.Div0.div_exact. assumption. }
    set (c := nth (split_axis x dim) (shape x) 0 / tp_size) in *.
    exists (map (fun r => narrow x (split_axis x dim) (r * c) c) (seq 0 tp_size)).
    split.
    + assert (Hall : forall r, In r (seq 0 tp_size) ->
                split x tp_size r dim = Ok (narrow x (split_axis x dim) (r * c) c)).
      { intros r Hr. apply in_seq in Hr. apply split_even; (assumption || lia). }
      revert Hall. generalize (seq 0 tp_size) as l.
      induction l as [|r l IH]; intros Hall; constructor.
      * apply Hall. now left.
      * apply IH. intros r' Hr'. apply Hall. now right.
    + set (a := split_axis x dim) in *. clearbody a.
      destruct x as [s d]. unfold ndim, wf in *. cbn [shape data] in *.
      set (ps := firstn a s ++ c :: skipn (S a) s).
      set (f := fun r => narrow (mkTensor s d) a (r * c) c).
      assert (Hps : forall r, shape (f r) = ps) by reflexivity.
      destruct (shape_eqb ps [0]) eqn:Hleg.
      * (* a one-dimensional empty tensor *)
        apply shape_eqb_eq in Hleg.
        assert (Hs : s = [0]).
        { rewrite <- (shape_split s Hd). unfold ps in Hleg.
          remember (skipn (S a) s) as sk eqn:Esk. clear Esk.
          destruct (firstn a s) as [|n0 l0]; cbn [app] in Hleg;
            [|destruct l0; discriminate].
          injection Hleg as Hc Hsk. rewrite Hsk, Hn, Hc. cbn [app].
          now rewrite Nat.mul_0_r. }
        subst s. simpl in Hwf. destruct d; [|discriminate].
        unfold cat. rewrite filter_all.
        -- destruct tp_size; [lia|]. reflexivity.
        -- intros t Ht. apply in_map_iff in Ht as [r [<- _]].
           unfold is_legacy_empty. rewrite Hps.
           apply shape_eqb_eq in Hleg. now rewrite Hleg.
      *         assert (Hnth : nth a ps 0 = c) by (apply nth_shape_middle; lia).
        assert (Hfst : firstn a ps = firstn a s) by (apply firstn_shape_prefix; lia).
        assert (Hskp : skipn (S a) ps = skipn (S a) s)
          by (apply skipn_shape_suffix; lia).
        assert (Hcat : cat (map f (seq 0 tp_size)) a
                = Ok (mkTensor
                        (firstn a s ++ tp_size * c :: skipn (S a) s)
                        (cat_blocks (numel (firstn a s))
                           (map (fun r => (c * numel (skipn (S a) s), data (f r)))
                                (seq 0 tp_size))))).
        { destruct tp_size as [|k]; [lia|].
          cbn [seq map]. rewrite cat_ok.
          - rewrite Hps, Hfst, Hskp. do 2 f_equal.
            + f_equal. cbn [map]. rewrite Hps, Hnth, map_map.
              rewrite (map_ext _ (fun _ => c)) by (intros r; now rewrite Hps).
              unfold list_sum at 1. cbn [fold_right]. fold (list_sum (map (fun _ => c) (seq 1 k))).
              rewrite list_sum_map_const, length_seq. reflexivity.
            + cbn [map]. rewrite Hps, Hnth, map_map. do 2 f_equal.
              apply map_ext; intros r. now rewrite Hps, Hnth.
          - intros t Ht.
            assert (Hin : In t (map f (seq 0 (S k)))) by exact Ht.
            apply in_map_iff in Hin as [r [<- _]].
            unfold is_legacy_empty. now rewrite Hps.
          - unfold ndim. rewrite Hps. unfold ps.
            rewrite length_app, length_firstn. simpl. lia.
          - intros t Ht. apply in_map_iff in Ht as [r [<- _]].
            rewrite !Hps. apply same_except_refl. }
        rewrite Hcat, <- Hn, shape_split by assumption.
        do 2 f_equal.
        assert (Hlen : length d
                       = numel (firstn a s)
                         * (tp_size * (c * numel (skipn (S a) s)))).
        { rewrite Hwf, (numel_split s Hd), Hn. lia. }
        etransitivity; [|apply (cat_blocks_pieces _ _ _ _ Hlen)].
        f_equal. apply map_ext; intros r. f_equal.
        unfold f, narrow. cbn [shape data]. rewrite Hn. f_equal.
        replace (tp_size * c * numel (skipn (S a) s))
          with (tp_size * (c * numel (skipn (S a) s))) by lia.
        apply map_ext; intros b. now rewrite Nat.mul_assoc.
Qed.

End SplitTheorems.

Section Uneven.

Context {A : Type}.

Implicit Types (t x : tensor A).

(** C6, as the code has it.  [split] never checks divisibility: when
    the size [n] along the split axis is not a multiple of
    [tp_size > 1], chunks have [c = ceil(n / tp_size)] slices, the last
    one fewer; index [idx] is answered with the slices from [idx * c]
    on when there are any, and with an [IndexError] of the list of
    chunks otherwise. *)
Theorem split_uneven_chunks x tp_size idx dim :
  1 < tp_size ->
  split_axis x dim < ndim x ->
  nth (split_axis x dim) (shape x) 0 mod tp_size <> 0 ->
  let n := nth (split_axis x dim) (shape x) 0 in
  let c := (n + tp_size - 1) / tp_size in
  (idx * c < n ->
   split x tp_size idx dim
   = Ok (narrow x (split_axis x dim) (idx * c) (Nat.min c (n - idx * c))))
  /\ (n <= idx * c -> split x tp_size idx dim = Err IndexError).
Proof.
  intros Htp Hd Hmod n c.
  assert (Hn : 0 < n).
  { destruct (Nat.eq_dec n 0) as [E|]; [|lia].
    exfalso. apply Hmod. fold n. rewrite E. apply Nat.Div0.mod_0_l. }
  assert (Hc : 0 < c /\ n <= c * tp_size).
  { unfold c. pose proof (Nat.div_mod_eq (n + tp_size - 1) tp_size) as E.
    pose proof (Nat.mod_upper_bound (n + tp_size - 1) tp_size) as U. nia. }
  set (q := (n + c - 1) / c).
  assert (Hq : c * (q - 1) < n /\ n <= c * q /\ 1 <= q).
  { unfold q. pose proof (Nat.div_mod_eq (n + c - 1) c) as E.
    pose proof (Nat.mod_upper_bound (n + c - 1) c) as U. nia. }
  assert (Hchunk : chunk x tp_size (split_axis x dim)
           = Ok (map (fun i => narrow x (split_axis x dim) (i * c)
                                 (if i <? q - 1 then c else c - (c * q - n)))
                     (seq 0 q))).
  { unfold chunk.
    destruct (Nat.eqb_spec (ndim x) 0); [lia|].
    destruct (Nat.eqb_spec tp_size 0); [lia|].
    destruct (Nat.leb_spec (ndim x) (split_axis x dim)); [lia|].
    fold n. fold c.
    destruct (Nat.eqb_spec c 0); [lia|].
    fold q. now rewrite Nat.max_l by lia. }
  assert (Hsplit : split x tp_size idx dim
                   = (cs <- chunk x tp_size (split_axis x dim) ;; getitem cs idx)).
  { unfold split, split_axis.
    destruct (Nat.eqb_spec tp_size 1); [lia|].
    now destruct (length (shape x) =? 1). }
  rewrite Hsplit, Hchunk. cbn [bind]. split; intros Hi.
  - assert (Hidx : idx < q).
    { destruct (Nat.le_gt_cases q idx) as [Hle|]; [exfalso|assumption].
      assert (q * c <= idx * c) by (apply Nat.mul_le_mono_r; lia). lia. }
    rewrite (getitem_map_seq
               (fun i => narrow x (split_axis x dim) (i * c)
                           (if i <? q - 1 then c else c - (c * q - n)))) by assumption.
    do 2 f_equal.
    destruct (Nat.ltb_spec idx (q - 1)) as [Hlt|Hge].
    + assert ((idx + 1) * c <= (q - 1) * c) by (apply Nat.mul_le_mono_r; lia). lia.
    + assert (E : idx = q - 1) by lia. rewrite E.
      replace ((q - 1) * c) with (c * (q - 1)) by lia.
      assert (c * q = c * (q - 1) + c) by nia. lia.
  - apply getitem_map_seq_out.
    destruct (Nat.le_gt_cases q idx) as [|Hlt]; [assumption|exfalso].
    assert (idx * c <= (q - 1) * c) by (apply Nat.mul_le_mono_r; lia). lia.
Qed.

End Uneven.

(** C6, counterexample: five elements over two ranks.  Nothing is
    raised; the ranks receive three and two elements. *)
Lemma split_uneven_returns :
  5 mod 2 <> 0
  /\ split (mkTensor [5] [0; 1; 2; 3; 4]) 2 0 0 = Ok (mkTensor [3] [0; 1; 2])
  /\ split (mkTensor [5] [0; 1; 2; 3; 4]) 2 1 0 = Ok (mkTensor [2] [3; 4]).
Proof.
  split; [discriminate|]. split; reflexivity.
Qed.

Lemma split_uneven_chunks_witness :
  split (mkTensor [5] [0; 1; 2; 3; 4]) 2 1 0 = Ok (mkTensor [2] [3; 4])
  /\ split (mkTensor [5] [0; 1; 2; 3; 4]) 4 3 0 = Err IndexError.
Proof.
  split.
  - apply (proj1 (@split_uneven_chunks nat (mkTensor [5] [0; 1; 2; 3; 4]) 2 1 0
                    ltac:(lia) ltac:(vm_compute; lia)
                    ltac:(vm_compute; discriminate))).
    vm_compute. lia.
  - apply (proj2 (@split_uneven_chunks nat (mkTensor [5] [0; 1; 2; 3; 4]) 4 3 0
                    ltac:(lia) ltac:(vm_compute; lia)
                    ltac:(vm_compute; discriminate))).
    vm_compute. lia.
Defined.

Lemma split_partition_complete_witness :
  exists parts,
    Forall2 (fun r part => split (labelled 4 2) 2 r 1 = Ok part) (seq 0 2) parts
    /\ cat parts 1 = Ok (labelled 4 2).
Proof.
  apply (@split_partition_complete nat (labelled 4 2) 2 1).
  - reflexivity.
  - lia.
  - vm_compute. lia.
  - reflexivity.
Defined.

(** ** Reshaping and slicing *)

Section Ops.

Context {A : Type}.

Implicit Types (t x : tensor A) (s : list nat).

Lemma known_size_dims s : map known_size (map Dim s) = s.
Proof.
  rewrite map_map. apply map_id.
Qed.

Lemma no_infer_dims s :
  count_occ Bool.bool_dec (map is_infer (map Dim s)) true = 0.
Proof.
  induction s as [|a s IH]; [reflexivity|]. simpl. exact IH.
Qed.

Lemma reshape_exact t s :
  length (data t) = numel s ->
  reshape t (map Dim s) = Ok (mkTensor s (data t)).
Proof.
  intros Hn. unfold reshape, infer_size.
  rewrite known_size_dims, no_infer_dims, Hn, Nat.eqb_refl.
  reflexivity.
Qed.

Lemma reshape_infer t s1 s2 k :
  0 < numel s1 * numel s2 ->
  length (data t) = numel s1 * (k * numel s2) ->
  reshape t (map Dim s1 ++ Infer :: map Dim s2)
  = Ok (mkTensor (s1 ++ k :: s2) (data t)).
Proof.
  intros Hpos Hn. unfold reshape, infer_size.
  rewrite !map_app. cbn [map known_size is_infer].
  rewrite !known_size_dims, count_occ_app, no_infer_dims.
  cbn [count_occ]. destruct (bool_dec true true) as [_|Hf]; [|now elim Hf].
  rewrite no_infer_dims. cbn [Nat.add Nat.ltb Nat.leb Nat.eqb andb].
  rewrite numel_app. cbn [numel fold_right]. fold (numel s2).
  remember (numel s1 * (1 * numel s2)) as m eqn:Em.
  assert (Hn' : length (data t) = k * m) by (rewrite Hn, Em; ring).
  destruct m as [|m']; [lia|].
  rewrite Hn', Nat.Div0.mod_mul. cbn [Nat.eqb andb]. rewrite orb_true_r.
  cbn [bind]. do 2 f_equal.
  rewrite !map_map, Nat.div_mul by lia.
  now rewrite !map_id.
Qed.

Lemma slice_ok t dim start stop :
  dim < ndim t -> start <= stop -> stop <= nth dim (shape t) 0 ->
  slice t dim start stop = Ok (narrow t dim start (stop - start)).
Proof.
  intros Hd Hs He. unfold slice.
  destruct (Nat.leb_spec (ndim t) dim); [lia|].
  now rewrite !Nat.min_l by lia.
Qed.

Lemma select_ok t dim i :
  dim < ndim t -> i < nth dim (shape t) 0 ->
  select t dim i
  = Ok (mkTensor (firstn dim (shape t) ++ skipn (S dim) (shape t))
                 (data (narrow t dim i 1))).
Proof.
  intros Hd Hi. unfold select.
  destruct (Nat.leb_spec (ndim t) dim); [lia|].
  destruct (Nat.leb_spec (nth dim (shape t) 0) i); [lia|reflexivity].
Qed.

Lemma select_neg_ok t dim k :
  dim < ndim t -> 1 <= k -> k <= nth dim (shape t) 0 ->
  select_neg t dim k
  = Ok (mkTensor (firstn dim (shape t) ++ skipn (S dim) (shape t))
                 (data (narrow t dim (nth dim (shape t) 0 - k) 1))).
Proof.
  intros Hd Hk Hn. unfold select_neg.
  destruct (Nat.leb_spec (ndim t) dim); [lia|].
  destruct (Nat.leb_spec k (nth dim (shape t) 0)); [|lia].
  apply select_ok; lia.
Qed.

(** The elements kept by [narrow], as offsets into the buffer. *)
Lemma narrow_data t dim start len :
  start + len <= nth dim (shape t) 0 ->
  data (narrow t dim start len)
  = concat (map (fun o =>
                   firstn (len * numel (skipn (S dim) (shape t)))
                     (skipn (o * (nth dim (shape t) 0
                                  * numel (skipn (S dim) (shape t)))
                             + start * numel (skipn (S dim) (shape t)))
                        (data t)))
                (seq 0 (numel (firstn dim (shape t))))).
Proof.
  intros Hle. unfold narrow; cbn [data].
  rewrite blocks_as_map, map_map. f_equal. apply map_ext; intros o.
  rewrite firstn_skipn_firstn by nia.
  rewrite skipn_skipn. do 2 f_equal. lia.
Qed.

Lemma firstn_add (a b : nat) (l : list A) :
  firstn (a + b) l = firstn a l ++ firstn b (skipn a l).
Proof.
  revert l; induction a as [|a IH]; intros l; [reflexivity|].
  destruct l as [|y l]; simpl.
  - now rewrite firstn_nil.
  - now rewrite IH.
Qed.

Lemma blocks_nth count size (l : list A) i :
  i < count -> nth i (blocks count size l) [] = firstn size (skipn (i * size) l).
Proof.
  intros Hi. rewrite blocks_as_map.
  rewrite (nth_indep _ [] (firstn size (skipn (0 * size) l)))
    by (rewrite length_map, length_seq; assumption).
  rewrite (map_nth (fun i => firstn size (skipn (i * size) l))).
  now rewrite seq_nth.
Qed.

(** Consecutive slices [a .. a + len - 1] are one contiguous range of
    the buffer. *)
Lemma gather_range count size (l : list A) a len :
  a + len <= count ->
  concat (gather (blocks count size l) (seq a len))
  = firstn (len * size) (skipn (a * size) l).
Proof.
  revert a; induction len as [|len IH]; intros a Hle; [reflexivity|].
  cbn [seq gather map concat]. fold (gather (blocks count size l) (seq (S a) len)).
  rewrite IH, blocks_nth by lia.
  cbn [Nat.mul]. now rewrite firstn_add, skipn_skipn.
Qed.

End Ops.

(** ** The head-group reassembler *)

Lemma seq_blocks (n G : nat) :
  seq 0 (n * G) = flat_map (fun g => seq (g * G) G) (seq 0 n).
Proof.
  induction n as [|n IH]; [reflexivity|].
  rewrite seq_S, flat_map_app. cbn [flat_map]. rewrite app_nil_r, <- IH.
  replace (S n * G) with (n * G + G) by lia.
  now rewrite seq_app.
Qed.

Lemma flat_map_app_perm {B C : Type} (f g : B -> list C) (l : list B) :
  Permutation (flat_map (fun x => f x ++ g x) l) (flat_map f l ++ flat_map g l).
Proof.
  induction l as [|x l IH]; [constructor|].
  cbn [flat_map]. rewrite IH, <- !app_assoc.
  apply Permutation_app_head.
  rewrite !app_assoc. apply Permutation_app_tail, Permutation_app_comm.
Qed.

Lemma grouped_order_perm (num_kv nq hd : nat) :
  Permutation (grouped_order num_kv nq hd) (seq 0 (num_kv * ((nq + 2) * hd))).
Proof.
  unfold grouped_order. rewrite seq_blocks.
  set (G := (nq + 2) * hd).
  assert (E : flat_map (fun g => seq (g * G) G) (seq 0 num_kv)
              = flat_map (fun g => seq (g * G) (nq * hd)
                                   ++ (seq (g * G + nq * hd) hd
                                       ++ seq (g * G + (nq + 1) * hd) hd))
                  (seq 0 num_kv)).
  { apply flat_map_ext. intros g.
    replace G with (nq * hd + (hd + hd)) at 2 by (unfold G; lia).
    rewrite !seq_app. do 3 f_equal. lia. }
  rewrite E. symmetry.
  etransitivity; [apply flat_map_app_perm|].
  apply Permutation_app_head, flat_map_app_perm.
Qed.

Lemma grouped_order_length (num_kv nq hd : nat) :
  length (grouped_order num_kv nq hd) = num_kv * ((nq + 2) * hd).
Proof.
  rewrite (Permutation_length (grouped_order_perm num_kv nq hd)).
  apply length_seq.
Qed.

Lemma grouped_order_bound (num_kv nq hd i : nat) :
  In i (grouped_order num_kv nq hd) -> i < num_kv * ((nq + 2) * hd).
Proof.
  intros Hi. apply (Permutation_in _ (grouped_order_perm num_kv nq hd)) in Hi.
  apply in_seq in Hi. lia.
Qed.

Section Regroup.

Context {A : Type}.

Lemma gather_app (rs : list (list A)) (o1 o2 : list nat) :
  gather rs (o1 ++ o2) = gather rs o1 ++ gather rs o2.
Proof.
  apply map_app.
Qed.

Lemma gather_groups (D : list A) (num_kv R m len : nat) (start : nat -> nat) :
  (forall g, g < num_kv -> start g + len <= R) ->
  concat (gather (blocks R m D)
            (flat_map (fun g => seq (start g) len) (seq 0 num_kv)))
  = concat (map (fun g => firstn (len * m) (skipn (start g * m) D))
                (seq 0 num_kv)).
Proof.
  intros Hle. unfold gather. rewrite concat_map_flat_map.
  f_equal. apply map_ext_in; intros g Hg. apply in_seq in Hg.
  apply gather_range. apply Hle. lia.
Qed.

Lemma gather_rows_length (D : list A) (R m : nat) (order : list nat) :
  length D = R * m -> (forall i, In i order -> i < R) ->
  Forall (fun r => length r = m) (gather (blocks R m D) order).
Proof.
  intros HD Hb. apply Forall_forall. intros r Hr.
  apply in_map_iff in Hr as [i [<- Hi]].
  rewrite blocks_nth by auto. apply piece_length.
  specialize (Hb i Hi). nia.
Qed.

End Regroup.

Section Shuffle.

Context {A : Type}.

Implicit Types (w : tensor A) (D : list A).

Lemma reshape_dims4 w a b c d :
  length (data w) = numel [a; b; c; d] ->
  reshape w [Dim a; Dim b; Dim c; Dim d] = Ok (mkTensor [a; b; c; d] (data w)).
Proof.
  exact (@reshape_exact A w [a; b; c; d]).
Qed.

Lemma reshape_infer_front w (s : list nat) k :
  0 < numel s -> length (data w) = k * numel s ->
  reshape w (Infer :: map Dim s) = Ok (mkTensor (k :: s) (data w)).
Proof.
  intros Hpos Hn. apply (@reshape_infer A w [] s k); cbn [numel fold_right]; lia.
Qed.

Lemma length_concat_const {B : Type} (f : B -> list A) (l : list B) (L : nat) :
  (forall b, In b l -> length (f b) = L) ->
  length (concat (map f l)) = length l * L.
Proof.
  induction l as [|b l IH]; intros Hf; [reflexivity|].
  cbn [map concat length].
  rewrite length_app, (Hf b (or_introl eq_refl)), IH; [reflexivity|].
  intros b' Hb'. apply Hf. now right.
Qed.

Lemma narrow_length w dim start len :
  wf w -> dim < ndim w -> start + len <= nth dim (shape w) 0 ->
  length (data (narrow w dim start len))
  = numel (firstn dim (shape w)) * (len * numel (skipn (S dim) (shape w))).
Proof.
  intros Hwf Hd Hle. rewrite narrow_data by assumption.
  rewrite (length_concat_const _ _ (L := len * numel (skipn (S dim) (shape w)))).
  - now rewrite length_seq.
  - intros o Ho. apply in_seq in Ho. apply piece_length.
    rewrite Hwf, (numel_split (shape w) Hd).
    set (inner := numel (skipn (S dim) (shape w))).
    set (n := nth dim (shape w) 0) in *.
    assert ((o + 1) * (n * inner) <= numel (firstn dim (shape w)) * (n * inner))
      by (apply Nat.mul_le_mono_r; lia).
    assert ((start + len) * inner <= n * inner)
      by (apply Nat.mul_le_mono_r; lia).
    lia.
Qed.

Lemma legacy_empty_cons n (s : list nat) :
  s <> [] \/ 0 < n -> shape_eqb (n :: s) [0] = false.
Proof.
  intros [Hs|Hn]; cbn [shape_eqb].
  - destruct s; [congruence|]. apply andb_false_r.
  - destruct (Nat.eqb_spec n 0); [lia|reflexivity].
Qed.

(** Concatenation of three tensors along the first axis. *)
Lemma cat_three_rows (t1 t2 t3 : tensor A) n1 n2 n3 (s : list nat) :
  shape t1 = n1 :: s -> shape t2 = n2 :: s -> shape t3 = n3 :: s ->
  wf t1 -> wf t2 -> wf t3 ->
  s <> [] \/ (0 < n1 /\ 0 < n2 /\ 0 < n3) ->
  cat [t1; t2; t3] 0
  = Ok (mkTensor ((n1 + (n2 + n3)) :: s) (data t1 ++ data t2 ++ data t3)).
Proof.
  intros E1 E2 E3 W1 W2 W3 Hleg. unfold wf in *.
  rewrite E1 in W1. rewrite E2 in W2. rewrite E3 in W3.
  cbn [numel fold_right] in W1, W2, W3. fold (numel s) in W1, W2, W3.
  rewrite cat_ok.
  - cbn [map]. rewrite E1, E2, E3.
    cbn [firstn skipn app nth]. do 2 f_equal.
    + f_equal. unfold list_sum. cbn [fold_right]. lia.
    + change (numel (@nil nat)) with 1.
      cbn [cat_blocks map concat fst snd].
      rewrite !firstn_all2 by lia. now rewrite !app_nil_r.
  - intros t [<-|[<-|[<-|[]]]]; unfold is_legacy_empty;
      rewrite ?E1, ?E2, ?E3; apply legacy_empty_cons; tauto.
  - unfold ndim. rewrite E1. simpl. lia.
  - intros t [<-|[<-|[]]]; rewrite E1, ?E2, ?E3; unfold same_except;
      cbn [firstn skipn length shape_eqb]; now rewrite shape_eqb_refl, Nat.eqb_refl.
Qed.

Lemma shuffle_normal_form w cfg num_kv H D :
  kv_heads cfg = Some num_kv ->
  0 < num_kv -> 0 < num_attention_heads cfg -> 0 < head_dim cfg -> 0 < H ->
  let lead := (num_q_per_kv cfg num_kv + 2) * num_kv * head_dim cfg in
  length D = lead * H ->
  w = mkTensor [lead; H] D \/ (H = 1 /\ w = mkTensor [lead] D) ->
  shuffle_qkv_weights w cfg
  = let out :=
      mkTensor (filter (fun n => negb (n =? 1)) [lead; H])
        (concat (gather (blocks lead H D)
                   (grouped_order num_kv (num_q_per_kv cfg num_kv) (head_dim cfg))))
    in
    if shape_eqb (shape w) (shape out) then Ok out else Err AssertionError.
Proof.
  intros Hkv Hnkv Hnh Hhd HH lead HD Hw.
  unfold shuffle_qkv_weights.
  assert (Ekv : match num_kv_heads cfg with
                | Some n => Ok n
                | None => required (num_key_value_heads cfg)
                end = Ok num_kv).
  { unfold kv_heads in Hkv. destruct (num_kv_heads cfg); [congruence|].
    now rewrite Hkv. }
  rewrite Ekv. cbn [bind]. unfold floordiv.
  destruct (Nat.eqb_spec num_kv 0); [lia|].
  destruct (Nat.eqb_spec (num_attention_heads cfg) 0); [lia|].
  cbn [bind].
  fold (num_q_per_kv cfg num_kv). fold (head_dim cfg).
  set (nq := num_q_per_kv cfg num_kv) in *.
  set (hd := head_dim cfg) in *.
  assert (HD4 : length D = numel [num_kv; nq + 2; hd; H]).
  { rewrite HD. unfold lead. cbn [numel fold_right]. ring. }
  assert (Hstart : forall (k : tensor A -> result (tensor A)),
            (w0 <- (if ndim w <? 2 then unsqueeze w 1 else Ok w) ;;
             last <- size_at_neg w0 1 ;;
             w1 <- reshape w0 [Dim num_kv; Dim (nq + 2); Dim hd; Dim last] ;;
             k w1)
            = k (mkTensor [num_kv; nq + 2; hd; H] D)).
  { intros k.
    destruct Hw as [->|[-> ->]]; cbn [ndim shape length Nat.ltb Nat.leb bind unsqueeze
      firstn skipn app size_at_neg getitem_neg getitem nth_error Nat.sub data];
      now rewrite reshape_dims4. }
  rewrite Hstart. clear Hstart.
  set (w4 := mkTensor [num_kv; nq + 2; hd; H] D).
  assert (Eq : slice_to_neg w4 1 2 = Ok (narrow w4 1 0 nq)).
  { unfold slice_to_neg. cbn [shape w4 nth].
    rewrite slice_ok; cbn [ndim shape w4 length nth]; try lia.
    do 2 f_equal. lia. }
  assert (Ek : select_neg w4 1 2
               = Ok (mkTensor [num_kv; hd; H] (data (narrow w4 1 nq 1)))).
  { rewrite select_neg_ok; cbn [ndim shape w4 length nth]; try lia.
    cbn [firstn skipn app]. do 4 f_equal. lia. }
  assert (Ev : select_neg w4 1 1
               = Ok (mkTensor [num_kv; hd; H] (data (narrow w4 1 (nq + 1) 1)))).
  { rewrite select_neg_ok; cbn [ndim shape w4 length nth]; try lia.
    cbn [firstn skipn app]. do 4 f_equal. lia. }
  rewrite Eq, Ek, Ev. cbn [bind]. clear Eq Ek Ev.
  assert (Hwf4 : wf w4) by exact HD4.
  assert (Lq : length (data (narrow w4 1 0 nq)) = num_kv * nq * numel [hd; H]).
  { rewrite narrow_length; cbn [ndim shape w4 length nth firstn skipn numel fold_right];
      try assumption; lia. }
  assert (Lk : length (data (narrow w4 1 nq 1)) = num_kv * numel [hd; H]).
  { rewrite narrow_length; cbn [ndim shape w4 length nth firstn skipn numel fold_right];
      try assumption; lia. }
  assert (Lv : length (data (narrow w4 1 (nq + 1) 1)) = num_kv * numel [hd; H]).
  { rewrite narrow_length; cbn [ndim shape w4 length nth firstn skipn numel fold_right];
      try assumption; lia. }
  assert (Hpos : 0 < numel [hd; H]) by (cbn [numel fold_right]; nia).
  assert (Edata : data (narrow w4 1 0 nq) ++ data (narrow w4 1 nq 1)
                  ++ data (narrow w4 1 (nq + 1) 1)
                  = concat (gather (blocks lead H D) (grouped_order num_kv nq hd))).
  { unfold grouped_order. rewrite !gather_app, !concat_app.
    assert (Hgroup : forall g off len, g < num_kv -> off + len <= (nq + 2) * hd ->
              g * ((nq + 2) * hd) + off + len <= lead).
    { intros g off len Hg Hol. unfold lead.
      assert ((g + 1) * ((nq + 2) * hd) <= num_kv * ((nq + 2) * hd))
        by (apply Nat.mul_le_mono_r; lia).
      lia. }
    rewrite (@gather_groups A D num_kv lead H (nq * hd)
               (fun g => g * ((nq + 2) * hd)))
      by (intros g Hg; specialize (Hgroup g 0 (nq * hd) Hg); lia).
    rewrite (@gather_groups A D num_kv lead H hd
               (fun g => g * ((nq + 2) * hd) + nq * hd))
      by (intros g Hg; specialize (Hgroup g (nq * hd) hd Hg); lia).
    rewrite (@gather_groups A D num_kv lead H hd
               (fun g => g * ((nq + 2) * hd) + (nq + 1) * hd))
      by (intros g Hg; specialize (Hgroup g ((nq + 1) * hd) hd Hg); lia).
    rewrite !narrow_data by (cbn [shape w4 nth]; lia).
    cbn [shape w4 nth firstn skipn data numel fold_right].
    rewrite !Nat.mul_1_r.
    f_equal; [|f_equal]; f_equal; apply map_ext; intros g;
      (f_equal; [ring | f_equal; ring]). }
  set (qd := data (narrow w4 1 0 nq)) in *.
  set (kd := data (narrow w4 1 nq 1)) in *.
  set (vd := data (narrow w4 1 (nq + 1) 1)) in *.
  change (size_at (narrow w4 1 0 nq) 2) with (Ok (T := nat) hd).
  change (size_at (narrow w4 1 0 nq) 3) with (Ok (T := nat) H).
  cbn [bind].
  assert (Eresh : reshape (narrow w4 1 0 nq) [Infer; Dim hd; Dim H]
                  = Ok (mkTensor [num_kv * nq; hd; H] qd))
    by (apply (@reshape_infer_front (narrow w4 1 0 nq) [hd; H]); assumption).
  rewrite Eresh. cbn [bind].
  rewrite (@cat_three_rows (mkTensor (num_kv * nq :: [hd; H]) qd)
             (mkTensor [num_kv; hd; H] kd) (mkTensor [num_kv; hd; H] vd)
             (num_kv * nq) num_kv num_kv [hd; H]);
    try reflexivity; try assumption; [|left; discriminate].
  cbn [bind size_at shape data getitem nth_error].
  assert (Eflat : reshape (mkTensor [num_kv * nq + (num_kv + num_kv); hd; H]
                             (qd ++ kd ++ vd)) [Infer; Dim H]
                  = Ok (mkTensor [lead; H] (qd ++ kd ++ vd))).
  { apply (@reshape_infer_front (mkTensor _ (qd ++ kd ++ vd)) [H] lead);
      cbn [data numel fold_right]; [lia|].
    rewrite !length_app, Lq, Lk, Lv. unfold lead. cbn [numel fold_right]. ring. }
  rewrite Eflat. cbn [bind squeeze shape data]. now rewrite Edata.
Qed.

End Shuffle.

Section ShuffleTheorems.

Context {A : Type}.

Implicit Types (w : tensor A).

Lemma gather_all (rs : list (list A)) : gather rs (seq 0 (length rs)) = rs.
Proof.
  induction rs as [|r rs IH]; [reflexivity|].
  cbn [length seq gather map nth]. f_equal.
  rewrite <- seq_shift, map_map. exact IH.
Qed.

(** What the reassembler returns on a well-formed fused tensor. *)
Lemma shuffle_result w cfg num_kv :
  kv_heads cfg = Some num_kv ->
  0 < num_kv -> 0 < num_attention_heads cfg -> 0 < head_dim cfg ->
  wf w ->
  let lead := (num_q_per_kv cfg num_kv + 2) * num_kv * head_dim cfg in
  shape w = [lead] \/ (exists H, 1 < H /\ shape w = [lead; H]) ->
  exists out,
    shuffle_qkv_weights w cfg = Ok out
    /\ shape out = shape w
    /\ rows out
       = gather (rows w)
           (grouped_order num_kv (num_q_per_kv cfg num_kv) (head_dim cfg)).
Proof.
  intros Hkv Hnkv Hnh Hhd Hwf lead Hshape.
  set (nq := num_q_per_kv cfg num_kv) in *.
  set (hd := head_dim cfg) in *.
  assert (Hlead : 2 <= lead) by (unfold lead; nia).
  assert (Hlen : length (grouped_order num_kv nq hd) = lead).
  { rewrite grouped_order_length. unfold lead. ring. }
  assert (Hbound : forall i, In i (grouped_order num_kv nq hd) -> i < lead).
  { intros i Hi. apply grouped_order_bound in Hi. unfold lead.
    replace ((nq + 2) * num_kv * hd) with (num_kv * ((nq + 2) * hd)) by ring.
    exact Hi. }
  destruct w as [s D]. unfold wf, rows in *. cbn [shape data] in *.
  destruct Hshape as [->|[H [HH ->]]].
  - cbn [numel fold_right] in Hwf.
    rewrite (@shuffle_normal_form A _ cfg num_kv 1 D) by (auto; lia).
    fold nq hd lead. cbn [filter shape Nat.eqb negb].
    destruct (Nat.eqb_spec lead 1); [lia|]. cbn [negb].
    rewrite shape_eqb_refl. eexists. split; [reflexivity|]. split; [reflexivity|].
    cbn [shape data nth tl]. change (numel []) with 1.
    rewrite <- Hlen at 1. rewrite <- (length_map (fun i => nth i (blocks lead 1 D) [])).
    apply blocks_of_concat. apply gather_rows_length; [lia|assumption].
  - cbn [numel fold_right] in Hwf.
    rewrite (@shuffle_normal_form A _ cfg num_kv H D) by (auto; lia).
    fold nq hd lead. cbn [filter shape].
    destruct (Nat.eqb_spec lead 1); [lia|].
    destruct (Nat.eqb_spec H 1); [lia|]. cbn [negb].
    rewrite shape_eqb_refl. eexists. split; [reflexivity|]. split; [reflexivity|].
    cbn [shape data nth tl numel fold_right]. rewrite Nat.mul_1_r.
    rewrite <- Hlen at 1. rewrite <- (length_map (fun i => nth i (blocks lead H D) [])).
    apply blocks_of_concat. apply gather_rows_length; [lia|assumption].
Qed.

End ShuffleTheorems.

(** C7. Shape preservation: on a fused weight (two axes, the trailing
    one larger than one) or bias (one axis) whose leading size is
    [(num_q_per_kv + 2) * num_kv_heads * head_dim], for positive head
    counts and a positive [head_dim], the reassembler returns a tensor
    of exactly the shape it was given: the assertion on the shapes does
    not fire. *)
Theorem shuffle_preserves_shape (A : Type) (w : tensor A) cfg num_kv :
  kv_heads cfg = Some num_kv ->
  0 < num_kv -> 0 < num_attention_heads cfg -> 0 < head_dim cfg ->
  wf w ->
  (shape w = [(num_q_per_kv cfg num_kv + 2) * num_kv * head_dim cfg]
   \/ exists H, 1 < H
        /\ shape w = [(num_q_per_kv cfg num_kv + 2) * num_kv * head_dim cfg; H]) ->
  exists out, shuffle_qkv_weights w cfg = Ok out /\ shape out = shape w.
Proof.
  intros Hkv Hnkv Hnh Hhd Hwf Hshape.
  destruct (@shuffle_result A w cfg num_kv Hkv Hnkv Hnh Hhd Hwf Hshape)
    as [out [E [S _]]].
  now exists out.
Qed.

Lemma shuffle_preserves_shape_witness :
  exists out,
    shuffle_qkv_weights (mkTensor [16] (seq 0 16)) scenario_config = Ok out
    /\ shape out = [16].
Proof.
  apply (@shuffle_preserves_shape nat (mkTensor [16] (seq 0 16)) scenario_config 2).
  - reflexivity.
  - lia.
  - vm_compute. lia.
  - vm_compute. lia.
  - reflexivity.
  - left. reflexivity.
Defined.

(** C1, as the code has it.  On a valid fused tensor the reassembler
    returns the rows of its input, permuted: output row [j] is the input
    row [grouped_order j], that is the query rows of every group in
    group order, then the key rows of every group, then the value rows
    of every group.  In the first end-to-end scenario (four query heads,
    two key/value heads, hidden size eight, two rows per head) the fused
    weight has sixteen rows; labelled 0..15 they come out as
    0 1 2 3 (queries of group 0), 8 9 10 11 (queries of group 1),
    4 5 (key of group 0), 12 13 (key of group 1), 6 7 (value of group 0),
    14 15 (value of group 1). *)
Theorem shuffle_groups_by_role :
  (forall (A : Type) (w : tensor A) cfg num_kv,
      kv_heads cfg = Some num_kv ->
      0 < num_kv -> 0 < num_attention_heads cfg -> 0 < head_dim cfg ->
      wf w ->
      (shape w = [(num_q_per_kv cfg num_kv + 2) * num_kv * head_dim cfg]
       \/ exists H, 1 < H
            /\ shape w
               = [(num_q_per_kv cfg num_kv + 2) * num_kv * head_dim cfg; H]) ->
      exists out,
        shuffle_qkv_weights w cfg = Ok out
        /\ shape out = shape w
        /\ rows out
           = gather (rows w)
               (grouped_order num_kv (num_q_per_kv cfg num_kv) (head_dim cfg))
        /\ Permutation (rows out) (rows w))
  /\ (exists out,
        shuffle_qkv_weights (labelled 16 8) scenario_config = Ok out
        /\ rows out
           = map (fun i => repeat i 8)
               [0; 1; 2; 3; 8; 9; 10; 11; 4; 5; 12; 13; 6; 7; 14; 15]).
Proof.
  split.
  - intros A w cfg num_kv Hkv Hnkv Hnh Hhd Hwf Hshape.
    destruct (@shuffle_result A w cfg num_kv Hkv Hnkv Hnh Hhd Hwf Hshape)
      as [out [E [S R]]].
    exists out. repeat split; try assumption.
    rewrite R.
    assert (Hrows : length (rows w)
                    = num_kv * ((num_q_per_kv cfg num_kv + 2) * head_dim cfg)).
    { unfold rows. rewrite blocks_length.
      destruct Hshape as [->|[H [_ ->]]]; cbn [nth]; ring. }
    rewrite <- (gather_all (rows w)) at 2. rewrite Hrows.
    apply Permutation_map, grouped_order_perm.
  - eexists. split; vm_compute; reflexivity.
Qed.

Lemma shuffle_groups_by_role_witness :
  exists out,
    shuffle_qkv_weights (labelled 16 2) scenario_config = Ok out
    /\ shape out = [16; 2]
    /\ rows out = gather (rows (labelled 16 2)) (grouped_order 2 2 2)
    /\ Permutation (rows out) (rows (labelled 16 2)).
Proof.
  apply (proj1 shuffle_groups_by_role nat (labelled 16 2) scenario_config 2).
  - reflexivity.
  - lia.
  - vm_compute. lia.
  - vm_compute. lia.
  - reflexivity.
  - right. exists 2. split; [lia|reflexivity].
Defined.

(** C1, counterexample: with the configuration of the scenario a weight
    of ten rows labelled 0..9 (or of twelve) is not a fused tensor: the
    first reshape needs sixteen rows and raises. *)
Lemma shuffle_ten_rows_rejected :
  shuffle_qkv_weights (labelled 10 8) scenario_config = Err RuntimeError
  /\ shuffle_qkv_weights (labelled 12 8) scenario_config = Err RuntimeError.
Proof.
  split; vm_compute; reflexivity.
Qed.

(** ** The QKV tensor-parallel splitter *)

Section QkvSplit.

Context {A : Type}.

Implicit Types (t x w b : tensor A).

Lemma narrow_full x dim :
  wf x -> dim < ndim x -> narrow x dim 0 (nth dim (shape x) 0) = x.
Proof.
  intros Hwf Hd. destruct x as [s D]. unfold narrow, wf, ndim in *.
  cbn [shape data] in *. f_equal.
  - now apply shape_split.
  - rewrite (map_ext_in _ (fun blk : list A => blk)).
    + rewrite map_id. apply blocks_concat.
      rewrite Hwf. now apply numel_split.
    + intros blk Hb. cbn [Nat.mul skipn]. apply firstn_all2.
      rewrite blocks_as_map in Hb. apply in_map_iff in Hb as [o [<- _]].
      apply firstn_le_length.
Qed.

Lemma narrow_wf x dim start len :
  wf x -> dim < ndim x -> start + len <= nth dim (shape x) 0 ->
  wf (narrow x dim start len).
Proof.
  intros Hwf Hd Hle. unfold wf. rewrite narrow_length by assumption.
  unfold narrow; cbn [shape]. rewrite numel_app. reflexivity.
Qed.

Lemma split_even_any x tp rank dim c :
  wf x -> 0 < tp -> rank < tp -> split_axis x dim < ndim x ->
  nth (split_axis x dim) (shape x) 0 = tp * c ->
  split x tp rank dim = Ok (narrow x (split_axis x dim) (rank * c) c).
Proof.
  intros Hwf Htp Hr Hd Hn.
  destruct (Nat.eq_dec tp 1) as [->|Hne].
  - assert (rank = 0) by lia. subst rank.
    replace c with (nth (split_axis x dim) (shape x) 0) by lia.
    cbn [Nat.mul]. now rewrite narrow_full.
  - apply split_even; (assumption || lia).
Qed.


Lemma split_qkv_weight_paths w num_heads num_kv hidden tp rank :
  num_heads = num_kv -> 0 < num_kv -> 0 < hidden ->
  0 < tp -> hidden mod tp = 0 -> rank < tp ->
  wf w -> shape w = [3 * hidden; hidden] ->
  exists shard,
    split_qkv_weight_gqa w num_heads num_kv hidden tp rank = Ok shard
    /\ split_qkv_tp w num_heads hidden tp rank = Ok shard.
Proof.
  intros Hmha Hnkv Hh Htp Hmod Hr Hwf Hs.
  destruct w as [s D]. unfold wf in Hwf. cbn [shape data] in *. subst s.
  cbn [numel fold_right] in Hwf.
  assert (Hc : hidden = tp * (hidden / tp)) by now apply Nat.Div0.div_exact.
  set (c := hidden / tp) in *.
  assert (Hrc : rank * c + c <= hidden).
  { assert ((rank + 1) * c <= tp * c) by (apply Nat.mul_le_mono_r; lia). lia. }
  set (w3 := mkTensor [3; hidden; hidden] D).
  assert (Hwf3 : wf w3) by (unfold wf, w3; cbn [shape data numel fold_right]; lia).
  (* the pieces of the grouped-query path *)
  set (part := fun i => mkTensor [hidden; hidden] (data (narrow w3 0 i 1))).
  assert (Hpart : forall i, i < 3 -> wf (part i)).
  { intros i Hi. unfold wf, part. cbn [shape data].
    rewrite narrow_length; cbn [ndim shape w3 length nth firstn skipn];
      try assumption; try lia.
    cbn [numel fold_right]. lia. }
  assert (Hsplit : forall i, i < 3 ->
            split (part i) tp rank 0 = Ok (narrow (part i) 0 (rank * c) c)).
  { intros i Hi.
    apply (@split_even_any (part i) tp rank 0 c);
      [apply Hpart; lia | assumption | assumption | cbn; lia | exact Hc]. }
  assert (Hreshape : forall i,
            reshape (narrow w3 0 i 1) [Infer; Dim hidden] = Ok (part i) \/ 3 <= i).
  { intros i. destruct (Nat.lt_ge_cases i 3) as [Hi|Hi]; [left|now right].
    apply (@reshape_infer_front A (narrow w3 0 i 1) [hidden] hidden);
      [cbn [numel fold_right]; lia|].
    rewrite narrow_length; cbn [ndim shape w3 length nth firstn skipn];
      try assumption; try lia.
    cbn [numel fold_right]. lia. }
  eexists. split.
  - unfold split_qkv_weight_gqa, floordiv.
    destruct (Nat.eqb_spec num_kv 0); [lia|]. cbn [bind].
    subst num_heads. rewrite Nat.div_same by lia.
    assert (E3 : reshape (mkTensor [3 * hidden; hidden] D)
                   [Dim (1 + 2); Infer; Dim hidden] = Ok w3).
    { apply (@reshape_infer A (mkTensor [3 * hidden; hidden] D) [3] [hidden] hidden);
        cbn [data numel fold_right]; lia. }
    rewrite E3. cbn [bind].
    rewrite !slice_ok by (cbn [ndim shape w3 length nth]; lia).
    cbn [bind].
    replace (1 - 0) with 1 by lia.
    replace (1 + 1 - 1) with 1 by lia.
    replace (1 + 2 - (1 + 1)) with 1 by lia.
    destruct (Hreshape 0) as [E0|]; [|lia].
    destruct (Hreshape 1) as [E1|]; [|lia].
    destruct (Hreshape (1 + 1)) as [E2|]; [|lia].
    rewrite E0, E1, E2. cbn [bind].
    rewrite !Hsplit by lia. cbn [bind].
    apply (@cat_three_rows A _ _ _ c c c [hidden]); try reflexivity.
    1-3: apply narrow_wf;
         [apply Hpart; lia | cbn; lia | cbn [shape part nth]; lia].
    left. discriminate.
  - unfold split_qkv_tp.
    assert (E3 : reshape (mkTensor [3 * hidden; hidden] D)
                   [Dim 3; Dim hidden; Dim hidden] = Ok w3).
    { apply (@reshape_exact A (mkTensor [3 * hidden; hidden] D) [3; hidden; hidden]).
      cbn [data numel fold_right]. lia. }
    rewrite E3. cbn [bind].
    rewrite (@split_even_any w3 tp rank 1 c);
      [|assumption|assumption|assumption|cbn; lia|exact Hc].
    cbn [bind]. unfold floordiv.
    destruct (Nat.eqb_spec tp 0); [lia|]. cbn [bind]. fold c.
    change (split_axis w3 1) with 1.
    assert (Eout : reshape (narrow w3 1 (rank * c) c) [Dim (3 * c); Dim hidden]
                   = Ok (mkTensor [3 * c; hidden] (data (narrow w3 1 (rank * c) c)))).
    { apply (@reshape_exact A (narrow w3 1 (rank * c) c) [3 * c; hidden]).
      rewrite narrow_length; cbn [ndim shape w3 length nth firstn skipn];
        try assumption; try lia.
      cbn [numel fold_right]. lia. }
    rewrite Eout. do 2 f_equal.
    + f_equal. lia.
    + rewrite !narrow_data by (cbn [shape part w3 nth]; lia).
      cbn [shape data part w3 nth firstn skipn numel fold_right].
      rewrite !Nat.mul_1_r. cbn [seq map concat Nat.mul Nat.add].
      rewrite !narrow_data by (cbn [shape part w3 nth]; lia).
      cbn [shape data part w3 nth firstn skipn numel fold_right].
      rewrite !Nat.mul_1_r. cbn [seq map concat Nat.mul Nat.add].
      rewrite !app_nil_r, !Nat.add_0_r.
      assert (Hb : rank * c * hidden + c * hidden <= hidden * hidden).
      { assert ((rank * c + c) * hidden <= hidden * hidden)
          by (apply Nat.mul_le_mono_r; lia). lia. }
      rewrite !firstn_skipn_firstn by exact Hb.
      rewrite !skipn_skipn.
      f_equal; [|f_equal]; f_equal; f_equal; lia.
Qed.

Lemma split_qkv_bias_paths b num_heads num_kv hidden tp rank :
  num_heads = num_kv -> 0 < num_kv -> 0 < hidden ->
  0 < tp -> hidden mod tp = 0 -> rank < tp ->
  wf b -> shape b = [3 * hidden] ->
  exists shard,
    split_qkv_bias_gqa b num_heads num_kv tp rank = Ok shard
    /\ split_qkv_bias_tp b num_heads hidden tp rank = Ok shard.
Proof.
  intros Hmha Hnkv Hh Htp Hmod Hr Hwf Hs.
  destruct b as [s D]. unfold wf in Hwf. cbn [shape data] in *. subst s.
  cbn [numel fold_right] in Hwf.
  assert (Hc : hidden = tp * (hidden / tp)) by now apply Nat.Div0.div_exact.
  set (c := hidden / tp) in *.
  assert (Hcpos : 0 < c) by nia.
  assert (Hrc : rank * c + c <= hidden).
  { assert ((rank + 1) * c <= tp * c) by (apply Nat.mul_le_mono_r; lia). lia. }
  set (b2 := mkTensor [3; hidden] D).
  assert (Hwf2 : wf b2) by (unfold wf, b2; cbn [shape data numel fold_right]; lia).
  set (part := fun i => mkTensor [hidden] (data (narrow b2 0 i 1))).
  assert (Hpart : forall i, i < 3 -> wf (part i)).
  { intros i Hi. unfold wf, part. cbn [shape data].
    rewrite narrow_length; cbn [ndim shape b2 length nth firstn skipn];
      try assumption; try lia.
    cbn [numel fold_right]. lia. }
  assert (Hsplit : forall i, i < 3 ->
            split (part i) tp rank 0 = Ok (narrow (part i) 0 (rank * c) c)).
  { intros i Hi.
    apply (@split_even_any (part i) tp rank 0 c);
      [apply Hpart; lia | assumption | assumption | cbn; lia | exact Hc]. }
  assert (Hreshape : forall i,
            reshape (narrow b2 0 i 1) [Infer] = Ok (part i) \/ 3 <= i).
  { intros i. destruct (Nat.lt_ge_cases i 3) as [Hi|Hi]; [left|now right].
    apply (@reshape_infer_front A (narrow b2 0 i 1) [] hidden);
      [cbn [numel fold_right]; lia|].
    rewrite narrow_length; cbn [ndim shape b2 length nth firstn skipn];
      try assumption; try lia.
    cbn [numel fold_right]. lia. }
  eexists. split.
  - unfold split_qkv_bias_gqa, floordiv.
    destruct (Nat.eqb_spec num_kv 0); [lia|]. cbn [bind].
    subst num_heads. rewrite Nat.div_same by lia.
    assert (E2 : reshape (mkTensor [3 * hidden] D) [Dim (1 + 2); Infer] = Ok b2).
    { apply (@reshape_infer A (mkTensor [3 * hidden] D) [3] [] hidden);
        cbn [data numel fold_right]; lia. }
    rewrite E2. cbn [bind].
    rewrite !slice_ok by (cbn [ndim shape b2 length nth]; lia).
    cbn [bind].
    replace (1 - 0) with 1 by lia.
    replace (1 + 1 - 1) with 1 by lia.
    replace (1 + 2 - (1 + 1)) with 1 by lia.
    destruct (Hreshape 0) as [E0|]; [|lia].
    destruct (Hreshape 1) as [E1|]; [|lia].
    destruct (Hreshape (1 + 1)) as [E2'|]; [|lia].
    rewrite E0, E1, E2'. cbn [bind].
    rewrite !Hsplit by lia. cbn [bind].
    apply (@cat_three_rows A _ _ _ c c c []); try reflexivity.
    1-3: apply narrow_wf;
         [apply Hpart; lia | cbn; lia | cbn [shape part nth]; lia].
    right. lia.
  - unfold split_qkv_bias_tp.
    assert (E2 : reshape (mkTensor [3 * hidden] D) [Dim 3; Dim hidden] = Ok b2).
    { apply (@reshape_exact A (mkTensor [3 * hidden] D) [3; hidden]).
      cbn [data numel fold_right]. lia. }
    rewrite E2. cbn [bind].
    rewrite (@split_even_any b2 tp rank 1 c);
      [|assumption|assumption|assumption|cbn; lia|exact Hc].
    cbn [bind]. unfold floordiv.
    destruct (Nat.eqb_spec tp 0); [lia|]. cbn [bind]. fold c.
    change (split_axis b2 1) with 1.
    assert (Eout : reshape (narrow b2 1 (rank * c) c) [Dim (3 * c)]
                   = Ok (mkTensor [3 * c] (data (narrow b2 1 (rank * c) c)))).
    { apply (@reshape_exact A (narrow b2 1 (rank * c) c) [3 * c]).
      rewrite narrow_length; cbn [ndim shape b2 length nth firstn skipn];
        try assumption; try lia.
      cbn [numel fold_right]. lia. }
    rewrite Eout. do 2 f_equal.
    + f_equal. lia.
    + rewrite !narrow_data by (cbn [shape part b2 nth]; lia).
      cbn [shape data part b2 nth firstn skipn numel fold_right].
      rewrite !Nat.mul_1_r. cbn [seq map concat Nat.mul Nat.add].
      rewrite !narrow_data by (cbn [shape part b2 nth]; lia).
      cbn [shape data part b2 nth firstn skipn numel fold_right].
      rewrite !Nat.mul_1_r. cbn [seq map concat Nat.mul Nat.add].
      rewrite !app_nil_r, !Nat.add_0_r.
      rewrite !firstn_skipn_firstn by lia.
      rewrite !skipn_skipn.
      f_equal; [|f_equal]; f_equal; f_equal; lia.
Qed.

End QkvSplit.

(** C2. Grouped-query equivalence: with as many key/value heads as
    query heads, on a reassembled fused weight of [3 * hidden_size] rows
    and its bias, for every [tp_size] that divides [hidden_size] and
    every rank below it, the grouped-query branch of [split_weights_tp]
    and the multi-head branch ([split_qkv_tp], [split_qkv_bias_tp])
    both succeed and return the same shard, shape and elements alike. *)
Theorem qkv_split_paths_agree (A : Type) (w b : tensor A)
    (num_heads num_kv hidden tp_size rank : nat) :
  num_heads = num_kv -> 0 < num_kv -> 0 < hidden ->
  0 < tp_size -> hidden mod tp_size = 0 -> rank < tp_size ->
  wf w -> shape w = [3 * hidden; hidden] ->
  wf b -> shape b = [3 * hidden] ->
  (exists shard,
      split_qkv_weight_gqa w num_heads num_kv hidden tp_size rank = Ok shard
      /\ split_qkv_tp w num_heads hidden tp_size rank = Ok shard)
  /\ (exists shard,
        split_qkv_bias_gqa b num_heads num_kv tp_size rank = Ok shard
        /\ split_qkv_bias_tp b num_heads hidden tp_size rank = Ok shard).
Proof.
  intros Hmha Hnkv Hh Htp Hmod Hr Hwf Hs Hwfb Hsb. split.
  - now apply split_qkv_weight_paths.
  - now apply split_qkv_bias_paths.
Qed.

Lemma qkv_split_paths_agree_witness :
  (exists shard,
      split_qkv_weight_gqa (labelled 12 4) 2 2 4 2 1 = Ok shard
      /\ split_qkv_tp (labelled 12 4) 2 4 2 1 = Ok shard)
  /\ (exists shard,
        split_qkv_bias_gqa (mkTensor [12] (seq 0 12)) 2 2 2 1 = Ok shard
        /\ split_qkv_bias_tp (mkTensor [12] (seq 0 12)) 2 4 2 1 = Ok shard).
Proof.
  apply (@qkv_split_paths_agree nat (labelled 12 4) (mkTensor [12] (seq 0 12))
           2 2 4 2 1); try reflexivity; lia.
Defined.

(** ** Dictionaries and keys *)

Lemma append_inj_l (p a b : string) :
  String.append p a = String.append p b -> a = b.
Proof.
  induction p as [|c p IH]; simpl; intros E; [assumption|].
  injection E as E. now apply IH.
Qed.

Lemma weight_key_not_bias_key (prefix : string) :
  String.eqb (String.append prefix ".weight") (String.append prefix ".bias") = false.
Proof.
  apply String.eqb_neq. intros E. apply append_inj_l in E. discriminate.
Qed.

Section Dict.

Context {V : Type}.

Implicit Types (d : dict V) (k : string) (v : V).

Lemma get_set_same d k v : get (set d k v) k = Some v.
Proof.
  induction d as [|[k' v'] d IH]; simpl.
  - now rewrite String.eqb_refl.
  - destruct (String.eqb k' k) eqn:E; simpl; rewrite E; [reflexivity|exact IH].
Qed.

Lemma get_set_other d k k' v : k <> k' -> get (set d k v) k' = get d k'.
Proof.
  intros Hne. induction d as [|[k0 v0] d IH]; simpl.
  - apply String.eqb_neq in Hne. now rewrite Hne.
  - destruct (String.eqb k0 k) eqn:E; simpl.
    + apply String.eqb_eq in E. subst k0.
      apply String.eqb_neq in Hne. now rewrite Hne.
    + destruct (String.eqb k0 k'); [reflexivity|exact IH].
Qed.

Lemma get_update_other d (other : dict V) k :
  (forall kv, In kv other -> fst kv <> k) ->
  get (update d other) k = get d k.
Proof.
  unfold update. revert d. induction other as [|[k0 v0] other IH]; intros d Hk.
  - reflexivity.
  - simpl. rewrite IH.
    + apply get_set_other. apply (Hk (k0, v0)). now left.
    + intros kv Hkv. apply Hk. now right.
Qed.

End Dict.

(** ** The linear-weight packer *)

Section Packer.

Context {A : Type} `{Numeric A}.

(** C5, as the code has it.  Without weight-only quantization the
    packer stores the weight it was given, as it is: the mapping has
    [prefix + ".weight"] bound to the input weight, [prefix + ".bias"]
    bound to the bias exactly when there is one, and no other key. *)
Theorem linear_weight_kept_as_given (weight : tensor A) (prefix : string)
    (bias : option (tensor A)) (quant : option quant_type) :
  exists results,
    get_tllm_linear_weight weight prefix bias false quant = Ok results
    /\ get results (String.append prefix ".weight") = Some weight
    /\ get results (String.append prefix ".bias") = bias
    /\ keys results
       = String.append prefix ".weight"
         :: match bias with
            | Some _ => [String.append prefix ".bias"]
            | None => []
            end.
Proof.
  unfold get_tllm_linear_weight. cbn [bind set].
  destruct bias as [b|]; eexists; (split; [reflexivity|]).
  - cbn [set]. rewrite weight_key_not_bias_key.
    cbn [get keys map fst]. rewrite String.eqb_refl, weight_key_not_bias_key.
    now rewrite String.eqb_refl.
  - cbn [get keys map fst]. rewrite String.eqb_refl, weight_key_not_bias_key.
    repeat split.
Qed.

End Packer.

(** C5, counterexample: a 2 x 3 weight.  The stored entry is the 2 x 3
    matrix itself, which is not its 3 x 2 transpose. *)
Lemma linear_weight_not_transposed :
  exists results transposed,
    get_tllm_linear_weight (mkTensor [2; 3] [0; 1; 2; 3; 4; 5]) "fc" None false None
    = Ok results
    /\ transpose (mkTensor [2; 3] [0; 1; 2; 3; 4; 5]) = Ok transposed
    /\ transposed = mkTensor [3; 2] [0; 3; 1; 4; 2; 5]
    /\ get results "fc.weight" = Some (mkTensor [2; 3] [0; 1; 2; 3; 4; 5])
    /\ get results "fc.weight" <> Some transposed.
Proof.
  do 2 eexists. repeat split; try reflexivity. discriminate.
Qed.

(** ** The embedding splitter *)

Section Embedding.

Context {A : Type} `{Numeric A}.

Implicit Types (param : tensor A).

Lemma getitem_not_assertion {T : Type} (l : list T) (i : nat) :
  getitem l i <> Err AssertionError.
Proof.
  unfold getitem. destruct (nth_error l i); discriminate.
Qed.

Lemma chunk_not_assertion param chunks dim :
  chunk param chunks dim <> Err AssertionError.
Proof.
  unfold chunk.
  destruct (ndim param =? 0); [discriminate|].
  destruct (chunks =? 0); [discriminate|].
  destruct (ndim param <=? dim); [discriminate|].
  destruct (_ =? 0); discriminate.
Qed.

(** The matrix splitter has no assertion to fail. *)
Lemma split_not_assertion param tp rank dim :
  split param tp rank dim <> Err AssertionError.
Proof.
  unfold split.
  destruct (tp =? 1); [discriminate|].
  destruct (length (shape param) =? 1).
  - pose proof (chunk_not_assertion param tp 0) as Hc.
    destruct (chunk param tp 0) as [cs|e]; cbn [bind].
    + apply getitem_not_assertion.
    + congruence.
  - pose proof (chunk_not_assertion param tp dim) as Hc.
    destruct (chunk param tp dim) as [cs|e]; cbn [bind].
    + apply getitem_not_assertion.
    + congruence.
Qed.

Lemma pad_rows_end_not_assertion param width (value : A) :
  pad_rows_end param width value <> Err AssertionError.
Proof.
  unfold pad_rows_end. destruct (rev (shape param)) as [|a [|b l]]; discriminate.
Qed.

Lemma bind_some_not_assertion (r : result (tensor A)) :
  r <> Err AssertionError ->
  (x <- r ;; Ok (Some x)) <> Err AssertionError.
Proof.
  destruct r; cbn [bind]; congruence.
Qed.

(** C10. With parallel embedding enabled and [sharding_dim = 0], a
    vocabulary size that is a multiple of [tp_size] makes
    [split_embedding] assert that the hidden size is one too: it raises
    [AssertionError] when it is not, and otherwise splits the rows.  No
    such check is made when the vocabulary size is not a multiple of
    [tp_size], nor when [sharding_dim] is not zero, where the result is
    that of the matrix splitter along that axis.  This holds whatever
    the name [pad_vocab_size] is bound to. *)
Theorem split_embedding_hidden_assert
    (binding : option (nat -> nat -> nat)) param
    (vocab_size hidden tp_size tp_rank : nat) :
  shape param = [vocab_size; hidden] -> 0 < tp_size ->
  (vocab_size mod tp_size = 0 -> hidden mod tp_size <> 0 ->
   split_embedding_with binding (Some param) tp_size tp_rank true 0
   = Err AssertionError)
  /\ (vocab_size mod tp_size = 0 -> hidden mod tp_size = 0 ->
      split_embedding_with binding (Some param) tp_size tp_rank true 0
      = (r <- split param tp_size tp_rank 0 ;; Ok (Some r)))
  /\ (vocab_size mod tp_size <> 0 ->
      split_embedding_with binding (Some param) tp_size tp_rank true 0
      <> Err AssertionError)
  /\ (forall sharding_dim, sharding_dim <> 0 ->
      split_embedding_with binding (Some param) tp_size tp_rank true sharding_dim
      = (r <- split param tp_size tp_rank sharding_dim ;; Ok (Some r))
      /\ split_embedding_with binding (Some param) tp_size tp_rank true sharding_dim
         <> Err AssertionError).
Proof.
  intros Hs Htp.
  unfold split_embedding_with, split_embedding_tensor, modulo.
  rewrite Hs. cbn [negb Nat.eqb].
  destruct (Nat.eqb_spec tp_size 0); [lia|]. cbn [bind].
  repeat split.
  - intros Hv Hh. rewrite Hv. cbn [Nat.eqb negb].
    destruct (Nat.eqb_spec (hidden mod tp_size) 0); [contradiction|reflexivity].
  - intros Hv Hh. rewrite Hv, Hh. reflexivity.
  - intros Hv.
    destruct (Nat.eqb_spec (vocab_size mod tp_size) 0); [contradiction|].
    cbn [negb]. apply bind_some_not_assertion.
    destruct binding as [pad|]; [|discriminate].
    pose proof (pad_rows_end_not_assertion param
                  (pad vocab_size tp_size - vocab_size) zero) as Hp.
    destruct (pad_rows_end param _ zero) as [padded|e]; cbn [bind].
    + apply split_not_assertion.
    + congruence.
  - destruct (Nat.eqb_spec sharding_dim 0); [contradiction|reflexivity].
  - destruct (Nat.eqb_spec sharding_dim 0); [contradiction|].
    cbn [bind]. apply bind_some_not_assertion, split_not_assertion.
Qed.

(** C4, the code at the claimed input: the padding branch calls
    [pad_vocab_size], a name the module binds nowhere, so for every
    embedding matrix whose vocabulary size is not a multiple of
    [tp_size] the call raises [NameError] before anything is padded or
    split. *)
Theorem split_embedding_padding_unbound param
    (vocab_size hidden tp_size tp_rank : nat) :
  shape param = [vocab_size; hidden] -> 0 < tp_size ->
  vocab_size mod tp_size <> 0 ->
  split_embedding (Some param) tp_size tp_rank true 0 = Err NameError.
Proof.
  intros Hs Htp Hv.
  unfold split_embedding, split_embedding_with, split_embedding_tensor,
    module_pad_vocab_size, modulo.
  rewrite Hs. cbn [negb Nat.eqb].
  destruct (Nat.eqb_spec tp_size 0); [lia|]. cbn [bind].
  destruct (Nat.eqb_spec (vocab_size mod tp_size) 0); [contradiction|].
  reflexivity.
Qed.

End Embedding.

Lemma split_embedding_hidden_assert_witness :
  split_embedding_with None (Some (labelled 4 3)) 2 0 true 0 = Err AssertionError
  /\ split_embedding_with None (Some (labelled 4 2)) 2 1 true 0
     = Ok (Some (mkTensor [2; 2] [2; 2; 3; 3])).
Proof.
  split.
  - apply (proj1 (@split_embedding_hidden_assert nat nat_numeric None
                    (labelled 4 3) 4 3 2 0 eq_refl ltac:(lia)));
      [reflexivity|discriminate].
  - rewrite (proj1 (proj2 (@split_embedding_hidden_assert nat nat_numeric None
                             (labelled 4 2) 4 2 2 1 eq_refl ltac:(lia))));
      reflexivity.
Defined.

Lemma split_embedding_padding_unbound_witness :
  split_embedding (Some (labelled 5 2)) 2 1 true 0 = Err NameError.
Proof.
  apply (@split_embedding_padding_unbound nat nat_numeric (labelled 5 2) 5 2 2 1).
  - reflexivity.
  - lia.
  - discriminate.
Defined.

Lemma pad_vocab_size_spec (vocab_size tp_size : nat) :
  0 < tp_size ->
  pad_vocab_size vocab_size tp_size = tp_size * (pad_vocab_size vocab_size tp_size / tp_size)
  /\ vocab_size <= pad_vocab_size vocab_size tp_size
  /\ pad_vocab_size vocab_size tp_size < vocab_size + tp_size.
Proof.
  intros Htp. unfold pad_vocab_size.
  set (q := (vocab_size + tp_size - 1) / tp_size).
  pose proof (Nat.div_mod_eq (vocab_size + tp_size - 1) tp_size) as E.
  pose proof (Nat.mod_upper_bound (vocab_size + tp_size - 1) tp_size) as U.
  fold q in E. rewrite Nat.div_mul by lia. nia.
Qed.

Section EmbeddingPadding.

Context {A : Type} `{Numeric A}.

Implicit Types (param : tensor A).

(** What the padding branch of [split_embedding] computes once the
    name [pad_vocab_size] is bound to the helper the spec describes:
    zero rows are appended after the last row up to the next multiple of
    [tp_size], and the padded matrix is split into [tp_size] shards of
    equally many rows. *)
Lemma split_embedding_pads_when_bound param
    (vocab_size hidden tp_size tp_rank : nat) :
  shape param = [vocab_size; hidden] -> wf param ->
  0 < tp_size -> vocab_size mod tp_size <> 0 -> tp_rank < tp_size ->
  let padded := pad_vocab_size vocab_size tp_size in
  let per_rank := padded / tp_size in
  exists shard,
    split_embedding_tensor (Some pad_vocab_size) param tp_size tp_rank true 0
    = Ok shard
    /\ shape shard = [per_rank; hidden]
    /\ data shard
       = firstn (per_rank * hidden)
           (skipn (tp_rank * per_rank * hidden)
              (data param ++ repeat zero ((padded - vocab_size) * hidden))).
Proof.
  intros Hs Hwf Htp Hv Hr padded per_rank.
  destruct (pad_vocab_size_spec vocab_size Htp) as [Hp [Hle Hlt]].
  fold padded in Hp, Hle, Hlt. fold per_rank in Hp.
  destruct param as [s D]. unfold wf in Hwf. cbn [shape data] in *. subst s.
  cbn [numel fold_right] in Hwf.
  unfold split_embedding_tensor, modulo. cbn [negb shape Nat.eqb].
  destruct (Nat.eqb_spec tp_size 0); [lia|]. cbn [bind].
  destruct (Nat.eqb_spec (vocab_size mod tp_size) 0); [contradiction|].
  cbn [negb]. fold padded.
  unfold pad_rows_end. cbn [shape rev app data numel fold_right blocks map concat].
  rewrite firstn_all2, app_nil_r by lia. cbn [bind].
  set (P := mkTensor [vocab_size + (padded - vocab_size); hidden]
              (D ++ repeat zero ((padded - vocab_size) * hidden))).
  assert (Htp1 : 1 < tp_size).
  { destruct (Nat.eq_dec tp_size 1) as [->|]; [|lia].
    exfalso. apply Hv. apply Nat.mod_1_r. }
  rewrite (@split_even A P tp_size tp_rank 0 per_rank);
    [|assumption|assumption|cbn; lia|cbn [split_axis P shape nth length Nat.eqb]; lia].
  eexists. split; [reflexivity|]. split; [reflexivity|].
  rewrite narrow_data by (cbn [split_axis P shape nth length Nat.eqb];
                          assert ((tp_rank + 1) * per_rank <= tp_size * per_rank)
                            by (apply Nat.mul_le_mono_r; lia); lia).
  cbn [split_axis P shape data nth length Nat.eqb firstn skipn numel fold_right
       seq map concat].
  rewrite !Nat.mul_1_r, app_nil_r. reflexivity.
Qed.

(** The third end-to-end scenario under the same binding: a vocabulary
    of 30001 rows (written [30 * 1000 + 1]) over eight ranks is padded
    to 30008 rows, every shard has 3751 rows, and the last seven rows of
    the last shard are zero. *)
Lemma split_embedding_scenario_when_bound param (hidden tp_rank : nat) :
  shape param = [30 * 1000 + 1; hidden] -> wf param -> tp_rank < 8 ->
  pad_vocab_size (30 * 1000 + 1) 8 = 30 * 1000 + 8
  /\ exists shard,
       split_embedding_tensor (Some pad_vocab_size) param 8 tp_rank true 0
       = Ok shard
       /\ shape shard = [3751; hidden]
       /\ (tp_rank = 7 ->
           skipn ((3751 - 7) * hidden) (data shard) = repeat zero (7 * hidden)).
Proof.
  intros Hs Hwf Hr.
  assert (Hq : (30 * 1000 + 1 + 8 - 1) / 8 = 3751).
  { symmetry. apply Nat.div_unique with (r := 0); lia. }
  assert (Hpad : pad_vocab_size (30 * 1000 + 1) 8 = 30 * 1000 + 8).
  { unfold pad_vocab_size. rewrite Hq. lia. }
  assert (Hper : pad_vocab_size (30 * 1000 + 1) 8 / 8 = 3751).
  { rewrite Hpad. symmetry. apply Nat.div_unique with (r := 0); lia. }
  assert (Hmod : (30 * 1000 + 1) mod 8 <> 0).
  { replace ((30 * 1000 + 1) mod 8) with 1; [discriminate|].
    apply Nat.mod_unique with (q := 3750); lia. }
  split; [exact Hpad|].
  destruct (@split_embedding_pads_when_bound param (30 * 1000 + 1) hidden 8 tp_rank
              Hs Hwf ltac:(lia) Hmod Hr) as [shard [E [S Dat]]].
  rewrite Hper in S, Dat. rewrite Hpad in Dat.
  exists shard. split; [exact E|]. split; [exact S|].
  intros ->. rewrite Dat.
  unfold wf in Hwf. rewrite Hs in Hwf. cbn [numel fold_right] in Hwf.
  set (D := data param) in *.
  set (Z := repeat zero ((30 * 1000 + 8 - (30 * 1000 + 1)) * hidden)).
  assert (HZ : length Z = 7 * hidden).
  { unfold Z. rewrite repeat_length. lia. }
  rewrite firstn_all2 by (rewrite length_skipn, length_app, HZ; lia).
  rewrite skipn_skipn, skipn_app.
  rewrite skipn_all2 by lia.
  replace ((3751 - 7) * hidden + 7 * 3751 * hidden - length D) with 0 by lia.
  cbn [skipn app]. unfold Z.
  now replace ((30 * 1000 + 8 - (30 * 1000 + 1)) * hidden) with (7 * hidden) by lia.
Qed.

End EmbeddingPadding.

(** ** The per-layer orchestration *)

Lemma bind_ok_inv {T U : Type} (r : result T) (k : T -> result U) (y : U) :
  (x <- r ;; k x) = Ok y -> exists x, r = Ok x /\ k x = Ok y.
Proof.
  destruct r as [x|e]; cbn [bind]; intros E; [|discriminate].
  now exists x.
Qed.

Lemma ok_inj {T : Type} (x y : T) : Ok x = Ok y -> x = y.
Proof.
  now intros [= ->].
Qed.

Ltac bind_inv H :=
  repeat match type of H with
         | (_ <- _ ;; _) = Ok _ =>
             let x := fresh "x" in
             let E := fresh "E" in
             apply bind_ok_inv in H as [x [E H]]
         end.

Lemma layer_key_prefix (layer_id : nat) (name suffix : string) :
  String.prefix "transformer.layers."
    (String.append (String.append (layer_prefix layer_id) name) suffix) = true.
Proof.
  unfold layer_prefix. simpl.
  now destruct (String.append _ suffix).
Qed.

Section Orchestration.

Context {A : Type} `{Numeric A}.

Implicit Types (weights : dict (tensor A)).

Lemma in_set {V : Type} (d : dict V) (k : string) (v : V) (kv : string * V) :
  In kv (set d k v) -> fst kv = k \/ In kv d.
Proof.
  induction d as [|[k0 v0] d IH]; simpl.
  - intros [<-|[]]. now left.
  - destruct (String.eqb k0 k) eqn:E; simpl.
    + intros [<-|Hin]; [left; now apply String.eqb_eq|right; now right].
    + intros [<-|Hin]; [right; now left|].
      destruct (IH Hin) as [?|?]; [now left|right; now right].
Qed.

Lemma packed_keys (w : tensor A) prefix bias uwo quant packed :
  get_tllm_linear_weight w prefix bias uwo quant = Ok packed ->
  forall kv, In kv packed -> exists suffix, fst kv = String.append prefix suffix.
Proof.
  unfold get_tllm_linear_weight. intros Hp kv Hkv.
  apply bind_ok_inv in Hp as [results [Er Hp]].
  assert (Hres : forall kv, In kv results ->
                   exists suffix, fst kv = String.append prefix suffix).
  { destruct uwo.
    - bind_inv Er. apply ok_inj in Er. subst results. intros kv' Hin.
      apply in_set in Hin as [->|Hin]; [eauto|].
      apply in_set in Hin as [->|[]]; eauto.
    - apply ok_inj in Er. subst results. intros kv' Hin.
      apply in_set in Hin as [->|[]]; eauto. }
  destruct bias as [b|]; apply ok_inj in Hp; subst packed.
  - apply in_set in Hkv as [->|Hin]; eauto.
  - auto.
Qed.

Lemma update_packed_other weights (w : tensor A) layer_id name bias uwo quant
    packed (k : string) :
  get_tllm_linear_weight w (String.append (layer_prefix layer_id) name)
    bias uwo quant = Ok packed ->
  String.prefix "transformer.layers." k = false ->
  get (update weights packed) k = get weights k.
Proof.
  intros Hp Hk. apply get_update_other. intros kv Hkv Heq.
  destruct (packed_keys _ _ _ _ _ Hp kv Hkv) as [suffix Hs].
  rewrite Heq in Hs. rewrite Hs, layer_key_prefix in Hk. discriminate.
Qed.

(** An iteration of the layer loop writes keys of its own layer only. *)
Lemma split_layer_other num_heads num_kv hidden args rank d weights layer_id
    weights' (k : string) :
  split_layer num_heads num_kv hidden args rank d weights layer_id = Ok weights' ->
  String.prefix "transformer.layers." k = false ->
  get weights' k = get weights k.
Proof.
  unfold split_layer. cbv zeta. intros Hl Hk.
  bind_inv Hl. injection Hl as <-.
  repeat (erewrite update_packed_other; [|eassumption|exact Hk]).
  reflexivity.
Qed.

Lemma split_layers_other num_heads num_kv hidden args rank d layer_ids :
  forall weights weights' (k : string),
    split_layers num_heads num_kv hidden args rank d weights layer_ids = Ok weights' ->
    String.prefix "transformer.layers." k = false ->
    get weights' k = get weights k.
Proof.
  induction layer_ids as [|i ids IH]; intros weights weights' k Hl Hk.
  - injection Hl as <-. reflexivity.
  - cbn [split_layers] in Hl. apply bind_ok_inv in Hl as [w1 [E1 Hl]].
    rewrite (IH _ _ _ Hl Hk). eapply split_layer_other; eassumption.
Qed.

(** The two entries [split_weights_tp] writes after the layer loop. *)
Lemma split_weights_tp_entries cfg weights args rank d out :
  split_weights_tp cfg weights args rank d = Ok out ->
  exists emb head shard,
    get weights "transformer.vocab_embedding.weight" = Some emb
    /\ get weights "lm_head.weight" = Some head
    /\ get out "transformer.vocab_embedding.weight" = Some emb
    /\ split head (tp_size args) rank 0 = Ok shard
    /\ get out "lm_head.weight" = Some shard.
Proof.
  unfold split_weights_tp. cbv zeta. intros Hs.
  apply bind_ok_inv in Hs as [num_kv [Ekv Hs]].
  apply bind_ok_inv in Hs as [w1 [El Hs]].
  apply bind_ok_inv in Hs as [emb [Eemb Hs]].
  apply bind_ok_inv in Hs as [emb' [Eemb' Hs]].
  apply bind_ok_inv in Hs as [head [Ehead Hs]].
  apply bind_ok_inv in Hs as [shard [Eshard Hs]].
  injection Hs as <-.
  unfold split_embedding_tensor in Eemb'. cbn [negb] in Eemb'.
  injection Eemb' as <-.
  unfold lookup in Eemb, Ehead.
  destruct (get w1 "transformer.vocab_embedding.weight") as [e|] eqn:G1;
    [|discriminate]. injection Eemb as ->.
  rewrite get_set_other in Ehead by discriminate.
  destruct (get w1 "lm_head.weight") as [h|] eqn:G2; [|discriminate].
  injection Ehead as ->.
  erewrite split_layers_other in G1; [|exact El|reflexivity].
  erewrite split_layers_other in G2; [|exact El|reflexivity].
  exists emb, head, shard. repeat split; try assumption.
  - rewrite get_set_other by discriminate. apply get_set_same.
  - apply get_set_same.
Qed.

End Orchestration.

(** ** What a returned shard is *)

Section SplitSlices.

Context {A : Type}.

Implicit Types (t x : tensor A).

Lemma getitem_map_seq_inv {B : Type} (f : nat -> B) (n i : nat) (y : B) :
  getitem (map f (seq 0 n)) i = Ok y -> i < n /\ y = f i.
Proof.
  intros E. destruct (Nat.lt_ge_cases i n) as [Hlt|Hge].
  - rewrite (getitem_map_seq f Hlt) in E. apply ok_inj in E. now split.
  - rewrite (getitem_map_seq_out f Hge) in E. discriminate.
Qed.

(** Whenever [split] returns, the shard is the input itself for a
    degree of 1 and, for a degree above 1, the slice of the split axis
    that starts at [rank * c] and has [c] entries or what is left of
    the axis, where [c = ceil(n / tp_size)]; the rank is then below the
    degree. *)
Lemma split_ok_slice x tp_size rank dim shard :
  split x tp_size rank dim = Ok shard ->
  (tp_size = 1 -> shard = x)
  /\ (1 < tp_size ->
      let n := nth (split_axis x dim) (shape x) 0 in
      let c := (n + tp_size - 1) / tp_size in
      rank < tp_size
      /\ shard = narrow x (split_axis x dim) (rank * c) (Nat.min c (n - rank * c))).
Proof.
  intros Hs. split.
  - intros ->. unfold split in Hs. cbn [Nat.eqb] in Hs. apply ok_inj in Hs.
    now subst.
  - intros Htp n c.
    assert (Hsplit : split x tp_size rank dim
                     = (cs <- chunk x tp_size (split_axis x dim) ;; getitem cs rank)).
    { unfold split, split_axis.
      destruct (Nat.eqb_spec tp_size 1); [lia|].
      now destruct (length (shape x) =? 1). }
    rewrite Hsplit in Hs. apply bind_ok_inv in Hs as [cs [Hc Hg]].
    unfold chunk in Hc.
    destruct (ndim x =? 0); [discriminate|].
    destruct (Nat.eqb_spec tp_size 0); [lia|].
    destruct (ndim x <=? split_axis x dim); [discriminate|].
    fold n in Hc. fold c in Hc.
    pose proof (Nat.div_mod_eq (n + tp_size - 1) tp_size) as Ediv.
    pose proof (Nat.mod_upper_bound (n + tp_size - 1) tp_size ltac:(lia)) as Udiv.
    fold c in Ediv.
    destruct (Nat.eqb_spec c 0) as [Hc0|Hc0]; apply ok_inj in Hc; subst cs.
    + apply getitem_map_seq_inv in Hg as [Hr ->]. split; [assumption|].
      rewrite Hc0, Nat.mul_0_r. reflexivity.
    + assert (Hn : 0 < n /\ n <= c * tp_size) by nia.
      set (q := (n + c - 1) / c) in *.
      assert (Hq : c * (q - 1) < n /\ n <= c * q /\ 1 <= q /\ q <= tp_size).
      { unfold q. pose proof (Nat.div_mod_eq (n + c - 1) c) as E.
        pose proof (Nat.mod_upper_bound (n + c - 1) c Hc0) as U.
        assert ((n + c - 1) / c < tp_size + 1)
          by (apply Nat.Div0.div_lt_upper_bound; nia).
        nia. }
      rewrite Nat.max_l in Hg by lia.
      apply getitem_map_seq_inv in Hg as [Hr ->]. split; [lia|].
      f_equal.
      destruct (Nat.ltb_spec rank (q - 1)) as [Hlt|Hge].
      * assert ((rank + 1) * c <= (q - 1) * c)
          by (apply Nat.mul_le_mono_r; lia). lia.
      * assert (E : rank = q - 1) by lia. rewrite E.
        replace ((q - 1) * c) with (c * (q - 1)) by lia.
        assert (c * q = c * (q - 1) + c) by nia. lia.
Qed.

End SplitSlices.

Section Conversion.

Context {A : Type} `{Numeric A}.

Implicit Types (weights : dict (tensor A)).

(** The reassembling loop rewrites entries whose key contains "qkv."
    and no other. *)
Lemma shuffle_entries_other cfg (ks : list string) :
  forall weights weights' (k : string),
    shuffle_entries cfg weights ks = Ok weights' ->
    contains "qkv." k = false ->
    get weights' k = get weights k.
Proof.
  induction ks as [|key ks IH]; intros weights weights' k Hs Hk.
  - apply ok_inj in Hs. now subst.
  - cbn [shuffle_entries] in Hs. apply bind_ok_inv in Hs as [w1 [E1 Hs]].
    rewrite (IH _ _ _ Hs Hk).
    destruct (contains "qkv." key) eqn:Hc.
    + bind_inv E1. apply ok_inj in E1. subst w1.
      apply get_set_other. intros ->. congruence.
    + apply ok_inj in E1. now subst.
Qed.

(** After the keys are rewritten, a key holds the cast of its source
    entry. *)
Lemma rename_state_dict_get (sd : list (string * tensor A)) d (target : string) :
  get (rename_state_dict sd d) target
  = option_map (fun t => to t d) (source_entry sd target).
Proof.
  unfold rename_state_dict, source_entry.
  assert (Hgen : forall (acc : dict (tensor A)) (found : option (tensor A)),
            get acc target = option_map (fun t => to t d) found ->
            get (fold_left (fun weights kv =>
                              set weights (rename_key (fst kv)) (to (snd kv) d))
                           sd acc) target
            = option_map (fun t => to t d)
                (fold_left (fun found kv =>
                              if String.eqb (rename_key (fst kv)) target
                              then Some (snd kv) else found) sd found)).
  { induction sd as [|[k v] sd IH]; intros acc found Hacc; [exact Hacc|].
    cbn [fold_left fst snd]. apply IH.
    destruct (String.eqb (rename_key k) target) eqn:E.
    - apply String.eqb_eq in E. rewrite E. apply get_set_same.
    - apply String.eqb_neq in E. now rewrite get_set_other. }
  now apply Hgen.
Qed.

(** C8. [split_weights_tp] calls [split_embedding] without enabling
    parallel embedding: whenever it returns, for every [tp_size] and
    rank, the entry "transformer.vocab_embedding.weight" of the result
    is the embedding it received, whole, and the entry "lm_head.weight"
    is what the matrix splitter gives for the received output
    projection along axis 0.  That is the projection itself for a
    degree of 1; for a degree above 1 it is cut along axis 0, the rank
    receiving the rows from [rank * c] on, [c] of them or what is left,
    with [c = ceil(n / tp_size)] for [n] rows: the rows from
    [rank * per_rank] to [(rank + 1) * per_rank] when the projection
    has [tp_size * per_rank] rows. *)
Theorem vocab_embedding_replicated cfg weights (args : arguments) (rank : nat)
    (d : torch_dtype) out :
  split_weights_tp cfg weights args rank d = Ok out ->
  exists emb head shard,
    get weights "transformer.vocab_embedding.weight" = Some emb
    /\ get weights "lm_head.weight" = Some head
    /\ get out "transformer.vocab_embedding.weight" = Some emb
    /\ split head (tp_size args) rank 0 = Ok shard
    /\ get out "lm_head.weight" = Some shard
    /\ (tp_size args = 1 -> shard = head)
    /\ (1 < tp_size args ->
        let n := nth 0 (shape head) 0 in
        let c := (n + tp_size args - 1) / tp_size args in
        rank < tp_size args
        /\ shard = narrow head 0 (rank * c) (Nat.min c (n - rank * c)))
    /\ (forall vocab hidden per_rank,
          shape head = [vocab; hidden] -> wf head ->
          0 < tp_size args -> vocab = tp_size args * per_rank ->
          rank < tp_size args ->
          shard = narrow head 0 (rank * per_rank) per_rank).
Proof.
  intros Hs.
  destruct (split_weights_tp_entries _ _ _ _ _ Hs)
    as (emb & head & shard & G1 & G2 & G3 & Es & G4).
  exists emb, head, shard.
  assert (Hax : split_axis head 0 = 0)
    by (unfold split_axis; now destruct (length (shape head) =? 1)).
  destruct (split_ok_slice _ _ _ _ Es) as [Hone Hcut]. rewrite Hax in Hcut.
  repeat (split; [assumption|]).
  intros vocab hidden per_rank Hshape Hwf Htp Hv Hr.
  assert (Hsplit : split head (tp_size args) rank 0
                   = Ok (narrow head (split_axis head 0)
                           (rank * per_rank) per_rank)).
  { apply split_even_any; try assumption.
    - rewrite Hax. unfold ndim. rewrite Hshape. cbn. lia.
    - rewrite Hax, Hshape. exact Hv. }
  rewrite Hsplit, Hax in Es. apply ok_inj in Es. now rewrite <- Es.
Qed.


End Conversion.

Lemma vocab_embedding_replicated_witness :
  get example_split_output "transformer.vocab_embedding.weight"
  = Some (labelled 6 4)
  /\ get example_split_output "lm_head.weight"
     = Some (mkTensor [3; 4] [3; 3; 3; 3; 4; 4; 4; 4; 5; 5; 5; 5]).
Proof.
  destruct (@vocab_embedding_replicated nat nat_numeric example_config
              example_weights example_args 1 tt example_split_output)
    as (emb & head & shard & G1 & G2 & G3 & _ & G4 & _ & Hcut & _).
  - vm_compute. reflexivity.
  - change (Some (labelled 6 4) = Some emb) in G1. injection G1 as <-.
    change (Some (labelled 6 4) = Some head) in G2. injection G2 as <-.
    destruct Hcut as [_ ->]; [vm_compute; lia|].
    split; [exact G3|]. rewrite G4. reflexivity.
Defined.

(** The two entries on the example: the embedding whole, the output
    projection halved. *)
Example example_split_entries :
  get example_split_output "transformer.vocab_embedding.weight"
  = Some (labelled 6 4)
  /\ get example_split_output "lm_head.weight"
     = Some (mkTensor [3; 4] [3; 3; 3; 3; 4; 4; 4; 4; 5; 5; 5; 5]).
Proof.
  split; vm_compute; reflexivity.
Qed.



(** On the example the output projection of the checkpoint (all
    nines) is dropped: the entry holds rows 3 to 5 of the embedding. *)
Example example_convert_lm_head :
  get example_convert_output "lm_head.weight"
  = Some (mkTensor [3; 4] [3; 3; 3; 3; 4; 4; 4; 4; 5; 5; 5; 5]).
Proof.
  vm_compute. reflexivity.
Qed.

(** ** Shards of the matrix splitter *)

Section SplitShards.

Context {A : Type}.

Implicit Types (t x : tensor A).

Lemma rows_concat x n (s : list nat) :
  wf x -> shape x = n :: s -> concat (rows x) = data x.
Proof.
  intros Hwf Hs. unfold rows. rewrite Hs. cbn [nth tl].
  apply blocks_concat. unfold wf in Hwf. rewrite Hwf, Hs. reflexivity.
Qed.

(** When the degree divides the size of the split axis, [split]
    returns for every rank below the degree: the shard has the shape of
    the input with the split axis divided by the degree, it has as many
    elements as its shape says, and the degree times its element count
    is the element count of the input.  A 1-D tensor is split along
    axis 0 whatever [dim] says. *)
Theorem split_shard_shape x tp_size rank dim per_rank :
  wf x -> 0 < tp_size -> rank < tp_size ->
  split_axis x dim < ndim x ->
  nth (split_axis x dim) (shape x) 0 = tp_size * per_rank ->
  exists shard,
    split x tp_size rank dim = Ok shard
    /\ shape shard
       = firstn (split_axis x dim) (shape x)
         ++ per_rank :: skipn (S (split_axis x dim)) (shape x)
    /\ wf shard
    /\ tp_size * numel (shape shard) = numel (shape x).
Proof.
  intros Hwf Htp Hr Hd Hn.
  exists (narrow x (split_axis x dim) (rank * per_rank) per_rank).
  assert (Hle : rank * per_rank + per_rank <= nth (split_axis x dim) (shape x) 0).
  { rewrite Hn.
    assert ((rank + 1) * per_rank <= tp_size * per_rank)
      by (apply Nat.mul_le_mono_r; lia). lia. }
  split; [now apply split_even_any|].
  split; [reflexivity|].
  split; [now apply narrow_wf|].
  unfold narrow. cbn [shape].
  rewrite (numel_split (shape x) Hd), numel_app, Hn. cbn [numel fold_right].
  fold (numel (skipn (S (split_axis x dim)) (shape x))). ring.
Qed.

(** Split along axis 0, the shard of a rank is the run of
    [per_rank] consecutive rows of the input that starts at row
    [rank * per_rank]. *)
Theorem split_rows x tp_size rank dim n (s : list nat) per_rank :
  wf x -> shape x = n :: s ->
  0 < tp_size -> rank < tp_size -> n = tp_size * per_rank ->
  (dim = 0 \/ s = []) ->
  exists shard,
    split x tp_size rank dim = Ok shard
    /\ shape shard = per_rank :: s
    /\ rows shard = gather (rows x) (seq (rank * per_rank) per_rank).
Proof.
  intros Hwf Hs Htp Hr Hn Hdim.
  assert (Hax : split_axis x dim = 0).
  { unfold split_axis. rewrite Hs. destruct Hdim as [-> | ->].
    - now destruct (length (n :: s) =? 1).
    - reflexivity. }
  assert (Hle : rank * per_rank + per_rank <= n).
  { rewrite Hn.
    assert ((rank + 1) * per_rank <= tp_size * per_rank)
      by (apply Nat.mul_le_mono_r; lia). lia. }
  exists (narrow x 0 (rank * per_rank) per_rank).
  split.
  { rewrite (@split_even_any A x tp_size rank dim per_rank); try assumption.
    - now rewrite Hax.
    - rewrite Hax. unfold ndim. rewrite Hs. simpl. lia.
    - rewrite Hax, Hs. exact Hn. }
  split.
  { unfold narrow. cbn [shape]. rewrite Hs. reflexivity. }
  unfold rows at 1.
  rewrite narrow_data by (rewrite Hs; cbn [nth]; lia).
  unfold narrow. cbn [shape]. rewrite Hs.
  cbn [firstn skipn app nth tl numel fold_right seq map concat]. fold (numel s).
  rewrite app_nil_r. cbn [Nat.mul Nat.add].
  unfold rows. rewrite Hs. cbn [nth tl].
  assert (Hlen : length (data x) = n * numel s).
  { unfold wf in Hwf. rewrite Hwf, Hs. reflexivity. }
  rewrite <- (@gather_range A n (numel s) (data x) (rank * per_rank) per_rank) by lia.
  assert (Hg : length (gather (blocks n (numel s) (data x))
                         (seq (rank * per_rank) per_rank)) = per_rank).
  { unfold gather. now rewrite length_map, length_seq. }
  rewrite <- Hg at 1. apply blocks_of_concat.
  apply gather_rows_length; [exact Hlen|].
  intros i Hi. apply in_seq in Hi. lia.
Qed.

(** Split along axis 1, the shard of a matrix has every row of the
    input, cut down to the run of [per_rank] columns that starts at
    column [rank * per_rank]. *)
Theorem split_columns x tp_size rank n m per_rank :
  wf x -> shape x = [n; m] ->
  0 < tp_size -> rank < tp_size -> m = tp_size * per_rank ->
  exists shard,
    split x tp_size rank 1 = Ok shard
    /\ shape shard = [n; per_rank]
    /\ rows shard
       = map (fun row => firstn per_rank (skipn (rank * per_rank) row)) (rows x).
Proof.
  intros Hwf Hs Htp Hr Hm.
  assert (Hax : split_axis x 1 = 1) by (unfold split_axis; now rewrite Hs).
  assert (Hle : rank * per_rank + per_rank <= m).
  { rewrite Hm.
    assert ((rank + 1) * per_rank <= tp_size * per_rank)
      by (apply Nat.mul_le_mono_r; lia). lia. }
  assert (Hlen : length (data x) = n * m).
  { unfold wf in Hwf. rewrite Hwf, Hs. cbn [numel fold_right]. lia. }
  exists (narrow x 1 (rank * per_rank) per_rank).
  split.
  { rewrite (@split_even_any A x tp_size rank 1 per_rank); try assumption.
    - now rewrite Hax.
    - rewrite Hax. unfold ndim. rewrite Hs. simpl. lia.
    - rewrite Hax, Hs. exact Hm. }
  split.
  { unfold narrow. cbn [shape]. rewrite Hs. reflexivity. }
  unfold rows, narrow. cbn [shape data]. rewrite Hs.
  cbn [firstn skipn app nth tl numel fold_right].
  rewrite !Nat.mul_1_r.
  set (f := fun b : list A => firstn per_rank (skipn (rank * per_rank) b)).
  rewrite <- (blocks_length n m (data x)) at 1.
  rewrite <- (length_map f (blocks n m (data x))).
  apply blocks_of_concat.
  apply Forall_forall. intros r Hin.
  apply in_map_iff in Hin as [b [<- Hb]].
  rewrite blocks_as_map in Hb. apply in_map_iff in Hb as [i [<- Hi]].
  apply in_seq in Hi. unfold f. apply piece_length.
  rewrite length_firstn, length_skipn, Hlen.
  assert ((i + 1) * m <= n * m) by (apply Nat.mul_le_mono_r; lia). lia.
Qed.

Lemma chunk_length_le x chunks dim (cs : list (tensor A)) :
  chunk x chunks dim = Ok cs -> length cs <= chunks.
Proof.
  unfold chunk.
  destruct (ndim x =? 0); [discriminate|].
  destruct (Nat.eqb_spec chunks 0) as [|Hc]; [discriminate|].
  destruct (ndim x <=? dim); [discriminate|].
  remember (nth dim (shape x) 0) as n eqn:En.
  remember ((n + chunks - 1) / chunks) as ss eqn:Ess.
  destruct (Nat.eqb_spec ss 0) as [|Hss]; intros Hcs; apply ok_inj in Hcs;
    subst cs; rewrite length_map, length_seq; [lia|].
  assert (Hn : n <= chunks * ss).
  { pose proof (Nat.div_mod_eq (n + chunks - 1) chunks) as Hdm.
    pose proof (Nat.mod_upper_bound (n + chunks - 1) chunks Hc) as Hub.
    rewrite <- Ess in Hdm. lia. }
  assert (Hq : (n + ss - 1) / ss < chunks + 1).
  { apply Nat.Div0.div_lt_upper_bound. nia. }
  lia.
Qed.

Lemma chunk_succeeds x chunks dim :
  0 < chunks -> dim < ndim x -> exists cs, chunk x chunks dim = Ok cs.
Proof.
  intros Hc Hd. unfold chunk.
  destruct (Nat.eqb_spec (ndim x) 0); [lia|].
  destruct (Nat.eqb_spec chunks 0); [lia|].
  destruct (Nat.leb_spec (ndim x) dim); [lia|].
  destruct (_ =? 0); eexists; reflexivity.
Qed.

(** With a degree above 1, a rank that is not below the degree makes
    [split] raise [IndexError], whether or not the degree divides the
    axis: [torch.chunk] never returns more chunks than it is asked
    for. *)
Theorem split_rank_out_of_range x tp_size rank dim :
  1 < tp_size -> tp_size <= rank ->
  split_axis x dim < ndim x ->
  split x tp_size rank dim = Err IndexError.
Proof.
  intros Htp Hr Hd.
  assert (Hsplit : split x tp_size rank dim
                   = (cs <- chunk x tp_size (split_axis x dim) ;; getitem cs rank)).
  { unfold split, split_axis.
    destruct (Nat.eqb_spec tp_size 1); [lia|].
    now destruct (length (shape x) =? 1). }
  rewrite Hsplit.
  destruct (@chunk_succeeds x tp_size (split_axis x dim) ltac:(lia) Hd)
    as [cs Hcs].
  rewrite Hcs. cbn [bind].
  pose proof (@chunk_length_le _ _ _ _ Hcs) as Hlen.
  unfold getitem.
  destruct (nth_error cs rank) eqn:E; [|reflexivity].
  assert (rank < length cs) by (apply nth_error_Some; congruence). lia.
Qed.

End SplitShards.

Lemma split_shard_shape_witness :
  exists shard,
    split (labelled 4 2) 2 1 0 = Ok shard
    /\ shape shard
       = firstn (split_axis (labelled 4 2) 0) (shape (labelled 4 2))
         ++ 2 :: skipn (S (split_axis (labelled 4 2) 0)) (shape (labelled 4 2))
    /\ wf shard
    /\ 2 * numel (shape shard) = numel (shape (labelled 4 2)).
Proof.
  apply (@split_shard_shape nat (labelled 4 2) 2 1 0 2).
  - reflexivity.
  - lia.
  - lia.
  - vm_compute. lia.
  - reflexivity.
Defined.

Lemma split_rows_witness :
  exists shard,
    split (labelled 4 2) 2 1 0 = Ok shard
    /\ shape shard = [2; 2]
    /\ rows shard = gather (rows (labelled 4 2)) (seq (1 * 2) 2).
Proof.
  apply (@split_rows nat (labelled 4 2) 2 1 0 4 [2] 2).
  - reflexivity.
  - reflexivity.
  - lia.
  - lia.
  - reflexivity.
  - left. reflexivity.
Defined.

Lemma split_columns_witness :
  exists shard,
    split (mkTensor [2; 4] [0; 1; 2; 3; 4; 5; 6; 7]) 2 1 1 = Ok shard
    /\ shape shard = [2; 2]
    /\ rows shard
       = map (fun row => firstn 2 (skipn (1 * 2) row))
           (rows (mkTensor [2; 4] [0; 1; 2; 3; 4; 5; 6; 7])).
Proof.
  apply (@split_columns nat (mkTensor [2; 4] [0; 1; 2; 3; 4; 5; 6; 7])
           2 1 2 4 2).
  - reflexivity.
  - reflexivity.
  - lia.
  - lia.
  - reflexivity.
Defined.

Lemma split_rank_out_of_range_witness :
  split (labelled 4 2) 2 2 0 = Err IndexError.
Proof.
  apply (@split_rank_out_of_range nat (labelled 4 2) 2 2 0).
  - lia.
  - lia.
  - vm_compute. lia.
Defined.

(** ** The domain of the reassembler *)

Section ShuffleDomain.

Context {A : Type}.

Implicit Types (w : tensor A) (D : list A).

Lemma shuffle_normal_form_any w cfg num_kv H D :
  kv_heads cfg = Some num_kv ->
  0 < num_kv -> 0 < num_attention_heads cfg -> 0 < head_dim cfg -> 0 < H ->
  let lead := (num_q_per_kv cfg num_kv + 2) * num_kv * head_dim cfg in
  length D = lead * H ->
  data w = D ->
  (ndim w = 1 /\ H = 1) \/ (2 <= ndim w /\ size_at_neg w 1 = Ok H) ->
  shuffle_qkv_weights w cfg
  = let out :=
      mkTensor (filter (fun n => negb (n =? 1)) [lead; H])
        (concat (gather (blocks lead H D)
                   (grouped_order num_kv (num_q_per_kv cfg num_kv) (head_dim cfg))))
    in
    if shape_eqb (shape w) (shape out) then Ok out else Err AssertionError.
Proof.
  intros Hkv Hnkv Hnh Hhd HH lead HD Hdata Hw.
  unfold shuffle_qkv_weights.
  assert (Ekv : match num_kv_heads cfg with
                | Some n => Ok n
                | None => required (num_key_value_heads cfg)
                end = Ok num_kv).
  { unfold kv_heads in Hkv. destruct (num_kv_heads cfg); [congruence|].
    now rewrite Hkv. }
  rewrite Ekv. cbn [bind]. unfold floordiv.
  destruct (Nat.eqb_spec num_kv 0); [lia|].
  destruct (Nat.eqb_spec (num_attention_heads cfg) 0); [lia|].
  cbn [bind].
  fold (num_q_per_kv cfg num_kv). fold (head_dim cfg).
  set (nq := num_q_per_kv cfg num_kv) in *.
  set (hd := head_dim cfg) in *.
  assert (HD4 : length D = numel [num_kv; nq + 2; hd; H]).
  { rewrite HD. unfold lead. cbn [numel fold_right]. ring. }
  assert (Hstart : forall (k : tensor A -> result (tensor A)),
            (w0 <- (if ndim w <? 2 then unsqueeze w 1 else Ok w) ;;
             last <- size_at_neg w0 1 ;;
             w1 <- reshape w0 [Dim num_kv; Dim (nq + 2); Dim hd; Dim last] ;;
             k w1)
            = k (mkTensor [num_kv; nq + 2; hd; H] D)).
  { intros k. destruct w as [s D0]. cbn [data] in Hdata. subst D0.
    unfold ndim in *. cbn [shape] in *.
    destruct Hw as [[Hn ->]|[Hn Hlast]].
    - destruct s as [|len0 [|? ?]]; try discriminate.
      cbn [length Nat.ltb Nat.leb bind unsqueeze shape data firstn skipn app
           size_at_neg getitem_neg getitem nth_error Nat.sub].
      unfold unsqueeze, ndim.
      cbn [length Nat.ltb Nat.leb bind shape data firstn skipn app
           size_at_neg getitem_neg getitem nth_error Nat.sub].
      now rewrite reshape_dims4.
    - destruct (Nat.ltb_spec (length s) 2); [lia|].
      cbn [bind]. rewrite Hlast. cbn [bind].
      now rewrite reshape_dims4. }
  rewrite Hstart. clear Hstart.
  set (w4 := mkTensor [num_kv; nq + 2; hd; H] D).
  assert (Eq : slice_to_neg w4 1 2 = Ok (narrow w4 1 0 nq)).
  { unfold slice_to_neg. cbn [shape w4 nth].
    rewrite slice_ok; cbn [ndim shape w4 length nth]; try lia.
    do 2 f_equal. lia. }
  assert (Ek : select_neg w4 1 2
               = Ok (mkTensor [num_kv; hd; H] (data (narrow w4 1 nq 1)))).
  { rewrite select_neg_ok; cbn [ndim shape w4 length nth]; try lia.
    cbn [firstn skipn app]. do 4 f_equal. lia. }
  assert (Ev : select_neg w4 1 1
               = Ok (mkTensor [num_kv; hd; H] (data (narrow w4 1 (nq + 1) 1)))).
  { rewrite select_neg_ok; cbn [ndim shape w4 length nth]; try lia.
    cbn [firstn skipn app]. do 4 f_equal. lia. }
  rewrite Eq, Ek, Ev. cbn [bind]. clear Eq Ek Ev.
  assert (Hwf4 : wf w4) by exact HD4.
  assert (Lq : length (data (narrow w4 1 0 nq)) = num_kv * nq * numel [hd; H]).
  { rewrite narrow_length; cbn [ndim shape w4 length nth firstn skipn numel fold_right];
      try assumption; lia. }
  assert (Lk : length (data (narrow w4 1 nq 1)) = num_kv * numel [hd; H]).
  { rewrite narrow_length; cbn [ndim shape w4 length nth firstn skipn numel fold_right];
      try assumption; lia. }
  assert (Lv : length (data (narrow w4 1 (nq + 1) 1)) = num_kv * numel [hd; H]).
  { rewrite narrow_length; cbn [ndim shape w4 length nth firstn skipn numel fold_right];
      try assumption; lia. }
  assert (Hpos : 0 < numel [hd; H]) by (cbn [numel fold_right]; nia).
  assert (Edata : data (narrow w4 1 0 nq) ++ data (narrow w4 1 nq 1)
                  ++ data (narrow w4 1 (nq + 1) 1)
                  = concat (gather (blocks lead H D) (grouped_order num_kv nq hd))).
  { unfold grouped_order. rewrite !gather_app, !concat_app.
    assert (Hgroup : forall g off len, g < num_kv -> off + len <= (nq + 2) * hd ->
              g * ((nq + 2) * hd) + off + len <= lead).
    { intros g off len Hg Hol. unfold lead.
      assert ((g + 1) * ((nq + 2) * hd) <= num_kv * ((nq + 2) * hd))
        by (apply Nat.mul_le_mono_r; lia).
      lia. }
    rewrite (@gather_groups A D num_kv lead H (nq * hd)
               (fun g => g * ((nq + 2) * hd)))
      by (intros g Hg; specialize (Hgroup g 0 (nq * hd) Hg); lia).
    rewrite (@gather_groups A D num_kv lead H hd
               (fun g => g * ((nq + 2) * hd) + nq * hd))
      by (intros g Hg; specialize (Hgroup g (nq * hd) hd Hg); lia).
    rewrite (@gather_groups A D num_kv lead H hd
               (fun g => g * ((nq + 2) * hd) + (nq + 1) * hd))
      by (intros g Hg; specialize (Hgroup g ((nq + 1) * hd) hd Hg); lia).
    rewrite !narrow_data by (cbn [shape w4 nth]; lia).
    cbn [shape w4 nth firstn skipn data numel fold_right].
    rewrite !Nat.mul_1_r.
    f_equal; [|f_equal]; f_equal; apply map_ext; intros g;
      (f_equal; [ring | f_equal; ring]). }
  set (qd := data (narrow w4 1 0 nq)) in *.
  set (kd := data (narrow w4 1 nq 1)) in *.
  set (vd := data (narrow w4 1 (nq + 1) 1)) in *.
  change (size_at (narrow w4 1 0 nq) 2) with (Ok (T := nat) hd).
  change (size_at (narrow w4 1 0 nq) 3) with (Ok (T := nat) H).
  cbn [bind].
  assert (Eresh : reshape (narrow w4 1 0 nq) [Infer; Dim hd; Dim H]
                  = Ok (mkTensor [num_kv * nq; hd; H] qd))
    by (apply (@reshape_infer_front A (narrow w4 1 0 nq) [hd; H]); assumption).
  rewrite Eresh. cbn [bind].
  rewrite (@cat_three_rows A (mkTensor (num_kv * nq :: [hd; H]) qd)
             (mkTensor [num_kv; hd; H] kd) (mkTensor [num_kv; hd; H] vd)
             (num_kv * nq) num_kv num_kv [hd; H]);
    try reflexivity; try assumption; [|left; discriminate].
  cbn [bind size_at shape data getitem nth_error].
  assert (Eflat : reshape (mkTensor [num_kv * nq + (num_kv + num_kv); hd; H]
                             (qd ++ kd ++ vd)) [Infer; Dim H]
                  = Ok (mkTensor [lead; H] (qd ++ kd ++ vd))).
  { apply (@reshape_infer_front A (mkTensor _ (qd ++ kd ++ vd)) [H] lead);
      cbn [data numel fold_right]; [lia|].
    rewrite !length_app, Lq, Lk, Lv. unfold lead. cbn [numel fold_right]. ring. }
  rewrite Eflat. cbn [bind squeeze shape data]. now rewrite Edata.
Qed.

Lemma reshape_dims4_inv w a b c d w' :
  reshape w [Dim a; Dim b; Dim c; Dim d] = Ok w' ->
  length (data w) = numel [a; b; c; d] /\ w' = mkTensor [a; b; c; d] (data w).
Proof.
  unfold reshape, infer_size.
  cbn [map known_size is_infer count_occ].
  repeat match goal with
         | |- context [bool_dec ?x ?y] => destruct (bool_dec x y); [discriminate|]
         end.
  cbn [Nat.ltb Nat.leb Nat.eqb andb orb].
  rewrite orb_false_r.
  destruct (Nat.eqb_spec (length (data w)) (numel [a; b; c; d])) as [E|E];
    cbn [bind]; intros Hr; [|discriminate].
  apply ok_inj in Hr. now subst.
Qed.

Lemma reshape_infer_front_inv w (s : list nat) w' :
  reshape w (Infer :: map Dim s) = Ok w' -> 0 < numel s.
Proof.
  unfold reshape, infer_size.
  cbn [map known_size is_infer count_occ].
  destruct (bool_dec true true) as [_|Hf]; [|now elim Hf].
  rewrite known_size_dims, no_infer_dims.
  cbn [Nat.ltb Nat.leb Nat.eqb numel fold_right]. fold (numel s).
  destruct (_ || _); cbn [bind]; [|discriminate].
  destruct (Nat.eqb_spec (1 * numel s) 0); cbn [bind]; [discriminate|]. lia.
Qed.

(** The reassembler returns only when the configuration gives a
    positive key/value head count, a positive query head count and a
    positive head size, and the tensor is a vector of the fused length
    or a matrix with that many rows and more than one column.  Every
    other input raises. *)
Theorem shuffle_succeeds_only_on_fused w cfg out :
  shuffle_qkv_weights w cfg = Ok out ->
  exists num_kv,
    kv_heads cfg = Some num_kv
    /\ 0 < num_kv /\ 0 < num_attention_heads cfg /\ 0 < head_dim cfg
    /\ (shape w = [(num_q_per_kv cfg num_kv + 2) * num_kv * head_dim cfg]
        \/ exists H, 1 < H
             /\ shape w
                = [(num_q_per_kv cfg num_kv + 2) * num_kv * head_dim cfg; H]).
Proof.
  intros Hok. assert (Hrun := Hok). unfold shuffle_qkv_weights in Hrun.
  apply bind_ok_inv in Hrun as [num_kv [Ekv Hrun]].
  assert (Hkv : kv_heads cfg = Some num_kv).
  { unfold kv_heads. destruct (num_kv_heads cfg) as [n|].
    - now apply ok_inj in Ekv; subst.
    - unfold required in Ekv. destruct (num_key_value_heads cfg); [|discriminate].
      now apply ok_inj in Ekv; subst. }
  apply bind_ok_inv in Hrun as [nq [Enq Hrun]].
  apply bind_ok_inv in Hrun as [hd [Ehd Hrun]].
  unfold floordiv in Enq, Ehd.
  destruct (Nat.eqb_spec num_kv 0); [discriminate|].
  destruct (Nat.eqb_spec (num_attention_heads cfg) 0); [discriminate|].
  apply ok_inj in Enq. apply ok_inj in Ehd.
  fold (num_q_per_kv cfg num_kv) in Enq. fold (head_dim cfg) in Ehd.
  apply bind_ok_inv in Hrun as [w0 [Ew0 Hrun]].
  apply bind_ok_inv in Hrun as [last [Elast Hrun]].
  apply bind_ok_inv in Hrun as [w4 [Ew4 Hrun]].
  apply reshape_dims4_inv in Ew4 as [Hlen ->].
  apply bind_ok_inv in Hrun as [q [Eq Hrun]].
  apply bind_ok_inv in Hrun as [k [Ek Hrun]].
  apply bind_ok_inv in Hrun as [v [Ev Hrun]].
  apply bind_ok_inv in Hrun as [q2 [Eq2 Hrun]].
  apply bind_ok_inv in Hrun as [q3 [Eq3 Hrun]].
  apply bind_ok_inv in Hrun as [q' [Eq' _]].
  unfold slice_to_neg, slice in Eq. cbn [ndim shape length Nat.leb nth] in Eq.
  apply ok_inj in Eq. subst q.
  unfold size_at in Eq2, Eq3. cbn [narrow shape firstn skipn app getitem nth_error]
    in Eq2, Eq3.
  apply ok_inj in Eq2. apply ok_inj in Eq3. subst q2 q3.
  apply (@reshape_infer_front_inv _ [hd; last]) in Eq'.
  cbn [numel fold_right] in Eq'.
  assert (Hhd : 0 < hd) by nia. assert (Hl : 0 < last) by nia.
  subst nq hd.
  assert (Hdata : data w0 = data w /\
                  ((ndim w = 1 /\ last = 1)
                   \/ (2 <= ndim w /\ size_at_neg w 1 = Ok last))).
  { destruct (Nat.ltb_spec (ndim w) 2) as [Hlt|Hge].
    - unfold unsqueeze in Ew0.
      destruct (Nat.ltb_spec (ndim w) 1); [discriminate|].
      apply ok_inj in Ew0. subst w0. split; [reflexivity|left].
      split; [lia|].
      unfold ndim in *. destruct (shape w) as [|a [|? ?]] eqn:Es;
        cbn [length] in *; try lia.
      unfold size_at_neg in Elast. cbn in Elast. now apply ok_inj in Elast.
    - apply ok_inj in Ew0. subst w0. split; [reflexivity|right]. now split. }
  destruct Hdata as [Hd Hcase]. rewrite Hd in Hlen.
  exists num_kv. repeat split; try assumption; try lia.
  rewrite (@shuffle_normal_form_any w cfg num_kv last (data w)) in Hok;
    try assumption; try lia; try reflexivity.
  2:{ rewrite Hlen. cbn [numel fold_right]. ring. }
  cbv zeta in Hok.
  destruct (shape_eqb _ _) eqn:Hsh in Hok; [|discriminate].
  cbn [shape] in Hsh. apply shape_eqb_eq in Hsh.
  set (lead := (num_q_per_kv cfg num_kv + 2) * num_kv * head_dim cfg) in *.
  assert (Hlead : 2 <= lead) by (unfold lead; nia).
  cbn [filter] in Hsh.
  destruct (Nat.eqb_spec lead 1); [lia|]. cbn [negb] in Hsh.
  destruct (Nat.eqb_spec last 1); cbn [negb] in Hsh.
  - now left.
  - right. exists last. split; [lia|assumption].
Qed.

End ShuffleDomain.

Lemma shuffle_succeeds_only_on_fused_witness :
  exists num_kv,
    kv_heads scenario_config = Some num_kv
    /\ 0 < num_kv /\ 0 < num_attention_heads scenario_config
    /\ 0 < head_dim scenario_config
    /\ (shape (labelled 16 2)
        = [(num_q_per_kv scenario_config num_kv + 2) * num_kv
           * head_dim scenario_config]
        \/ exists H, 1 < H
             /\ shape (labelled 16 2)
                = [(num_q_per_kv scenario_config num_kv + 2) * num_kv
                   * head_dim scenario_config; H]).
Proof.
  eapply (@shuffle_succeeds_only_on_fused nat (labelled 16 2) scenario_config).
  vm_compute. reflexivity.
Defined.

Lemma grouped_order_single (nq hd : nat) :
  grouped_order 1 nq hd = seq 0 ((nq + 2) * hd).
Proof.
  unfold grouped_order. cbn [seq flat_map]. rewrite !app_nil_r.
  cbn [Nat.mul Nat.add].
  replace ((nq + 2) * hd) with (nq * hd + (hd + hd)) by lia.
  rewrite !seq_app. do 3 f_equal. lia.
Qed.

Section SingleGroup.

Context {A : Type}.

(** With a single key/value head there is one group, which is
    already in query, key, value order: the reassembler returns its
    input. *)
Theorem shuffle_single_group_identity (w : tensor A) cfg :
  kv_heads cfg = Some 1 ->
  0 < num_attention_heads cfg -> 0 < head_dim cfg ->
  wf w ->
  (shape w = [(num_q_per_kv cfg 1 + 2) * 1 * head_dim cfg]
   \/ exists H, 1 < H
        /\ shape w = [(num_q_per_kv cfg 1 + 2) * 1 * head_dim cfg; H]) ->
  shuffle_qkv_weights w cfg = Ok w.
Proof.
  intros Hkv Hnh Hhd Hwf Hshape.
  set (lead := (num_q_per_kv cfg 1 + 2) * 1 * head_dim cfg) in *.
  assert (Hlead : 2 <= lead) by (unfold lead; nia).
  assert (Hid : forall H (D : list A), length D = lead * H ->
            concat (gather (blocks lead H D)
                      (grouped_order 1 (num_q_per_kv cfg 1) (head_dim cfg))) = D).
  { intros H D HD. rewrite grouped_order_single.
    replace ((num_q_per_kv cfg 1 + 2) * head_dim cfg) with lead
      by (unfold lead; lia).
    rewrite <- (blocks_length lead H D) at 2.
    rewrite gather_all. now apply blocks_concat. }
  destruct w as [s D]. unfold wf in Hwf. cbn [shape data] in *.
  destruct Hshape as [->|[H [HH ->]]]; cbn [numel fold_right] in Hwf.
  - rewrite (@shuffle_normal_form A _ cfg 1 1 D) by (auto; lia).
    fold lead. cbn [filter shape Nat.eqb].
    destruct (Nat.eqb_spec lead 1); [lia|]. cbn [negb].
    rewrite shape_eqb_refl, Hid by lia. reflexivity.
  - rewrite (@shuffle_normal_form A _ cfg 1 H D) by (auto; lia).
    fold lead. cbn [filter shape].
    destruct (Nat.eqb_spec lead 1); [lia|].
    destruct (Nat.eqb_spec H 1); [lia|]. cbn [negb].
    rewrite shape_eqb_refl, Hid by lia. reflexivity.
Qed.

End SingleGroup.

Lemma shuffle_single_group_identity_witness :
  shuffle_qkv_weights (labelled 8 4) example_config = Ok (labelled 8 4).
Proof.
  apply (@shuffle_single_group_identity nat (labelled 8 4) example_config).
  - reflexivity.
  - vm_compute. lia.
  - vm_compute. lia.
  - reflexivity.
  - right. exists 4. split; [lia|reflexivity].
Defined.

(** ** The grouped-query split *)

Lemma seq_blocks_from (off n G : nat) :
  seq off (n * G) = flat_map (fun g => seq (off + g * G) G) (seq 0 n).
Proof.
  induction n as [|n IH]; [reflexivity|].
  rewrite seq_S, flat_map_app. cbn [flat_map]. rewrite app_nil_r, <- IH.
  replace (S n * G) with (n * G + G) by lia.
  now rewrite seq_app.
Qed.

Lemma qkv_shard_order_partition (nq block tp_size : nat) :
  0 < tp_size -> block mod tp_size = 0 ->
  Permutation (flat_map (qkv_shard_order nq block tp_size) (seq 0 tp_size))
              (seq 0 ((nq + 2) * block)).
Proof.
  intros Htp Hmod.
  assert (Hb : block = tp_size * (block / tp_size))
    by (apply Nat.Div0.div_exact; assumption).
  unfold qkv_shard_order. set (c := block / tp_size) in *.
  etransitivity; [apply flat_map_app_perm|].
  etransitivity; [apply Permutation_app_head, flat_map_app_perm|].
  replace ((nq + 2) * block) with (nq * block + (block + block)) by lia.
  rewrite !seq_app.
  assert (E1 : flat_map (fun r => seq (r * (nq * c)) (nq * c)) (seq 0 tp_size)
               = seq 0 (nq * block)).
  { rewrite Hb at 1.
    replace (nq * (tp_size * c)) with (tp_size * (nq * c)) by ring.
    now rewrite seq_blocks. }
  assert (E2 : forall off,
             flat_map (fun r => seq (off + r * c) c) (seq 0 tp_size)
             = seq off block).
  { intros off. rewrite Hb at 1. now rewrite seq_blocks_from. }
  rewrite E1, (E2 (nq * block)).
  replace (0 + nq * block + block) with ((nq + 1) * block) by lia.
  rewrite (E2 ((nq + 1) * block)). cbn [Nat.add]. reflexivity.
Qed.

Section GroupedQuerySplit.

Context {A : Type}.

Implicit Types (w b : tensor A).

Lemma rank_range (rank tp c : nat) : rank < tp -> rank * c + c <= tp * c.
Proof.
  intros Hr.
  assert ((rank + 1) * c <= tp * c) by (apply Nat.mul_le_mono_r; lia). lia.
Qed.

Lemma split_qkv_weight_gqa_shard w num_heads num_kv hidden tp_size rank block :
  0 < num_kv -> 0 < hidden ->
  0 < tp_size -> rank < tp_size -> block mod tp_size = 0 ->
  wf w -> shape w = [(num_heads / num_kv + 2) * block; hidden] ->
  exists shard,
    split_qkv_weight_gqa w num_heads num_kv hidden tp_size rank = Ok shard
    /\ shape shard = [(num_heads / num_kv + 2) * (block / tp_size); hidden]
    /\ rows shard
       = gather (rows w)
           (qkv_shard_order (num_heads / num_kv) block tp_size rank).
Proof.
  intros Hnkv Hh Htp Hr Hmod Hwf Hs.
  set (nq := num_heads / num_kv) in *.
  assert (Hb : block = tp_size * (block / tp_size))
    by (apply Nat.Div0.div_exact; assumption).
  set (c := block / tp_size) in *.
  pose proof (rank_range c Hr) as Hrc. rewrite <- Hb in Hrc.
  pose proof (rank_range (nq * c) Hr) as Hrq.
  replace (tp_size * (nq * c)) with (nq * block) in Hrq by (rewrite Hb; ring).
  destruct w as [s D]. unfold wf in Hwf. cbn [shape data] in *. subst s.
  cbn [numel fold_right] in Hwf.
  set (w3 := mkTensor [nq + 2; block; hidden] D).
  assert (Hwf3 : wf w3).
  { unfold wf, w3. cbn [shape data numel fold_right]. rewrite Hwf. ring. }
  set (qt := mkTensor [nq * block; hidden] (data (narrow w3 0 0 nq))).
  set (kt := mkTensor [block; hidden] (data (narrow w3 0 nq 1))).
  set (vt := mkTensor [block; hidden] (data (narrow w3 0 (nq + 1) 1))).
  assert (Lq : length (data (narrow w3 0 0 nq)) = nq * block * hidden).
  { rewrite narrow_length; cbn [ndim shape w3 length nth firstn skipn numel fold_right];
      try assumption; lia. }
  assert (Lk : length (data (narrow w3 0 nq 1)) = block * hidden).
  { rewrite narrow_length; cbn [ndim shape w3 length nth firstn skipn numel fold_right];
      try assumption; lia. }
  assert (Lv : length (data (narrow w3 0 (nq + 1) 1)) = block * hidden).
  { rewrite narrow_length; cbn [ndim shape w3 length nth firstn skipn numel fold_right];
      try assumption; lia. }
  assert (Wq : wf qt) by (unfold wf, qt; cbn [shape data numel fold_right]; lia).
  assert (Wk : wf kt) by (unfold wf, kt; cbn [shape data numel fold_right]; lia).
  assert (Wv : wf vt) by (unfold wf, vt; cbn [shape data numel fold_right]; lia).
  assert (Sq : split qt tp_size rank 0 = Ok (narrow qt 0 (rank * (nq * c)) (nq * c))).
  { apply (@split_even_any A qt tp_size rank 0 (nq * c)); try assumption.
    - cbn. lia.
    - cbn. rewrite Hb at 1. ring. }
  assert (Sk : split kt tp_size rank 0 = Ok (narrow kt 0 (rank * c) c)).
  { apply (@split_even_any A kt tp_size rank 0 c); try assumption; cbn; lia. }
  assert (Sv : split vt tp_size rank 0 = Ok (narrow vt 0 (rank * c) c)).
  { apply (@split_even_any A vt tp_size rank 0 c); try assumption; cbn; lia. }
  assert (Hrun : split_qkv_weight_gqa (mkTensor [(nq + 2) * block; hidden] D)
                   num_heads num_kv hidden tp_size rank
                 = cat [narrow qt 0 (rank * (nq * c)) (nq * c);
                        narrow kt 0 (rank * c) c; narrow vt 0 (rank * c) c] 0).
  { unfold split_qkv_weight_gqa, floordiv.
    destruct (Nat.eqb_spec num_kv 0); [lia|]. cbn [bind]. fold nq.
    assert (E3 : reshape (mkTensor [(nq + 2) * block; hidden] D)
                   [Dim (nq + 2); Infer; Dim hidden] = Ok w3).
    { apply (@reshape_infer A (mkTensor [(nq + 2) * block; hidden] D)
               [nq + 2] [hidden] block);
        cbn [data numel fold_right]; [nia|]. rewrite Hwf. ring. }
    rewrite E3. cbn [bind].
    rewrite !slice_ok by (cbn [ndim shape w3 length nth]; lia).
    cbn [bind].
    replace (nq - 0) with nq by lia.
    replace (nq + 1 - nq) with 1 by lia.
    replace (nq + 2 - (nq + 1)) with 1 by lia.
    assert (Rq : reshape (narrow w3 0 0 nq) [Infer; Dim hidden] = Ok qt).
    { apply (@reshape_infer_front A (narrow w3 0 0 nq) [hidden] (nq * block));
        cbn [numel fold_right]; lia. }
    assert (Rk : reshape (narrow w3 0 nq 1) [Infer; Dim hidden] = Ok kt).
    { apply (@reshape_infer_front A (narrow w3 0 nq 1) [hidden] block);
        cbn [numel fold_right]; lia. }
    assert (Rv : reshape (narrow w3 0 (nq + 1) 1) [Infer; Dim hidden] = Ok vt).
    { apply (@reshape_infer_front A (narrow w3 0 (nq + 1) 1) [hidden] block);
        cbn [numel fold_right]; lia. }
    rewrite Rq, Rk, Rv. cbn [bind]. rewrite Sq, Sk, Sv. reflexivity. }
  rewrite Hrun.
  rewrite (@cat_three_rows A _ _ _ (nq * c) c c [hidden]); try reflexivity.
  2-4: apply narrow_wf; try assumption; cbn; lia.
  2: left; discriminate.
  eexists. split; [reflexivity|]. split; [cbn [shape]; f_equal; lia|].
  unfold rows. cbn [shape data nth tl numel fold_right]. rewrite Nat.mul_1_r.
  assert (Edata : data (narrow qt 0 (rank * (nq * c)) (nq * c))
                  ++ data (narrow kt 0 (rank * c) c)
                  ++ data (narrow vt 0 (rank * c) c)
                  = concat (gather (blocks ((nq + 2) * block) hidden D)
                              (qkv_shard_order nq block tp_size rank))).
  { unfold qkv_shard_order. fold c. rewrite !gather_app, !concat_app.
    rewrite !gather_range by nia.
    rewrite !narrow_data by (cbn [shape qt kt vt nth]; lia).
    cbn [shape data qt kt vt nth firstn skipn numel fold_right seq map concat].
    rewrite !Nat.mul_1_r, !app_nil_r. cbn [Nat.mul Nat.add].
    rewrite !narrow_data by (cbn [shape w3 nth]; lia).
    cbn [shape data w3 nth firstn skipn numel fold_right seq map concat].
    rewrite !Nat.mul_1_r, !app_nil_r. cbn [Nat.mul Nat.add].
    assert (Bq : rank * (nq * c) * hidden + nq * c * hidden
                 <= nq * (block * hidden)).
    { assert ((rank * (nq * c) + nq * c) * hidden <= nq * block * hidden)
        by (apply Nat.mul_le_mono_r; lia). lia. }
    assert (Bk : rank * c * hidden + c * hidden <= 1 * (block * hidden)).
    { assert ((rank * c + c) * hidden <= block * hidden)
        by (apply Nat.mul_le_mono_r; lia). lia. }
    rewrite !firstn_skipn_firstn by (first [exact Bq | exact Bk | lia]).
    rewrite !skipn_skipn.
    f_equal; [|f_equal]; f_equal; f_equal; lia. }
  rewrite Edata.
  assert (Hlen : length (qkv_shard_order nq block tp_size rank) = nq * c + (c + c)).
  { unfold qkv_shard_order. fold c. now rewrite !length_app, !length_seq. }
  rewrite <- Hlen.
  rewrite <- (length_map (fun i => nth i (blocks ((nq + 2) * block) hidden D) [])).
  apply blocks_of_concat. apply gather_rows_length; [rewrite Hwf; ring|].
  intros i Hi. unfold qkv_shard_order in Hi. fold c in Hi.
  rewrite !in_app_iff, !in_seq in Hi. nia.
Qed.

Lemma split_qkv_bias_gqa_shard b num_heads num_kv tp_size rank block :
  0 < num_kv -> num_kv <= num_heads -> 0 < block ->
  0 < tp_size -> rank < tp_size -> block mod tp_size = 0 ->
  wf b -> shape b = [(num_heads / num_kv + 2) * block] ->
  exists shard,
    split_qkv_bias_gqa b num_heads num_kv tp_size rank = Ok shard
    /\ shape shard = [(num_heads / num_kv + 2) * (block / tp_size)]
    /\ rows shard
       = gather (rows b)
           (qkv_shard_order (num_heads / num_kv) block tp_size rank).
Proof.
  intros Hnkv Hle Hblock Htp Hr Hmod Hwf Hs.
  assert (Hnq : 0 < num_heads / num_kv).
  { apply Nat.div_str_pos. lia. }
  set (nq := num_heads / num_kv) in *.
  assert (Hb : block = tp_size * (block / tp_size))
    by (apply Nat.Div0.div_exact; assumption).
  set (c := block / tp_size) in *.
  assert (Hc : 0 < c) by nia.
  pose proof (rank_range c Hr) as Hrc. rewrite <- Hb in Hrc.
  pose proof (rank_range (nq * c) Hr) as Hrq.
  replace (tp_size * (nq * c)) with (nq * block) in Hrq by (rewrite Hb; ring).
  destruct b as [s D]. unfold wf in Hwf. cbn [shape data] in *. subst s.
  cbn [numel fold_right] in Hwf.
  set (b2 := mkTensor [nq + 2; block] D).
  assert (Hwf2 : wf b2).
  { unfold wf, b2. cbn [shape data numel fold_right]. rewrite Hwf. ring. }
  set (qt := mkTensor [nq * block] (data (narrow b2 0 0 nq))).
  set (kt := mkTensor [block] (data (narrow b2 0 nq 1))).
  set (vt := mkTensor [block] (data (narrow b2 0 (nq + 1) 1))).
  assert (Lq : length (data (narrow b2 0 0 nq)) = nq * block).
  { rewrite narrow_length; cbn [ndim shape b2 length nth firstn skipn numel fold_right];
      try assumption; lia. }
  assert (Lk : length (data (narrow b2 0 nq 1)) = block).
  { rewrite narrow_length; cbn [ndim shape b2 length nth firstn skipn numel fold_right];
      try assumption; lia. }
  assert (Lv : length (data (narrow b2 0 (nq + 1) 1)) = block).
  { rewrite narrow_length; cbn [ndim shape b2 length nth firstn skipn numel fold_right];
      try assumption; lia. }
  assert (Wq : wf qt) by (unfold wf, qt; cbn [shape data numel fold_right]; lia).
  assert (Wk : wf kt) by (unfold wf, kt; cbn [shape data numel fold_right]; lia).
  assert (Wv : wf vt) by (unfold wf, vt; cbn [shape data numel fold_right]; lia).
  assert (Sq : split qt tp_size rank 0 = Ok (narrow qt 0 (rank * (nq * c)) (nq * c))).
  { apply (@split_even_any A qt tp_size rank 0 (nq * c)); try assumption.
    - cbn. lia.
    - cbn. rewrite Hb at 1. ring. }
  assert (Sk : split kt tp_size rank 0 = Ok (narrow kt 0 (rank * c) c)).
  { apply (@split_even_any A kt tp_size rank 0 c); try assumption; cbn; lia. }
  assert (Sv : split vt tp_size rank 0 = Ok (narrow vt 0 (rank * c) c)).
  { apply (@split_even_any A vt tp_size rank 0 c); try assumption; cbn; lia. }
  assert (Hrun : split_qkv_bias_gqa (mkTensor [(nq + 2) * block] D)
                   num_heads num_kv tp_size rank
                 = cat [narrow qt 0 (rank * (nq * c)) (nq * c);
                        narrow kt 0 (rank * c) c; narrow vt 0 (rank * c) c] 0).
  { unfold split_qkv_bias_gqa, floordiv.
    destruct (Nat.eqb_spec num_kv 0); [lia|]. cbn [bind]. fold nq.
    assert (E2 : reshape (mkTensor [(nq + 2) * block] D)
                   [Dim (nq + 2); Infer] = Ok b2).
    { apply (@reshape_infer A (mkTensor [(nq + 2) * block] D) [nq + 2] [] block);
        cbn [data numel fold_right]; [nia|]. rewrite Hwf. ring. }
    rewrite E2. cbn [bind].
    rewrite !slice_ok by (cbn [ndim shape b2 length nth]; lia).
    cbn [bind].
    replace (nq - 0) with nq by lia.
    replace (nq + 1 - nq) with 1 by lia.
    replace (nq + 2 - (nq + 1)) with 1 by lia.
    assert (Rq : reshape (narrow b2 0 0 nq) [Infer] = Ok qt).
    { apply (@reshape_infer_front A (narrow b2 0 0 nq) [] (nq * block));
        cbn [numel fold_right]; lia. }
    assert (Rk : reshape (narrow b2 0 nq 1) [Infer] = Ok kt).
    { apply (@reshape_infer_front A (narrow b2 0 nq 1) [] block);
        cbn [numel fold_right]; lia. }
    assert (Rv : reshape (narrow b2 0 (nq + 1) 1) [Infer] = Ok vt).
    { apply (@reshape_infer_front A (narrow b2 0 (nq + 1) 1) [] block);
        cbn [numel fold_right]; lia. }
    rewrite Rq, Rk, Rv. cbn [bind]. rewrite Sq, Sk, Sv. reflexivity. }
  rewrite Hrun.
  rewrite (@cat_three_rows A _ _ _ (nq * c) c c []); try reflexivity.
  2-4: apply narrow_wf; try assumption; cbn; lia.
  2: right; nia.
  eexists. split; [reflexivity|]. split; [cbn [shape]; f_equal; lia|].
  unfold rows. cbn [shape data nth tl numel fold_right].
  assert (Edata : data (narrow qt 0 (rank * (nq * c)) (nq * c))
                  ++ data (narrow kt 0 (rank * c) c)
                  ++ data (narrow vt 0 (rank * c) c)
                  = concat (gather (blocks ((nq + 2) * block) 1 D)
                              (qkv_shard_order nq block tp_size rank))).
  { unfold qkv_shard_order. fold c. rewrite !gather_app, !concat_app.
    rewrite !gather_range by nia.
    rewrite !narrow_data by (cbn [shape qt kt vt nth]; lia).
    cbn [shape data qt kt vt nth firstn skipn numel fold_right seq map concat].
    rewrite !Nat.mul_1_r, !app_nil_r. cbn [Nat.mul Nat.add].
    rewrite !narrow_data by (cbn [shape b2 nth]; lia).
    cbn [shape data b2 nth firstn skipn numel fold_right seq map concat].
    rewrite !Nat.mul_1_r, !app_nil_r. cbn [Nat.mul Nat.add].
    rewrite !firstn_skipn_firstn by lia.
    rewrite !skipn_skipn.
    f_equal; [|f_equal]; f_equal; f_equal; lia. }
  rewrite Edata.
  assert (Hlen : length (qkv_shard_order nq block tp_size rank) = nq * c + (c + c)).
  { unfold qkv_shard_order. fold c. now rewrite !length_app, !length_seq. }
  rewrite <- Hlen.
  rewrite <- (length_map (fun i => nth i (blocks ((nq + 2) * block) 1 D) [])).
  apply blocks_of_concat. apply gather_rows_length; [rewrite Hwf; ring|].
  intros i Hi. unfold qkv_shard_order in Hi. fold c in Hi.
  rewrite !in_app_iff, !in_seq in Hi. nia.
Qed.

Lemma forall2_of_exists {B C : Type} (P : B -> C -> Prop) (l : list B) :
  (forall x, In x l -> exists y, P x y) -> exists ys, Forall2 P l ys.
Proof.
  induction l as [|x l IH]; intros Hex.
  - exists []. constructor.
  - destruct (Hex x (or_introl eq_refl)) as [y Hy].
    destruct IH as [ys Hys]; [intros z Hz; apply Hex; now right|].
    exists (y :: ys). now constructor.
Qed.

(** The grouped-query branch of the layer loop.  For a reassembled
    weight of [num_q_per_kv + 2] blocks of [block] rows and its bias,
    with a degree that divides [block], the shard of a rank is made of
    that rank's share of the query rows, then of the key rows, then of
    the value rows, in the order of the input. *)
Theorem split_qkv_gqa_rows w b num_heads num_kv hidden tp_size rank block :
  0 < num_kv -> num_kv <= num_heads -> 0 < hidden -> 0 < block ->
  0 < tp_size -> rank < tp_size -> block mod tp_size = 0 ->
  wf w -> shape w = [(num_heads / num_kv + 2) * block; hidden] ->
  wf b -> shape b = [(num_heads / num_kv + 2) * block] ->
  (exists shard,
      split_qkv_weight_gqa w num_heads num_kv hidden tp_size rank = Ok shard
      /\ shape shard = [(num_heads / num_kv + 2) * (block / tp_size); hidden]
      /\ rows shard
         = gather (rows w)
             (qkv_shard_order (num_heads / num_kv) block tp_size rank))
  /\ (exists shard,
        split_qkv_bias_gqa b num_heads num_kv tp_size rank = Ok shard
        /\ shape shard = [(num_heads / num_kv + 2) * (block / tp_size)]
        /\ rows shard
           = gather (rows b)
               (qkv_shard_order (num_heads / num_kv) block tp_size rank)).
Proof.
  intros. split.
  - now apply split_qkv_weight_gqa_shard.
  - now apply split_qkv_bias_gqa_shard.
Qed.

(** Taken over all ranks, the grouped-query shards hold every row of
    the reassembled weight exactly once. *)
Theorem split_qkv_gqa_shards_partition w num_heads num_kv hidden tp_size block :
  0 < num_kv -> 0 < hidden -> 0 < tp_size -> block mod tp_size = 0 ->
  wf w -> shape w = [(num_heads / num_kv + 2) * block; hidden] ->
  exists shards,
    Forall2 (fun rank shard =>
               split_qkv_weight_gqa w num_heads num_kv hidden tp_size rank
               = Ok shard)
            (seq 0 tp_size) shards
    /\ Permutation (concat (map rows shards)) (rows w).
Proof.
  intros Hnkv Hh Htp Hmod Hwf Hs.
  set (order := qkv_shard_order (num_heads / num_kv) block tp_size).
  destruct (@forall2_of_exists nat (tensor A)
              (fun rank shard =>
                 split_qkv_weight_gqa w num_heads num_kv hidden tp_size rank
                 = Ok shard
                 /\ rows shard = gather (rows w) (order rank))
              (seq 0 tp_size)) as [shards Hshards].
  { intros r Hr. apply in_seq in Hr.
    destruct (@split_qkv_weight_gqa_shard w num_heads num_kv hidden tp_size r block)
      as [shard [E [_ R]]]; try assumption; try lia.
    now exists shard. }
  exists shards. split.
  - eapply Forall2_impl; [|exact Hshards]. now intros r s [E _].
  - assert (Hrows : concat (map rows shards)
                    = gather (rows w) (flat_map order (seq 0 tp_size))).
    { clear -Hshards. induction Hshards as [|r s rs ss [_ R] _ IH];
        [reflexivity|].
      cbn [map concat flat_map]. now rewrite gather_app, R, IH. }
    rewrite Hrows.
    assert (Hlen : length (rows w) = (num_heads / num_kv + 2) * block).
    { unfold rows. rewrite blocks_length, Hs. reflexivity. }
    rewrite <- (gather_all (rows w)) at 2. rewrite Hlen.
    apply Permutation_map. now apply qkv_shard_order_partition.
Qed.

End GroupedQuerySplit.

Lemma split_qkv_gqa_rows_witness :
  (exists shard,
      split_qkv_weight_gqa (labelled 8 4) 2 1 4 2 1 = Ok shard
      /\ shape shard = [(2 / 1 + 2) * (2 / 2); 4]
      /\ rows shard = gather (rows (labelled 8 4)) (qkv_shard_order (2 / 1) 2 2 1))
  /\ (exists shard,
        split_qkv_bias_gqa (vector 8) 2 1 2 1 = Ok shard
        /\ shape shard = [(2 / 1 + 2) * (2 / 2)]
        /\ rows shard = gather (rows (vector 8)) (qkv_shard_order (2 / 1) 2 2 1)).
Proof.
  apply (@split_qkv_gqa_rows nat (labelled 8 4) (vector 8) 2 1 4 2 1 2);
    try reflexivity; lia.
Defined.

Lemma split_qkv_gqa_shards_partition_witness :
  exists shards,
    Forall2 (fun rank shard =>
               split_qkv_weight_gqa (labelled 8 4) 2 1 4 2 rank = Ok shard)
            (seq 0 2) shards
    /\ Permutation (concat (map rows shards)) (rows (labelled 8 4)).
Proof.
  apply (@split_qkv_gqa_shards_partition nat (labelled 8 4) 2 1 4 2 2);
    try reflexivity; lia.
Defined.

(** ** The quantizing packer *)

Lemma weight_key_not_scale_key (prefix : string) :
  String.eqb (String.append prefix ".weight")
             (String.append prefix ".per_channel_scale") = false.
Proof.
  apply String.eqb_neq. intros E. apply append_inj_l in E. discriminate.
Qed.

Lemma scale_key_not_bias_key (prefix : string) :
  String.eqb (String.append prefix ".per_channel_scale")
             (String.append prefix ".bias") = false.
Proof.
  apply String.eqb_neq. intros E. apply append_inj_l in E. discriminate.
Qed.

Section QuantizedPacker.

Context {A : Type} `{Numeric A}.

(** With weight-only quantization the packer hands the transposed
    weight to the quantization kernel and stores the two results of the
    kernel under [prefix + ".weight"] and [prefix + ".per_channel_scale"],
    with the bias under [prefix + ".bias"] exactly when there is one,
    and no other key. *)
Theorem linear_weight_quantized (weight transposed packed scale : tensor A)
    (prefix : string) (bias : option (tensor A)) (quant : option quant_type) :
  transpose weight = Ok transposed ->
  symmetric_quantize_last_axis_of_batched_matrix transposed quant
  = Ok (packed, scale) ->
  exists results,
    get_tllm_linear_weight weight prefix bias true quant = Ok results
    /\ get results (String.append prefix ".weight") = Some packed
    /\ get results (String.append prefix ".per_channel_scale") = Some scale
    /\ get results (String.append prefix ".bias") = bias
    /\ keys results
       = String.append prefix ".weight"
         :: String.append prefix ".per_channel_scale"
         :: match bias with
            | Some _ => [String.append prefix ".bias"]
            | None => []
            end.
Proof.
  intros Ht Eq. unfold get_tllm_linear_weight. rewrite Ht. cbn [bind].
  rewrite Eq. cbn [bind fst snd set].
  rewrite weight_key_not_scale_key.
  destruct bias as [b|]; eexists; (split; [reflexivity|]).
  - cbn [set]. rewrite weight_key_not_bias_key, scale_key_not_bias_key.
    cbn [get keys map fst].
    rewrite !String.eqb_refl, weight_key_not_scale_key,
      weight_key_not_bias_key, scale_key_not_bias_key.
    repeat split.
  - cbn [get keys map fst].
    rewrite !String.eqb_refl, weight_key_not_scale_key,
      weight_key_not_bias_key, scale_key_not_bias_key.
    repeat split.
Qed.

End QuantizedPacker.

Lemma linear_weight_quantized_witness :
  exists results,
    get_tllm_linear_weight (labelled 2 3) "fc" (Some (vector 2)) true (Some int8)
    = Ok results
    /\ get results "fc.weight" = Some (mkTensor [3; 2] [0; 1; 0; 1; 0; 1])
    /\ get results "fc.per_channel_scale" = Some (mkTensor [1] [1])
    /\ get results "fc.bias" = Some (vector 2)
    /\ keys results = ["fc.weight"; "fc.per_channel_scale"; "fc.bias"]%string.
Proof.
  apply (@linear_weight_quantized nat nat_numeric (labelled 2 3)
           (mkTensor [3; 2] [0; 1; 0; 1; 0; 1])
           (mkTensor [3; 2] [0; 1; 0; 1; 0; 1]) (mkTensor [1] [1])
           "fc" (Some (vector 2)) (Some int8)).
  - reflexivity.
  - reflexivity.
Defined.

(** ** Key rewriting *)

Lemma prefix_nil (s : string) : String.prefix "" s = true.
Proof.
  now destruct s.
Qed.

Lemma replace_from_absent (old new s : string) :
  contains old s = false -> replace_from old new 0 s = s.
Proof.
  induction s as [|c s IH]; intros Hc; [reflexivity|].
  cbn [contains] in Hc. apply orb_false_iff in Hc as [Hp Hrest].
  cbn [replace_from]. rewrite Hp. f_equal. now apply IH.
Qed.

Lemma replace_absent (s old new : string) :
  contains old s = false -> replace s old new = s.
Proof.
  intros Hc. destruct old as [|c old].
  - destruct s; cbn in Hc; discriminate.
  - now apply replace_from_absent.
Qed.

(** A key that contains none of "model.layers.",
    "model.embed_tokens.weight" and "model.final_layernorm." is kept as
    it is. *)
Theorem rename_key_passthrough (key : string) :
  contains "model.layers." key = false ->
  contains "model.embed_tokens.weight" key = false ->
  contains "model.final_layernorm." key = false ->
  rename_key key = key.
Proof.
  intros Hl He Hf. unfold rename_key. rewrite Hl.
  rewrite (@replace_absent key "model.embed_tokens.weight" _ He).
  now apply replace_absent.
Qed.

Lemma rename_key_passthrough_witness :
  rename_key "lm_head.weight" = "lm_head.weight"%string.
Proof.
  apply rename_key_passthrough; reflexivity.
Defined.

Lemma str_of_nat_digits (n : nat) : all_digits (str_of_nat n) = true.
Proof.
  unfold str_of_nat. generalize (Nat.to_uint n) as u.
  induction u as [|u IH|u IH|u IH|u IH|u IH|u IH|u IH|u IH|u IH|u IH];
    cbn [NilEmpty.string_of_uint all_digits]; try reflexivity;
    rewrite IH; reflexivity.
Qed.

Lemma append_assoc (a b c : string) :
  String.append (String.append a b) c = String.append a (String.append b c).
Proof.
  induction a as [|x a IH]; [reflexivity|]. cbn [String.append]. now rewrite IH.
Qed.

Lemma prefix_append (p s : string) : String.prefix p (String.append p s) = true.
Proof.
  induction p as [|c p IH]; [apply prefix_nil|].
  cbn [String.append String.prefix].
  destruct (ascii_dec c c); [exact IH|congruence].
Qed.

Lemma contains_prefix (sub s : string) :
  String.prefix sub s = true -> contains sub s = true.
Proof.
  intros Hp. destruct s; cbn [contains]; now rewrite Hp.
Qed.

Lemma prefix_digit_false (c d : ascii) (old rest : string) :
  is_digit c = false -> is_digit d = true ->
  String.prefix (String c old) (String d rest) = false.
Proof.
  intros Hc Hd. cbn [String.prefix].
  destruct (ascii_dec c d) as [->|]; [congruence|reflexivity].
Qed.

Lemma replace_from_digits (c : ascii) (old new ds rest : string) :
  is_digit c = false -> all_digits ds = true ->
  replace_from (String c old) new 0 (String.append ds rest)
  = String.append ds (replace_from (String c old) new 0 rest).
Proof.
  intros Hc. induction ds as [|d ds IH]; intros Hds; [reflexivity|].
  cbn [all_digits] in Hds. apply andb_prop in Hds as [Hd Hds].
  cbn [String.append replace_from].
  rewrite prefix_digit_false by assumption. f_equal. now apply IH.
Qed.

Lemma replace_from_skip (old new x s : string) :
  replace_from old new (String.length x) (String.append x s)
  = replace_from old new 0 s.
Proof.
  induction x as [|c x IH]; [reflexivity|].
  cbn [String.length String.append replace_from]. exact IH.
Qed.

(** An occurrence at the very start is replaced and scanning resumes
    after it. *)
Lemma replace_from_match (c : ascii) (old new s : string) :
  replace_from (String c old) new 0 (String.append (String c old) s)
  = String.append new (replace_from (String c old) new 0 s).
Proof.
  cbn [String.append]. cbn [replace_from].
  change (String c (String.append old s)) with (String.append (String c old) s).
  rewrite prefix_append. cbn [String.length Nat.sub].
  rewrite Nat.sub_0_r. now rewrite replace_from_skip.
Qed.

Lemma incompatible_prefix (u old s : string) :
  compatible u old = false -> u <> EmptyString ->
  String.prefix old (String.append u s) = false.
Proof.
  unfold compatible. revert old.
  induction u as [|c u IH]; intros old Hc Hne; [congruence|].
  apply orb_false_iff in Hc as [H1 H2].
  destruct old as [|a old]; [cbn in H2; discriminate|].
  cbn [String.append String.prefix] in *.
  destruct (ascii_dec a c) as [->|Hac]; [|reflexivity].
  destruct (ascii_dec c c) as [_|]; [|congruence].
  destruct u as [|c' u].
  - cbn in H1. now destruct old.
  - apply IH; [|discriminate]. now rewrite H1, H2.
Qed.

Lemma replace_from_clear (old new pre s : string) :
  clear_of old pre = true ->
  replace_from old new 0 (String.append pre s)
  = String.append pre (replace_from old new 0 s).
Proof.
  induction pre as [|c pre IH]; intros Hc; [reflexivity|].
  cbn [clear_of] in Hc. apply andb_prop in Hc as [Hinc Hrest].
  apply negb_true_iff in Hinc.
  cbn [String.append replace_from].
  change (String c (String.append pre s)) with (String.append (String c pre) s).
  rewrite incompatible_prefix by (assumption || discriminate).
  cbn [String.append]. f_equal. now apply IH.
Qed.

(** Rewriting a layer key: a text before the layer index that [old]
    cannot start in, the index, and the rest. *)
Lemma replace_layer_key (c : ascii) (old new pre ds rest : string) :
  is_digit c = false -> clear_of (String c old) pre = true ->
  all_digits ds = true ->
  replace (String.append pre (String.append ds rest)) (String c old) new
  = String.append pre (String.append ds (replace rest (String c old) new)).
Proof.
  intros Hc Hpre Hds. unfold replace.
  rewrite replace_from_clear by assumption.
  now rewrite replace_from_digits.
Qed.

(** For every layer index, the key rewriting sends the ten per-layer
    keys of a source checkpoint to their target keys:
    "model.layers.<i>.self_attn.query_key_value.weight" becomes
    "transformer.layers.<i>.attention.qkv.weight", and likewise for the
    attention output projection, the two MLP projections and the
    post-attention layer norm, weights and biases. *)
Theorem rename_key_layer_tensors (layer_id : nat) (hf trt : string) :
  In (hf, trt) layer_tensor_names ->
  rename_key (String.append "model.layers."
                (String.append (str_of_nat layer_id) hf))
  = String.append (layer_prefix layer_id) trt.
Proof.
  intros Hin. pose proof (str_of_nat_digits layer_id) as Hds.
  unfold layer_prefix. generalize dependent (str_of_nat layer_id). intros ds Hds.
  unfold rename_key.
  rewrite contains_prefix by apply prefix_append.
  assert (E1 : replace (String.append "model.layers." (String.append ds hf))
                 "model.layers." "transformer.layers."
               = String.append "transformer.layers."
                   (String.append ds (replace hf "model.layers." "transformer.layers."))).
  { unfold replace. rewrite replace_from_match.
    now rewrite replace_from_digits. }
  rewrite E1.
  rewrite !replace_layer_key by (assumption || reflexivity).
  rewrite !append_assoc. do 2 f_equal.
  unfold layer_tensor_names in Hin. cbn [In] in Hin.
  repeat (destruct Hin as [Hin|Hin]; [injection Hin as <- <-; reflexivity|]).
  contradiction.
Qed.

Lemma rename_key_layer_tensors_witness :
  rename_key (String.append "model.layers."
                (String.append (str_of_nat 17) ".mlp.down_proj.weight"))
  = String.append (layer_prefix 17) "mlp.proj.weight".
Proof.
  apply rename_key_layer_tensors. unfold layer_tensor_names. cbn [In]. tauto.
Defined.

(** ** The conversion end to end *)

Section DictKeys.

Context {V : Type}.

Implicit Types (d : dict V) (k : string) (v : V).

Lemma keys_set_in d k v k' :
  In k' (keys (set d k v)) <-> k' = k \/ In k' (keys d).
Proof.
  unfold keys. induction d as [|[k0 v0] d IH]; cbn [set map fst In].
  - intuition.
  - destruct (String.eqb k0 k) eqn:E; cbn [map fst In].
    + apply String.eqb_eq in E. subst k0. intuition.
    + rewrite IH. intuition.
Qed.

Lemma keys_set_nodup d k v : NoDup (keys d) -> NoDup (keys (set d k v)).
Proof.
  unfold keys. induction d as [|[k0 v0] d IH]; cbn [set map fst]; intros Hnd.
  - constructor; [intros []|constructor].
  - inversion Hnd as [|? ? Hnot Hrest]; subst.
    destruct (String.eqb k0 k) eqn:E; cbn [map fst].
    + now constructor.
    + constructor; [|now apply IH].
      intros Hin. apply (keys_set_in d k v k0) in Hin as [->|Hin].
      * now rewrite String.eqb_refl in E.
      * contradiction.
Qed.

Lemma get_some_in_keys d k v : get d k = Some v -> In k (keys d).
Proof.
  unfold keys. induction d as [|[k0 v0] d IH]; cbn [get map fst In]; [discriminate|].
  destruct (String.eqb k0 k) eqn:E.
  - apply String.eqb_eq in E. now left.
  - intros Hg. right. now apply IH.
Qed.

Lemma get_absent d k : ~ In k (keys d) -> get d k = None.
Proof.
  unfold keys. induction d as [|[k0 v0] d IH]; cbn [get map fst In]; intros Hn.
  - reflexivity.
  - destruct (String.eqb k0 k) eqn:E.
    + apply String.eqb_eq in E. exfalso. apply Hn. now left.
    + apply IH. intros Hin. apply Hn. now right.
Qed.

End DictKeys.

Section ConversionMore.

Context {A : Type} `{Numeric A}.

Implicit Types (weights : dict (tensor A)).

Lemma rename_state_dict_nodup (sd : list (string * tensor A)) d :
  NoDup (keys (rename_state_dict sd d)).
Proof.
  unfold rename_state_dict.
  assert (Hgen : forall acc : dict (tensor A),
            NoDup (keys acc) ->
            NoDup (keys (fold_left
                           (fun weights kv =>
                              set weights (rename_key (fst kv)) (to (snd kv) d))
                           sd acc))).
  { induction sd as [|kv sd IH]; intros acc Hacc; [exact Hacc|].
    cbn [fold_left]. apply IH. now apply keys_set_nodup. }
  apply Hgen. constructor.
Qed.

Lemma shuffle_entries_untouched cfg (ks : list string) :
  forall weights weights' (k : string),
    shuffle_entries cfg weights ks = Ok weights' ->
    ~ In k ks -> get weights' k = get weights k.
Proof.
  induction ks as [|key ks IH]; intros weights weights' k Hs Hk.
  - apply ok_inj in Hs. now subst.
  - cbn [shuffle_entries] in Hs. apply bind_ok_inv in Hs as [w1 [E1 Hs]].
    rewrite (IH _ _ _ Hs) by (intros Hin; apply Hk; now right).
    destruct (contains "qkv." key).
    + bind_inv E1. apply ok_inj in E1. subst w1.
      apply get_set_other. intros ->. apply Hk. now left.
    + apply ok_inj in E1. now subst.
Qed.

(** Every entry the loop visits and whose key contains "qkv." has been
    reassembled when the loop returns. *)
Lemma shuffle_entries_reassembled cfg (ks : list string) :
  NoDup ks ->
  forall weights weights' (k : string),
    shuffle_entries cfg weights ks = Ok weights' ->
    In k ks -> contains "qkv." k = true ->
    exists t s,
      get weights k = Some t
      /\ shuffle_qkv_weights t cfg = Ok s
      /\ get weights' k = Some s.
Proof.
  induction 1 as [|key ks Hnot Hnd IH]; intros weights weights' k Hs Hin Hq.
  - destruct Hin.
  - cbn [shuffle_entries] in Hs. apply bind_ok_inv in Hs as [w1 [E1 Hs]].
    destruct Hin as [->|Hin].
    + rewrite Hq in E1. bind_inv E1. apply ok_inj in E1. subst w1.
      unfold lookup in E. destruct (get weights k) as [t|] eqn:G; [|discriminate].
      apply ok_inj in E. subst x.
      exists t, x0. repeat split; try assumption.
      erewrite shuffle_entries_untouched; [|exact Hs|exact Hnot]. apply get_set_same.
    + destruct (IH _ _ _ Hs Hin Hq) as [t [s [G [E S]]]].
      exists t, s. repeat split; try assumption.
      rewrite <- G. symmetry.
      assert (Hne : key <> k) by (intros ->; contradiction).
      destruct (contains "qkv." key).
      * bind_inv E1. apply ok_inj in E1. subst w1. now apply get_set_other.
      * apply ok_inj in E1. now subst.
Qed.

(** The entries [split_weights_tp] leaves alone. *)
Lemma split_weights_tp_other cfg weights args rank d out (k : string) :
  split_weights_tp cfg weights args rank d = Ok out ->
  String.prefix "transformer.layers." k = false ->
  k <> "transformer.vocab_embedding.weight"%string ->
  k <> "lm_head.weight"%string ->
  get out k = get weights k.
Proof.
  unfold split_weights_tp. cbv zeta. intros Hs Hk Hne1 Hne2.
  apply bind_ok_inv in Hs as [num_kv [Ekv Hs]].
  apply bind_ok_inv in Hs as [w1 [El Hs]].
  apply bind_ok_inv in Hs as [emb [Eemb Hs]].
  apply bind_ok_inv in Hs as [emb' [Eemb' Hs]].
  apply bind_ok_inv in Hs as [head [Ehead Hs]].
  apply bind_ok_inv in Hs as [shard [Eshard Hs]].
  apply ok_inj in Hs. subst out.
  rewrite !get_set_other by congruence.
  eapply split_layers_other; eassumption.
Qed.

(** A checkpoint none of whose keys is renamed to
    "transformer.vocab_embedding.weight" makes the conversion raise
    [KeyError], before any tensor is reassembled or split. *)
Theorem convert_requires_embedding (sd : list (string * tensor A)) cfg
    (args : arguments) (rank : nat) d :
  str_dtype_to_torch (dtype args) = Ok d ->
  source_entry sd "transformer.vocab_embedding.weight" = None ->
  convert_hf_weights sd cfg args rank = Err KeyError.
Proof.
  intros Ed Hsrc. unfold convert_hf_weights. rewrite Ed. cbn [bind].
  unfold lookup. rewrite rename_state_dict_get, Hsrc. reflexivity.
Qed.

(** In a converted checkpoint every rank holds the whole embedding
    table of the source, cast to the requested type. *)
Theorem convert_keeps_embedding_whole (sd : list (string * tensor A)) cfg
    (args : arguments) (rank : nat) out :
  convert_hf_weights sd cfg args rank = Ok out ->
  exists d source,
    str_dtype_to_torch (dtype args) = Ok d
    /\ source_entry sd "transformer.vocab_embedding.weight" = Some source
    /\ get out "transformer.vocab_embedding.weight" = Some (to source d).
Proof.
  intros Hc. unfold convert_hf_weights in Hc. cbv zeta in Hc.
  apply bind_ok_inv in Hc as [d [Ed Hc]].
  apply bind_ok_inv in Hc as [emb [Eemb Hc]].
  apply bind_ok_inv in Hc as [w2 [Esh Hc]].
  destruct (@split_weights_tp_entries A _ cfg w2 args rank d out Hc)
    as [emb2 [head [shard [G1 [G2 [G3 [Es G4]]]]]]].
  erewrite shuffle_entries_other in G1; [|exact Esh|reflexivity].
  rewrite get_set_other in G1 by discriminate.
  rewrite rename_state_dict_get in G1.
  destruct (source_entry sd "transformer.vocab_embedding.weight") as [source|];
    [|discriminate].
  cbn [option_map] in G1. apply (f_equal (fun o => o)) in G1.
  injection G1 as <-.
  now exists d, source.
Qed.

(** An entry that is neither a per-layer tensor nor a fused QKV
    tensor nor one of the two vocabulary matrices, the final layer norm
    for instance, reaches the result cast to the requested type and
    otherwise unchanged, on every rank. *)
Theorem convert_passes_other_entries (sd : list (string * tensor A)) cfg
    (args : arguments) (rank : nat) out (k : string) :
  convert_hf_weights sd cfg args rank = Ok out ->
  String.prefix "transformer.layers." k = false ->
  contains "qkv." k = false ->
  k <> "transformer.vocab_embedding.weight"%string ->
  k <> "lm_head.weight"%string ->
  exists d,
    str_dtype_to_torch (dtype args) = Ok d
    /\ get out k = option_map (fun t => to t d) (source_entry sd k).
Proof.
  intros Hc Hk Hq Hne1 Hne2. unfold convert_hf_weights in Hc. cbv zeta in Hc.
  apply bind_ok_inv in Hc as [d [Ed Hc]].
  apply bind_ok_inv in Hc as [emb [Eemb Hc]].
  apply bind_ok_inv in Hc as [w2 [Esh Hc]].
  exists d. split; [assumption|].
  erewrite split_weights_tp_other; [|exact Hc|exact Hk|exact Hne1|exact Hne2].
  erewrite shuffle_entries_other; [|exact Esh|exact Hq].
  rewrite get_set_other by congruence.
  apply rename_state_dict_get.
Qed.

(** The reassembler accepts the key/value head count under either
    of two names, the splitter reads "num_kv_heads" only: for a
    configuration that has the count under "num_key_value_heads" alone
    the splitter raises [KeyError], and the conversion never
    returns. *)
Theorem convert_needs_num_kv_heads_key cfg :
  num_kv_heads cfg = None ->
  (forall weights (args : arguments) (rank : nat) (d : torch_dtype),
      split_weights_tp cfg weights args rank d = Err KeyError)
  /\ (forall (sd : list (string * tensor A)) (args : arguments) (rank : nat) out,
        convert_hf_weights sd cfg args rank <> Ok out).
Proof.
  intros Hnone.
  assert (Hsplit : forall weights (args : arguments) (rank : nat) (d : torch_dtype),
             split_weights_tp cfg weights args rank d = Err KeyError).
  { intros. unfold split_weights_tp. now rewrite Hnone. }
  split; [exact Hsplit|].
  intros sd args rank out Hc. unfold convert_hf_weights in Hc. cbv zeta in Hc.
  apply bind_ok_inv in Hc as [d [Ed Hc]].
  apply bind_ok_inv in Hc as [emb [Eemb Hc]].
  apply bind_ok_inv in Hc as [w2 [Esh Hc]].
  rewrite Hsplit in Hc. discriminate.
Qed.

(** When the conversion returns, every source entry whose renamed
    key contains "qkv." has been accepted by the reassembler, so it has
    the fused layout of the configuration. *)
Theorem convert_reassembles_every_qkv_entry (sd : list (string * tensor A)) cfg
    (args : arguments) (rank : nat) out (k : string) (source : tensor A) :
  convert_hf_weights sd cfg args rank = Ok out ->
  contains "qkv." k = true ->
  source_entry sd k = Some source ->
  exists d reassembled,
    str_dtype_to_torch (dtype args) = Ok d
    /\ shuffle_qkv_weights (to source d) cfg = Ok reassembled.
Proof.
  intros Hc Hq Hsrc. unfold convert_hf_weights in Hc. cbv zeta in Hc.
  apply bind_ok_inv in Hc as [d [Ed Hc]].
  apply bind_ok_inv in Hc as [emb [Eemb Hc]].
  apply bind_ok_inv in Hc as [w2 [Esh _]].
  assert (Hne : "lm_head.weight"%string <> k).
  { intros <-. discriminate. }
  assert (Hget : get (set (rename_state_dict sd d) "lm_head.weight" emb) k
                 = Some (to source d)).
  { rewrite get_set_other by assumption.
    now rewrite rename_state_dict_get, Hsrc. }
  assert (Hnd : NoDup (keys (set (rename_state_dict sd d) "lm_head.weight" emb)))
    by apply keys_set_nodup, rename_state_dict_nodup.
  assert (Hin : In k (keys (set (rename_state_dict sd d) "lm_head.weight" emb)))
    by (eapply get_some_in_keys; exact Hget).
  destruct (@shuffle_entries_reassembled cfg _ Hnd _ _ k Esh Hin Hq)
    as [t [s [G [E _]]]].
  rewrite Hget in G. injection G as <-.
  now exists d, s.
Qed.

End ConversionMore.

Lemma convert_requires_embedding_witness :
  convert_hf_weights [("lm_head.weight"%string, labelled 6 4)]
    example_config example_args 0 = Err KeyError.
Proof.
  apply (@convert_requires_embedding nat nat_numeric
           [("lm_head.weight"%string, labelled 6 4)] example_config
           example_args 0 tt).
  - reflexivity.
  - reflexivity.
Defined.

Lemma convert_keeps_embedding_whole_witness :
  exists d source,
    str_dtype_to_torch (dtype example_args) = Ok d
    /\ source_entry example_state_dict "transformer.vocab_embedding.weight"
       = Some source
    /\ get example_convert_output "transformer.vocab_embedding.weight"
       = Some (to source d).
Proof.
  apply (@convert_keeps_embedding_whole nat nat_numeric example_state_dict
           example_config example_args 1 example_convert_output).
  vm_compute. reflexivity.
Defined.

Lemma convert_passes_other_entries_witness :
  exists d,
    str_dtype_to_torch (dtype example_args) = Ok d
    /\ get example_convert_output "transformer.ln_f.weight"
       = option_map (fun t => to t d)
           (source_entry example_state_dict "transformer.ln_f.weight").
Proof.
  apply (@convert_passes_other_entries nat nat_numeric example_state_dict
           example_config example_args 1 example_convert_output).
  - vm_compute. reflexivity.
  - reflexivity.
  - reflexivity.
  - discriminate.
  - discriminate.
Defined.

Lemma convert_needs_num_kv_heads_key_witness :
  (forall weights (args : arguments) (rank : nat) (d : torch_dtype),
      split_weights_tp alt_key_config weights args rank d = Err KeyError)
  /\ (forall (sd : list (string * tensor nat)) (args : arguments) (rank : nat)
        out,
        convert_hf_weights sd alt_key_config args rank <> Ok out).
Proof.
  apply (@convert_needs_num_kv_heads_key nat nat_numeric alt_key_config).
  reflexivity.
Defined.

Lemma convert_reassembles_every_qkv_entry_witness :
  exists d reassembled,
    str_dtype_to_torch (dtype example_args) = Ok d
    /\ shuffle_qkv_weights (to (labelled 8 4) d) example_config = Ok reassembled.
Proof.
  apply (@convert_reassembles_every_qkv_entry nat nat_numeric example_state_dict
           example_config example_args 1 example_convert_output
           "transformer.layers.0.attention.qkv.weight" (labelled 8 4)).
  - vm_compute. reflexivity.
  - reflexivity.
  - reflexivity.
Defined.

(** ** The sharding plan of the layer loop *)

Lemma str_of_nat_inj (i j : nat) : str_of_nat i = str_of_nat j -> i = j.
Proof.
  unfold str_of_nat. intros E.
  apply (f_equal NilEmpty.uint_of_string) in E.
  rewrite !NilEmpty.usu in E. injection E as E.
  apply (f_equal Nat.of_uint) in E.
  now rewrite !DecimalNat.Unsigned.of_to in E.
Qed.

Lemma digits_before_dot (a b x y : string) :
  all_digits a = true -> all_digits b = true ->
  String.append a (String "." x) = String.append b (String "." y) -> a = b.
Proof.
  revert b. induction a as [|c a IH]; intros [|c' b] Ha Hb E;
    cbn [String.append all_digits] in *.
  - reflexivity.
  - injection E as <- _. apply andb_true_iff in Hb as [Hb _]. discriminate.
  - injection E as -> _. apply andb_true_iff in Ha as [Ha _]. discriminate.
  - injection E as <- E.
    apply andb_true_iff in Ha as [_ Ha]. apply andb_true_iff in Hb as [_ Hb].
    f_equal. now apply IH.
Qed.

Lemma layer_prefix_inj (i j : nat) (x y : string) :
  String.append (layer_prefix i) x = String.append (layer_prefix j) y -> i = j.
Proof.
  unfold layer_prefix. rewrite !append_assoc. intros E.
  apply append_inj_l in E. cbn [String.append] in E.
  apply str_of_nat_inj.
  eapply digits_before_dot; [apply str_of_nat_digits..|exact E].
Qed.

Lemma layer_key_neq (i : nat) (n1 s1 n2 s2 : string) :
  String.append n1 s1 <> String.append n2 s2 ->
  String.append (String.append (layer_prefix i) n1) s1
  <> String.append (String.append (layer_prefix i) n2) s2.
Proof.
  intros Hne E. rewrite !append_assoc in E. apply append_inj_l in E.
  now apply Hne.
Qed.

Section ShardingPlan.

Context {A : Type} `{Numeric A}.

Implicit Types (weights : dict (tensor A)).

(** Without quantization the packed mapping is the weight and the
    bias under the two keys of the prefix. *)
Lemma update_packed_plain weights (w b : tensor A) prefix quant packed :
  get_tllm_linear_weight w prefix (Some b) false quant = Ok packed ->
  update weights packed
  = set (set weights (String.append prefix ".weight") w)
        (String.append prefix ".bias") b.
Proof.
  unfold get_tllm_linear_weight. cbn [bind set]. rewrite weight_key_not_bias_key.
  intros E. apply ok_inj in E. subst packed. reflexivity.
Qed.

Lemma get_weight_and_bias_inv weights prefix d (wb : tensor A * tensor A) :
  get_weight_and_bias weights prefix d = Ok wb ->
  exists w b,
    get weights (String.append prefix ".weight") = Some w
    /\ get weights (String.append prefix ".bias") = Some b
    /\ wb = (to w d, to b d).
Proof.
  unfold get_weight_and_bias, get_weight, get_bias, lookup. intros E.
  destruct (get weights (String.append prefix ".weight")) as [w|];
    [|discriminate].
  destruct (get weights (String.append prefix ".bias")) as [b|];
    [|discriminate].
  cbn [bind] in E. apply ok_inj in E. now exists w, b.
Qed.


Ltac solve_layer_key_neq :=
  apply layer_key_neq; cbn [String.append]; discriminate.

Ltac layer_get :=
  repeat (rewrite get_set_other by solve_layer_key_neq);
  try apply get_set_same.

(** One iteration of the layer loop, without quantization. *)
Lemma split_layer_plan num_heads num_kv hidden args rank d weights layer_id
    weights' (name : string) (axis : option nat) :
  use_weight_only args = false ->
  split_layer num_heads num_kv hidden args rank d weights layer_id = Ok weights' ->
  In (name, axis) layer_sharding ->
  exists source shard,
    get weights (String.append (layer_prefix layer_id) name) = Some source
    /\ get weights' (String.append (layer_prefix layer_id) name) = Some shard
    /\ match axis with
       | Some a => split (to source d) (tp_size args) rank a = Ok shard
       | None => shard = to source d
       end.
Proof.
  intros Huwo Hl Hin. unfold split_layer in Hl. cbv zeta in Hl.
  rewrite Huwo in Hl.
  apply bind_ok_inv in Hl as [qkv [Eqkv Hl]].
  apply bind_ok_inv in Hl as [sqkv [Esqkv Hl]].
  apply bind_ok_inv in Hl as [p1 [Ep1 Hl]].
  apply bind_ok_inv in Hl as [dense [Edense Hl]].
  apply bind_ok_inv in Hl as [sdense [Esdense Hl]].
  apply bind_ok_inv in Hl as [p2 [Ep2 Hl]].
  apply bind_ok_inv in Hl as [fc [Efc Hl]].
  apply bind_ok_inv in Hl as [sfc [Esfc Hl]].
  apply bind_ok_inv in Hl as [sfcb [Esfcb Hl]].
  apply bind_ok_inv in Hl as [p3 [Ep3 Hl]].
  apply bind_ok_inv in Hl as [proj [Eproj Hl]].
  apply bind_ok_inv in Hl as [sproj [Esproj Hl]].
  apply bind_ok_inv in Hl as [p4 [Ep4 Hl]].
  apply ok_inj in Hl. subst weights'.
  rewrite (update_packed_plain _ Ep4).
  rewrite (update_packed_plain _ Ep3) in *.
  rewrite (update_packed_plain _ Ep2) in *.
  rewrite (update_packed_plain _ Ep1) in *.
  clear Ep1 Ep2 Ep3 Ep4 Eqkv Esqkv.
  apply get_weight_and_bias_inv in Edense as (dw & db & Gdw & Gdb & ->).
  apply get_weight_and_bias_inv in Efc as (fw & fb & Gfw & Gfb & ->).
  apply get_weight_and_bias_inv in Eproj as (pw & pb & Gpw & Gpb & ->).
  cbn [fst snd] in *. unfold split_matrix_tp in *.
  repeat (rewrite get_set_other in Gdw by solve_layer_key_neq).
  repeat (rewrite get_set_other in Gdb by solve_layer_key_neq).
  repeat (rewrite get_set_other in Gfw by solve_layer_key_neq).
  repeat (rewrite get_set_other in Gfb by solve_layer_key_neq).
  repeat (rewrite get_set_other in Gpw by solve_layer_key_neq).
  repeat (rewrite get_set_other in Gpb by solve_layer_key_neq).
  unfold layer_sharding in Hin. cbn [In] in Hin.
  destruct Hin as [Hin|[Hin|[Hin|[Hin|[Hin|[Hin|[]]]]]]];
    injection Hin as <- <-.
  - change "attention.dense.weight"%string
      with (String.append "attention.dense" ".weight").
    rewrite <- append_assoc. exists dw, sdense.
    split; [exact Gdw|]. split; [|exact Esdense]. layer_get.
  - change "attention.dense.bias"%string
      with (String.append "attention.dense" ".bias").
    rewrite <- append_assoc. exists db, (to db d).
    split; [exact Gdb|]. split; [|reflexivity]. layer_get.
  - change "mlp.fc.weight"%string with (String.append "mlp.fc" ".weight").
    rewrite <- append_assoc. exists fw, sfc.
    split; [exact Gfw|]. split; [|exact Esfc]. layer_get.
  - change "mlp.fc.bias"%string with (String.append "mlp.fc" ".bias").
    rewrite <- append_assoc. exists fb, sfcb.
    split; [exact Gfb|]. split; [|exact Esfcb]. layer_get.
  - change "mlp.proj.weight"%string with (String.append "mlp.proj" ".weight").
    rewrite <- append_assoc. exists pw, sproj.
    split; [exact Gpw|]. split; [|exact Esproj]. layer_get.
  - change "mlp.proj.bias"%string with (String.append "mlp.proj" ".bias").
    rewrite <- append_assoc. exists pb, (to pb d).
    split; [exact Gpb|]. split; [|reflexivity]. layer_get.
Qed.


(** The iterations of other layers leave the keys of a layer alone. *)
Lemma update_packed_other_layer weights (w : tensor A) (j : nat)
    (nm : string) bias uwo quant packed (i : nat) (name : string) :
  get_tllm_linear_weight w (String.append (layer_prefix j) nm) bias uwo quant
  = Ok packed ->
  i <> j ->
  get (update weights packed) (String.append (layer_prefix i) name)
  = get weights (String.append (layer_prefix i) name).
Proof.
  intros Hp Hij. apply get_update_other. intros kv Hkv Heq.
  destruct (@packed_keys _ _ _ _ _ _ _ _ Hp kv Hkv) as [suffix Hs].
  rewrite Heq, append_assoc in Hs. apply layer_prefix_inj in Hs.
  now apply Hij.
Qed.

Lemma split_layer_other_layer num_heads num_kv hidden args rank d weights
    (j : nat) weights' (i : nat) (name : string) :
  split_layer num_heads num_kv hidden args rank d weights j = Ok weights' ->
  i <> j ->
  get weights' (String.append (layer_prefix i) name)
  = get weights (String.append (layer_prefix i) name).
Proof.
  unfold split_layer. cbv zeta. intros Hl Hij.
  bind_inv Hl. apply ok_inj in Hl. subst weights'.
  repeat (erewrite update_packed_other_layer; [|eassumption|exact Hij]).
  reflexivity.
Qed.

Lemma split_layers_other_layers num_heads num_kv hidden args rank d
    (layer_ids : list nat) (i : nat) (name : string) :
  forall weights weights',
    split_layers num_heads num_kv hidden args rank d weights layer_ids
    = Ok weights' ->
    ~ In i layer_ids ->
    get weights' (String.append (layer_prefix i) name)
    = get weights (String.append (layer_prefix i) name).
Proof.
  induction layer_ids as [|j ids IH]; intros weights weights' Hl Hnin.
  - apply ok_inj in Hl. now subst.
  - cbn [split_layers] in Hl. apply bind_ok_inv in Hl as [w1 [E1 Hl]].
    rewrite (IH _ _ Hl) by (intros Hin; apply Hnin; now right).
    eapply split_layer_other_layer; [exact E1|].
    intros ->. apply Hnin. now left.
Qed.

(** In a run of the layer loop over distinct layers, the iteration
    of a layer reads the entries of that layer as the caller passed
    them, and what it writes under the keys of the layer is what the
    loop returns there. *)
Lemma split_layers_local num_heads num_kv hidden args rank d
    (layer_ids : list nat) (i : nat) :
  forall weights weights',
    split_layers num_heads num_kv hidden args rank d weights layer_ids
    = Ok weights' ->
    NoDup layer_ids -> In i layer_ids ->
    exists before after,
      split_layer num_heads num_kv hidden args rank d before i = Ok after
      /\ (forall name : string,
            get before (String.append (layer_prefix i) name)
            = get weights (String.append (layer_prefix i) name))
      /\ (forall name : string,
            get weights' (String.append (layer_prefix i) name)
            = get after (String.append (layer_prefix i) name)).
Proof.
  induction layer_ids as [|j ids IH]; intros weights weights' Hl Hnd Hin.
  - destruct Hin.
  - cbn [split_layers] in Hl. apply bind_ok_inv in Hl as [w1 [E1 Hl]].
    inversion Hnd as [|? ? Hnot Hrest]; subst.
    destruct (Nat.eq_dec i j) as [->|Hij].
    + exists weights, w1. split; [exact E1|]. split; [reflexivity|].
      intros name. eapply split_layers_other_layers; [exact Hl|exact Hnot].
    + destruct Hin as [->|Hin]; [congruence|].
      destruct (IH _ _ Hl Hrest Hin) as (before & after & E & Hb & Ha).
      exists before, after. split; [exact E|]. split; [|exact Ha].
      intros name. rewrite Hb.
      eapply split_layer_other_layer; [exact E1|exact Hij].
Qed.

Lemma split_weights_tp_local cfg weights (args : arguments) (rank : nat) d out
    (layer_id : nat) :
  split_weights_tp cfg weights args rank d = Ok out ->
  layer_id < num_hidden_layers cfg ->
  exists num_kv before after,
    num_kv_heads cfg = Some num_kv
    /\ split_layer (num_attention_heads cfg) num_kv (hidden_size cfg) args rank
         d before layer_id = Ok after
    /\ (forall name : string,
          get before (String.append (layer_prefix layer_id) name)
          = get weights (String.append (layer_prefix layer_id) name))
    /\ (forall name : string,
          get out (String.append (layer_prefix layer_id) name)
          = get after (String.append (layer_prefix layer_id) name)).
Proof.
  intros Hs Hlt. unfold split_weights_tp in Hs. cbv zeta in Hs.
  apply bind_ok_inv in Hs as [num_kv [Ekv Hs]].
  apply bind_ok_inv in Hs as [w1 [El Hs]].
  apply bind_ok_inv in Hs as [emb [Eemb Hs]].
  apply bind_ok_inv in Hs as [emb' [Eemb' Hs]].
  apply bind_ok_inv in Hs as [head [Ehead Hs]].
  apply bind_ok_inv in Hs as [shard' [Eshard Hs]].
  apply ok_inj in Hs. subst out.
  assert (Hin : In layer_id (seq 0 (num_hidden_layers cfg)))
    by (apply in_seq; lia).
  destruct (@split_layers_local _ _ _ _ _ _ _ _ _ _ El (seq_NoDup _ _) Hin)
    as (before & after & E & Hb & Ha).
  exists num_kv, before, after.
  split.
  { unfold required in Ekv. destruct (num_kv_heads cfg); [|discriminate].
    apply ok_inj in Ekv. now subst. }
  split; [exact E|]. split; [exact Hb|].
  intros name. rewrite <- Ha.
  rewrite !get_set_other; [reflexivity| |];
    unfold layer_prefix; rewrite append_assoc; cbn [String.append];
    discriminate.
Qed.

(** One iteration of the layer loop, without quantization: the fused
    QKV entries. *)
Lemma split_layer_qkv num_heads num_kv hidden args rank d weights layer_id
    weights' :
  use_weight_only args = false ->
  split_layer num_heads num_kv hidden args rank d weights layer_id = Ok weights' ->
  exists w b sw sb,
    get weights (String.append (layer_prefix layer_id) "attention.qkv.weight")
    = Some w
    /\ get weights (String.append (layer_prefix layer_id) "attention.qkv.bias")
       = Some b
    /\ get weights' (String.append (layer_prefix layer_id) "attention.qkv.weight")
       = Some sw
    /\ get weights' (String.append (layer_prefix layer_id) "attention.qkv.bias")
       = Some sb
    /\ (if num_heads =? num_kv
        then split_qkv_tp (to w d) num_heads hidden (tp_size args) rank = Ok sw
             /\ split_qkv_bias_tp (to b d) num_heads hidden (tp_size args) rank
                = Ok sb
        else split_qkv_weight_gqa (to w d) num_heads num_kv hidden
               (tp_size args) rank = Ok sw
             /\ split_qkv_bias_gqa (to b d) num_heads num_kv (tp_size args) rank
                = Ok sb).
Proof.
  intros Huwo Hl. unfold split_layer in Hl. cbv zeta in Hl.
  rewrite Huwo in Hl.
  apply bind_ok_inv in Hl as [qkv [Eqkv Hl]].
  apply bind_ok_inv in Hl as [sqkv [Esqkv Hl]].
  apply bind_ok_inv in Hl as [p1 [Ep1 Hl]].
  apply bind_ok_inv in Hl as [dense [Edense Hl]].
  apply bind_ok_inv in Hl as [sdense [Esdense Hl]].
  apply bind_ok_inv in Hl as [p2 [Ep2 Hl]].
  apply bind_ok_inv in Hl as [fc [Efc Hl]].
  apply bind_ok_inv in Hl as [sfc [Esfc Hl]].
  apply bind_ok_inv in Hl as [sfcb [Esfcb Hl]].
  apply bind_ok_inv in Hl as [p3 [Ep3 Hl]].
  apply bind_ok_inv in Hl as [proj [Eproj Hl]].
  apply bind_ok_inv in Hl as [sproj [Esproj Hl]].
  apply bind_ok_inv in Hl as [p4 [Ep4 Hl]].
  apply ok_inj in Hl. subst weights'.
  rewrite (update_packed_plain _ Ep4).
  rewrite (update_packed_plain _ Ep3).
  rewrite (update_packed_plain _ Ep2).
  rewrite (update_packed_plain _ Ep1).
  apply get_weight_and_bias_inv in Eqkv as (w & b & Gw & Gb & ->).
  cbn [fst snd] in Esqkv.
  change "attention.qkv.weight"%string
    with (String.append "attention.qkv" ".weight").
  change "attention.qkv.bias"%string
    with (String.append "attention.qkv" ".bias").
  rewrite <- !append_assoc.
  exists w, b, (fst sqkv), (snd sqkv).
  split; [exact Gw|]. split; [exact Gb|].
  split; [layer_get|]. split; [layer_get|].
  destruct (num_heads =? num_kv); cbn [negb] in Esqkv;
    apply bind_ok_inv in Esqkv as [sw [Esw Esqkv]];
    apply bind_ok_inv in Esqkv as [sb [Esb Esqkv]];
    apply ok_inj in Esqkv; subst sqkv; now split.
Qed.

(** Without weight-only quantization, for every layer the converter
    was told about, the attention output projection and the MLP down
    projection are split along axis 1 with their biases kept whole on
    every rank, and the MLP up projection and its bias are split along
    axis 0; each shard is cut from the cast of the entry the caller
    passed in, whatever the other layers did to the mapping.  A split
    entry is the cast entry itself for a degree of 1 and, for a degree
    above 1, its slice along the axis (axis 0 for a 1-D tensor) from
    [rank * c] on, [c] long or what is left, with
    [c = ceil(n / tp_size)]. *)
Theorem split_weights_tp_sharding_plan cfg weights (args : arguments)
    (rank : nat) d out (layer_id : nat) (name : string) (axis : option nat) :
  use_weight_only args = false ->
  split_weights_tp cfg weights args rank d = Ok out ->
  layer_id < num_hidden_layers cfg ->
  In (name, axis) layer_sharding ->
  exists source shard,
    get weights (String.append (layer_prefix layer_id) name) = Some source
    /\ get out (String.append (layer_prefix layer_id) name) = Some shard
    /\ match axis with
       | Some a =>
           split (to source d) (tp_size args) rank a = Ok shard
           /\ (tp_size args = 1 -> shard = to source d)
           /\ (1 < tp_size args ->
               let n := nth (split_axis (to source d) a) (shape source) 0 in
               let c := (n + tp_size args - 1) / tp_size args in
               rank < tp_size args
               /\ shard = narrow (to source d) (split_axis (to source d) a)
                            (rank * c) (Nat.min c (n - rank * c)))
       | None => shard = to source d
       end.
Proof.
  intros Huwo Hs Hlt Hplan.
  destruct (split_weights_tp_local _ _ _ _ _ Hs Hlt)
    as (num_kv & before & after & _ & E & Hb & Ha).
  destruct (split_layer_plan _ _ _ _ _ _ _ _ Huwo E Hplan)
    as (source & shard & G0 & G1 & Hsplit).
  exists source, shard. rewrite <- Hb, Ha.
  split; [exact G0|]. split; [exact G1|].
  destruct axis as [a|]; [|exact Hsplit].
  split; [exact Hsplit|]. exact (split_ok_slice _ _ _ _ Hsplit).
Qed.

(** Without weight-only quantization, the fused QKV weight and bias
    of every layer are replaced by the shards of the entries the caller
    passed in: those of the plain three-way splitter when the model has
    as many key/value heads as query heads, those of the grouped-query
    splitter otherwise. *)
Theorem split_weights_tp_qkv_entries cfg weights (args : arguments)
    (rank : nat) d out (layer_id : nat) :
  use_weight_only args = false ->
  split_weights_tp cfg weights args rank d = Ok out ->
  layer_id < num_hidden_layers cfg ->
  exists num_kv w b sw sb,
    num_kv_heads cfg = Some num_kv
    /\ get weights (String.append (layer_prefix layer_id) "attention.qkv.weight")
       = Some w
    /\ get weights (String.append (layer_prefix layer_id) "attention.qkv.bias")
       = Some b
    /\ get out (String.append (layer_prefix layer_id) "attention.qkv.weight")
       = Some sw
    /\ get out (String.append (layer_prefix layer_id) "attention.qkv.bias")
       = Some sb
    /\ (if num_attention_heads cfg =? num_kv
        then split_qkv_tp (to w d) (num_attention_heads cfg) (hidden_size cfg)
               (tp_size args) rank = Ok sw
             /\ split_qkv_bias_tp (to b d) (num_attention_heads cfg)
                  (hidden_size cfg) (tp_size args) rank = Ok sb
        else split_qkv_weight_gqa (to w d) (num_attention_heads cfg) num_kv
               (hidden_size cfg) (tp_size args) rank = Ok sw
             /\ split_qkv_bias_gqa (to b d) (num_attention_heads cfg) num_kv
                  (tp_size args) rank = Ok sb).
Proof.
  intros Huwo Hs Hlt.
  destruct (split_weights_tp_local _ _ _ _ _ Hs Hlt)
    as (num_kv & before & after & Hkv & E & Hb & Ha).
  destruct (split_layer_qkv _ _ _ _ _ _ _ _ Huwo E)
    as (w & b & sw & sb & Gw & Gb & Gsw & Gsb & Hbranch).
  exists num_kv, w, b, sw, sb.
  rewrite <- !Hb, !Ha. now repeat split.
Qed.

End ShardingPlan.

Lemma split_weights_tp_sharding_plan_witness :
  exists source shard,
    get example_weights (String.append (layer_prefix 0) "mlp.proj.weight")
    = Some source
    /\ get example_split_output
         (String.append (layer_prefix 0) "mlp.proj.weight") = Some shard
    /\ split (to source tt) (tp_size example_args) 1 1 = Ok shard
    /\ (tp_size example_args = 1 -> shard = to source tt)
    /\ (1 < tp_size example_args ->
        let n := nth (split_axis (to source tt) 1) (shape source) 0 in
        let c := (n + tp_size example_args - 1) / tp_size example_args in
        1 < tp_size example_args
        /\ shard = narrow (to source tt) (split_axis (to source tt) 1)
                     (1 * c) (Nat.min c (n - 1 * c))).
Proof.
  apply (@split_weights_tp_sharding_plan nat nat_numeric example_config
           example_weights example_args 1 tt example_split_output 0
           "mlp.proj.weight" (Some 1)).
  - reflexivity.
  - vm_compute. reflexivity.
  - vm_compute. lia.
  - unfold layer_sharding. cbn [In]. tauto.
Defined.

Lemma split_weights_tp_qkv_entries_witness :
  exists num_kv w b sw sb,
    num_kv_heads example_config = Some num_kv
    /\ get example_weights
         (String.append (layer_prefix 0) "attention.qkv.weight") = Some w
    /\ get example_weights
         (String.append (layer_prefix 0) "attention.qkv.bias") = Some b
    /\ get example_split_output
         (String.append (layer_prefix 0) "attention.qkv.weight") = Some sw
    /\ get example_split_output
         (String.append (layer_prefix 0) "attention.qkv.bias") = Some sb
    /\ (if num_attention_heads example_config =? num_kv
        then split_qkv_tp (to w tt) (num_attention_heads example_config)
               (hidden_size example_config) (tp_size example_args) 1 = Ok sw
             /\ split_qkv_bias_tp (to b tt) (num_attention_heads example_config)
                  (hidden_size example_config) (tp_size example_args) 1 = Ok sb
        else split_qkv_weight_gqa (to w tt) (num_attention_heads example_config)
               num_kv (hidden_size example_config) (tp_size example_args) 1
             = Ok sw
             /\ split_qkv_bias_gqa (to b tt) (num_attention_heads example_config)
                  num_kv (tp_size example_args) 1 = Ok sb).
Proof.
  apply (@split_weights_tp_qkv_entries nat nat_numeric example_config
           example_weights example_args 1 tt example_split_output 0).
  - reflexivity.
  - vm_compute. reflexivity.
  - vm_compute. lia.
Defined.

(** ** From the source checkpoint to the shards *)

Lemma contains_clear (old pre s : string) :
  clear_of old pre = true ->
  contains old (String.append pre s) = contains old s.
Proof.
  induction pre as [|c pre IH]; intros Hc; [reflexivity|].
  cbn [clear_of] in Hc. apply andb_prop in Hc as [Hinc Hrest].
  apply negb_true_iff in Hinc.
  cbn [String.append contains].
  change (String c (String.append pre s)) with (String.append (String c pre) s).
  rewrite incompatible_prefix by (assumption || discriminate).
  cbn [orb]. now apply IH.
Qed.

Lemma contains_digits (c : ascii) (old ds rest : string) :
  is_digit c = false -> all_digits ds = true ->
  contains (String c old) (String.append ds rest) = contains (String c old) rest.
Proof.
  intros Hc. induction ds as [|x ds IH]; intros Hds; [reflexivity|].
  cbn [all_digits] in Hds. apply andb_prop in Hds as [Hx Hds].
  cbn [String.append contains].
  rewrite prefix_digit_false by assumption. cbn [orb]. now apply IH.
Qed.

(** Whether a key of a layer contains "qkv." is decided by the part
    after the layer index. *)
Lemma contains_qkv_layer_key (layer_id : nat) (name : string) :
  contains "qkv." (String.append (layer_prefix layer_id) name)
  = contains "qkv." (String "." name).
Proof.
  unfold layer_prefix. rewrite !append_assoc.
  rewrite contains_clear by reflexivity.
  rewrite contains_digits by (reflexivity || apply str_of_nat_digits).
  reflexivity.
Qed.

Lemma layer_key_not_lm_head (layer_id : nat) (name : string) :
  "lm_head.weight"%string <> String.append (layer_prefix layer_id) name.
Proof.
  unfold layer_prefix. rewrite append_assoc. cbn [String.append]. discriminate.
Qed.

Section EndToEnd.

Context {A : Type} `{Numeric A}.

Implicit Types (weights : dict (tensor A)).

(** What the splitter receives for a per-layer key that has no "qkv."
    in it: the cast of the source entry. *)
Lemma converted_layer_entry (sd : list (string * tensor A)) cfg d emb weights
    (layer_id : nat) (name : string) :
  shuffle_entries cfg (set (rename_state_dict sd d) "lm_head.weight" emb)
    (keys (set (rename_state_dict sd d) "lm_head.weight" emb)) = Ok weights ->
  contains "qkv." (String "." name) = false ->
  get weights (String.append (layer_prefix layer_id) name)
  = option_map (fun t => to t d)
      (source_entry sd (String.append (layer_prefix layer_id) name)).
Proof.
  intros Esh Hq.
  erewrite shuffle_entries_other;
    [|exact Esh|now rewrite contains_qkv_layer_key].
  rewrite get_set_other by apply layer_key_not_lm_head.
  apply rename_state_dict_get.
Qed.

(** And for a per-layer key with "qkv." in it: the reassembled cast of
    the source entry. *)
Lemma converted_qkv_entry (sd : list (string * tensor A)) cfg d emb weights
    (layer_id : nat) (name : string) (t : tensor A) :
  shuffle_entries cfg (set (rename_state_dict sd d) "lm_head.weight" emb)
    (keys (set (rename_state_dict sd d) "lm_head.weight" emb)) = Ok weights ->
  contains "qkv." (String "." name) = true ->
  get weights (String.append (layer_prefix layer_id) name) = Some t ->
  exists source,
    source_entry sd (String.append (layer_prefix layer_id) name) = Some source
    /\ shuffle_qkv_weights (to source d) cfg = Ok t.
Proof.
  intros Esh Hq Hget.
  set (k := String.append (layer_prefix layer_id) name) in *.
  set (w0 := set (rename_state_dict sd d) "lm_head.weight" emb) in *.
  assert (Hnd : NoDup (keys w0))
    by apply keys_set_nodup, rename_state_dict_nodup.
  assert (Hk : contains "qkv." k = true)
    by (unfold k; now rewrite contains_qkv_layer_key).
  destruct (in_dec string_dec k (keys w0)) as [Hin|Hnin].
  - assert (Hre : exists t0 s,
               get w0 k = Some t0
               /\ shuffle_qkv_weights t0 cfg = Ok s
               /\ get weights k = Some s)
      by (eapply shuffle_entries_reassembled; eassumption).
    destruct Hre as (t0 & s & G & E & S).
    rewrite Hget in S. apply (f_equal (fun o => o)) in S.
    injection S as <-.
    unfold w0 in G. rewrite get_set_other in G by apply layer_key_not_lm_head.
    rewrite rename_state_dict_get in G.
    destruct (source_entry sd k) as [source|]; [|discriminate].
    cbn [option_map] in G. injection G as <-.
    now exists source.
  - erewrite shuffle_entries_untouched in Hget; [|exact Esh|exact Hnin].
    rewrite get_absent in Hget by exact Hnin. discriminate.
Qed.

(** End to end, without weight-only quantization: for every layer the
    converter was told about, the attention output projection and the
    two MLP projections of the result are cut from the source
    checkpoint's tensors of that layer, cast to the requested type (by
    the converter, and again by the splitter): the attention output and
    MLP down projections along axis 1 with their biases whole, the MLP
    up projection and its bias along axis 0.  A split entry is the cast
    tensor itself for a degree of 1 and, for a degree above 1, its
    slice along the axis (axis 0 for a 1-D tensor) from [rank * c] on,
    [c] long or what is left, with [c = ceil(n / tp_size)]. *)
Theorem convert_shards_layer_linears (sd : list (string * tensor A)) cfg
    (args : arguments) (rank : nat) out (layer_id : nat) (name : string)
    (axis : option nat) :
  use_weight_only args = false ->
  convert_hf_weights sd cfg args rank = Ok out ->
  layer_id < num_hidden_layers cfg ->
  In (name, axis) layer_sharding ->
  exists d source shard,
    str_dtype_to_torch (dtype args) = Ok d
    /\ source_entry sd (String.append (layer_prefix layer_id) name) = Some source
    /\ get out (String.append (layer_prefix layer_id) name) = Some shard
    /\ match axis with
       | Some a =>
           split (to (to source d) d) (tp_size args) rank a = Ok shard
           /\ (tp_size args = 1 -> shard = to (to source d) d)
           /\ (1 < tp_size args ->
               let x := to (to source d) d in
               let n := nth (split_axis x a) (shape source) 0 in
               let c := (n + tp_size args - 1) / tp_size args in
               rank < tp_size args
               /\ shard = narrow x (split_axis x a)
                            (rank * c) (Nat.min c (n - rank * c)))
       | None => shard = to (to source d) d
       end.
Proof.
  intros Huwo Hc Hlt Hplan. unfold convert_hf_weights in Hc. cbv zeta in Hc.
  apply bind_ok_inv in Hc as [d [Ed Hc]].
  apply bind_ok_inv in Hc as [emb [Eemb Hc]].
  apply bind_ok_inv in Hc as [w2 [Esh Hc]].
  edestruct split_weights_tp_local
    as (num_kv & before & after & _ & E & Hb & Ha); [exact Hc|exact Hlt|].
  edestruct split_layer_plan
    as (received & shard & G0 & G1 & Hsplit); [exact Huwo|exact E|exact Hplan|].
  rewrite Hb in G0. rewrite <- Ha in G1.
  erewrite converted_layer_entry in G0; [|exact Esh|].
  - destruct (source_entry sd _) as [source|]; [|discriminate].
    cbn [option_map] in G0. injection G0 as <-.
    exists d, source, shard.
    split; [exact Ed|]. split; [reflexivity|]. split; [exact G1|].
    destruct axis as [a|]; [|exact Hsplit].
    split; [exact Hsplit|]. exact (split_ok_slice _ _ _ _ Hsplit).
  - unfold layer_sharding in Hplan. cbn [In] in Hplan.
    repeat (destruct Hplan as [Hplan|Hplan];
            [injection Hplan as <- <-; reflexivity|]).
    destruct Hplan.
Qed.

(** End to end, without weight-only quantization: the fused QKV weight
    and bias of every layer of the result are shards of the reassembled
    cast of the source checkpoint's fused tensors, taken by the plain
    three-way splitter when the model has as many key/value heads as
    query heads and by the grouped-query splitter otherwise. *)
Theorem convert_reassembles_then_splits_qkv (sd : list (string * tensor A)) cfg
    (args : arguments) (rank : nat) out (layer_id : nat) :
  use_weight_only args = false ->
  convert_hf_weights sd cfg args rank = Ok out ->
  layer_id < num_hidden_layers cfg ->
  exists d num_kv w b rw rb sw sb,
    str_dtype_to_torch (dtype args) = Ok d
    /\ num_kv_heads cfg = Some num_kv
    /\ source_entry sd
         (String.append (layer_prefix layer_id) "attention.qkv.weight") = Some w
    /\ source_entry sd
         (String.append (layer_prefix layer_id) "attention.qkv.bias") = Some b
    /\ shuffle_qkv_weights (to w d) cfg = Ok rw
    /\ shuffle_qkv_weights (to b d) cfg = Ok rb
    /\ get out (String.append (layer_prefix layer_id) "attention.qkv.weight")
       = Some sw
    /\ get out (String.append (layer_prefix layer_id) "attention.qkv.bias")
       = Some sb
    /\ (if num_attention_heads cfg =? num_kv
        then split_qkv_tp (to rw d) (num_attention_heads cfg) (hidden_size cfg)
               (tp_size args) rank = Ok sw
             /\ split_qkv_bias_tp (to rb d) (num_attention_heads cfg)
                  (hidden_size cfg) (tp_size args) rank = Ok sb
        else split_qkv_weight_gqa (to rw d) (num_attention_heads cfg) num_kv
               (hidden_size cfg) (tp_size args) rank = Ok sw
             /\ split_qkv_bias_gqa (to rb d) (num_attention_heads cfg) num_kv
                  (tp_size args) rank = Ok sb).
Proof.
  intros Huwo Hc Hlt. unfold convert_hf_weights in Hc. cbv zeta in Hc.
  apply bind_ok_inv in Hc as [d [Ed Hc]].
  apply bind_ok_inv in Hc as [emb [Eemb Hc]].
  apply bind_ok_inv in Hc as [w2 [Esh Hc]].
  edestruct split_weights_tp_local
    as (num_kv & before & after & Hkv & E & Hb & Ha); [exact Hc|exact Hlt|].
  edestruct split_layer_qkv
    as (rw & rb & sw & sb & Gw & Gb & Gsw & Gsb & Hbranch); [exact Huwo|exact E|].
  rewrite Hb in Gw, Gb. rewrite <- Ha in Gsw, Gsb.
  edestruct converted_qkv_entry as (w & Sw & Rw);
    [exact Esh| |exact Gw|]; [reflexivity|].
  edestruct converted_qkv_entry as (b & Sb & Rb);
    [exact Esh| |exact Gb|]; [reflexivity|].
  exists d, num_kv, w, b, rw, rb, sw, sb. now repeat split.
Qed.

End EndToEnd.

Lemma convert_shards_layer_linears_witness :
  exists d source shard,
    str_dtype_to_torch (dtype example_args) = Ok d
    /\ source_entry example_state_dict
         (String.append (layer_prefix 0) "mlp.fc.weight") = Some source
    /\ get example_convert_output
         (String.append (layer_prefix 0) "mlp.fc.weight") = Some shard
    /\ split (to (to source d) d) (tp_size example_args) 1 0 = Ok shard
    /\ (tp_size example_args = 1 -> shard = to (to source d) d)
    /\ (1 < tp_size example_args ->
        let x := to (to source d) d in
        let n := nth (split_axis x 0) (shape source) 0 in
        let c := (n + tp_size example_args - 1) / tp_size example_args in
        1 < tp_size example_args
        /\ shard = narrow x (split_axis x 0) (1 * c) (Nat.min c (n - 1 * c))).
Proof.
  apply (@convert_shards_layer_linears nat nat_numeric example_state_dict
           example_config example_args 1 example_convert_output 0
           "mlp.fc.weight" (Some 0)).
  - reflexivity.
  - vm_compute. reflexivity.
  - vm_compute. lia.
  - unfold layer_sharding. cbn [In]. tauto.
Defined.

Lemma convert_reassembles_then_splits_qkv_witness :
  exists d num_kv w b rw rb sw sb,
    str_dtype_to_torch (dtype example_args) = Ok d
    /\ num_kv_heads example_config = Some num_kv
    /\ source_entry example_state_dict
         (String.append (layer_prefix 0) "attention.qkv.weight") = Some w
    /\ source_entry example_state_dict
         (String.append (layer_prefix 0) "attention.qkv.bias") = Some b
    /\ shuffle_qkv_weights (to w d) example_config = Ok rw
    /\ shuffle_qkv_weights (to b d) example_config = Ok rb
    /\ get example_convert_output
         (String.append (layer_prefix 0) "attention.qkv.weight") = Some sw
    /\ get example_convert_output
         (String.append (layer_prefix 0) "attention.qkv.bias") = Some sb
    /\ (if num_attention_heads example_config =? num_kv
        then split_qkv_tp (to rw d) (num_attention_heads example_config)
               (hidden_size example_config) (tp_size example_args) 1 = Ok sw
             /\ split_qkv_bias_tp (to rb d) (num_attention_heads example_config)
                  (hidden_size example_config) (tp_size example_args) 1 = Ok sb
        else split_qkv_weight_gqa (to rw d) (num_attention_heads example_config)
               num_kv (hidden_size example_config) (tp_size example_args) 1
             = Ok sw
             /\ split_qkv_bias_gqa (to rb d) (num_attention_heads example_config)
                  num_kv (tp_size example_args) 1 = Ok sb).
Proof.
  apply (@convert_reassembles_then_splits_qkv nat nat_numeric example_state_dict
           example_config example_args 1 example_convert_output 0).
  - reflexivity.
  - vm_compute. reflexivity.
  - vm_compute. lia.
Defined.

(** ** Facts about the configuration projector *)

Section ProjectorFacts.

Import Projector.

Context {F : Type} (float_ge_int : F -> Z -> bool).

Implicit Types (hf : dict (@value F)) (entries : list (string * source (F:=F))).

Lemma display_keys hf entries d :
  display hf entries = inr d -> keys d = map fst entries.
Proof.
  revert d; induction entries as [|[k s] entries IH]; intros d Hd.
  - injection Hd as <-. reflexivity.
  - cbn [display] in Hd. destruct (eval_source hf s) as [e|v]; [discriminate|].
    cbn [and_then] in Hd.
    destruct (display hf entries) as [e|d']; [discriminate|].
    cbn [and_then] in Hd. injection Hd as <-.
    unfold keys in *. cbn [map fst]. f_equal. now apply IH.
Qed.

Lemma display_get hf entries d :
  display hf entries = inr d -> NoDup (map fst entries) ->
  forall k s, In (k, s) entries ->
  exists v, eval_source hf s = inr v /\ get d k = Some v.
Proof.
  revert d; induction entries as [|[k0 s0] entries IH]; intros d Hd Hnd k s Hin.
  - destruct Hin.
  - cbn [display] in Hd. destruct (eval_source hf s0) as [e|v0] eqn:E0;
      [discriminate|].
    cbn [and_then] in Hd.
    destruct (display hf entries) as [e|d'] eqn:Ed; [discriminate|].
    cbn [and_then] in Hd. injection Hd as <-.
    cbn [map fst] in Hnd. inversion Hnd as [|? ? Hnot Hrest]; subst.
    destruct Hin as [Heq|Hin].
    + injection Heq as -> ->. exists v0. split; [assumption|].
      cbn [get]. now rewrite String.eqb_refl.
    + destruct (IH d' eq_refl Hrest k s Hin) as [v [Ev Gv]].
      exists v. split; [assumption|]. cbn [get].
      destruct (String.eqb k0 k) eqn:Ek; [|assumption].
      apply String.eqb_eq in Ek. subst k0. exfalso. apply Hnot.
      apply (in_map fst) in Hin. exact Hin.
Qed.

Lemma display_first_failure hf (pre post : list (string * source (F:=F)))
    (k : string) (s : source (F:=F)) (e : failure) :
  (forall k' s', In (k', s') pre -> exists v, eval_source hf s' = inr v) ->
  eval_source hf s = inl e ->
  display hf (pre ++ (k, s) :: post) = inl e.
Proof.
  induction pre as [|[k0 s0] pre IH]; intros Hpre He.
  - cbn [app display]. now rewrite He.
  - cbn [app display].
    destruct (Hpre k0 s0 (or_introl eq_refl)) as [v0 E0]. rewrite E0.
    cbn [and_then]. rewrite IH; [reflexivity| |assumption].
    intros k' s' Hin. apply (Hpre k' s'). now right.
Qed.

Lemma get_update_disjoint {V : Type} (d other : dict V) (k : string) :
  ~ In k (keys other) -> get (update d other) k = get d k.
Proof.
  intros Hn. apply get_update_other. intros kv Hkv Heq.
  apply Hn. unfold keys. rewrite <- Heq. now apply in_map.
Qed.

Lemma get_update_present {V : Type} (other : dict V) (k : string) (v : V) :
  forall d, get other k = Some v -> NoDup (keys other) ->
  get (update d other) k = Some v.
Proof.
  unfold update, keys.
  induction other as [|[k0 v0] other IH]; intros d Hg Hnd; [discriminate|].
  cbn [fold_left fst snd]. cbn [get] in Hg. cbn [map fst] in Hnd.
  inversion Hnd as [|? ? Hnot Hrest]; subst.
  destruct (String.eqb k0 k) eqn:E.
  - apply String.eqb_eq in E. subst k0. injection Hg as ->.
    fold (update (set d k v) other).
    rewrite get_update_disjoint by exact Hnot. apply get_set_same.
  - now apply IH.
Qed.


(** What a successful run went through. *)
Lemma convert_hf_config_inv hf dtype args cfg :
  convert_hf_config float_ge_int hf dtype args = inr cfg ->
  exists base m long,
    display hf (base_entries dtype) = inr base /\
    getattr hf "max_position_embeddings" = inr m /\
    ge_int float_ge_int m 128000 = inr long /\
    let mid :=
      match args with
      | Some a =>
          let c := update base (mapping_entry a) in
          match plugin_quant_type a with
          | Some q => update c (quantization_entry (quant_algo_of q))
          | None => c
          end
      | None => base
      end in
    if long
    then exists extra,
           display hf longrope_entries = inr extra /\ cfg = update mid extra
    else cfg = mid.
Proof.
  unfold convert_hf_config. intros H.
  destruct (display hf (base_entries dtype)) as [e|base] eqn:Hb;
    [discriminate|].
  cbn [and_then] in H.
  destruct (getattr hf "max_position_embeddings") as [e|m] eqn:Hm;
    [discriminate|].
  cbn [and_then] in H.
  destruct (ge_int float_ge_int m 128000) as [e|long] eqn:Hge;
    [discriminate|].
  cbn [and_then] in H.
  exists base, m, long.
  split; [reflexivity|]. split; [reflexivity|]. split; [exact Hge|].
  cbv zeta in H |- *.
  assert (Hmid :
    match args with
    | Some a =>
        if use_weight_only a && String.eqb (weight_only_precision a) "int8"
        then update (update base (mapping_entry a)) (quantization_entry W8A16)
        else if use_weight_only a && String.eqb (weight_only_precision a) "int4"
        then update (update base (mapping_entry a)) (quantization_entry W4A16)
        else update base (mapping_entry a)
    | None => base
    end =
    match args with
    | Some a =>
        match plugin_quant_type a with
        | Some q =>
            update (update base (mapping_entry a))
              (quantization_entry (quant_algo_of q))
        | None => update base (mapping_entry a)
        end
    | None => base
    end).
  { destruct args as [a|]; [|reflexivity]. unfold plugin_quant_type.
    destruct (use_weight_only a && String.eqb (weight_only_precision a) "int8");
      [reflexivity|].
    destruct (use_weight_only a && String.eqb (weight_only_precision a) "int4");
      reflexivity. }
  rewrite Hmid in H. clear Hmid.
  destruct long.
  - destruct (display hf longrope_entries) as [e|extra]; [discriminate|].
    cbn [and_then] in H. exists extra. split; [reflexivity|].
    now injection H as <-.
  - now injection H as <-.
Qed.

Lemma base_keys_nodup dtype :
  NoDup (map fst (base_entries (F:=F) dtype)).
Proof.
  cbn [base_entries map fst].
  repeat (constructor; [cbn [In]; intuition discriminate|]). constructor.
Qed.

Lemma longrope_keys_nodup : NoDup (map fst (longrope_entries (F:=F))).
Proof.
  cbn [longrope_entries map fst].
  repeat (constructor; [cbn [In]; intuition discriminate|]). constructor.
Qed.

Lemma base_key_not_added dtype k s :
  In (k, s) (base_entries (F:=F) dtype) ->
  k <> "mapping"%string /\ k <> "quantization"%string /\
  ~ In k (map fst (longrope_entries (F:=F))).
Proof.
  cbn [base_entries longrope_entries map fst In]. intros H.
  repeat (destruct H as [H|H];
          [injection H as <- <-; repeat split; intuition discriminate|]).
  destruct H.
Qed.

Lemma longrope_key_not_base dtype k s :
  In (k, s) (longrope_entries (F:=F)) ->
  k <> "mapping"%string /\ k <> "quantization"%string /\
  ~ In k (map fst (base_entries (F:=F) dtype)).
Proof.
  cbn [base_entries longrope_entries map fst In]. intros H.
  repeat (destruct H as [H|H];
          [injection H as <- <-; repeat split; intuition discriminate|]).
  destruct H.
Qed.

(** Reading the configuration after the argument-dependent updates. *)
Lemma get_after_arguments (base : dict (@value F)) (args : option arguments)
    (k : string) :
  k <> "mapping"%string -> k <> "quantization"%string ->
  get match args with
      | Some a =>
          let c := update base (mapping_entry a) in
          match plugin_quant_type a with
          | Some q => update c (quantization_entry (quant_algo_of q))
          | None => c
          end
      | None => base
      end k = get base k.
Proof.
  intros Hm Hq. destruct args as [a|]; [|reflexivity]. cbv zeta.
  assert (Hmap : get (update base (mapping_entry (F:=F) a)) k = get base k).
  { apply get_update_disjoint. cbn. intuition congruence. }
  destruct (plugin_quant_type a) as [q|]; [|exact Hmap].
  rewrite get_update_disjoint; [exact Hmap|]. cbn. intuition congruence.
Qed.

Lemma display_only_attributes hf entries e :
  (forall k s, In (k, s) entries ->
     (exists v, s = Const v) \/ (exists a, s = Attr a)) ->
  display hf entries = inl e ->
  exists pre k a post,
    entries = pre ++ (k, Attr a) :: post /\
    get hf a = None /\
    e = AttributeError a /\
    (forall k' s', In (k', s') pre -> exists v, eval_source hf s' = inr v).
Proof.
  induction entries as [|[k0 s0] entries IH]; intros Hshape Hd.
  - discriminate.
  - cbn [display] in Hd.
    destruct (eval_source hf s0) as [e0|v0] eqn:E0.
    + cbn [and_then] in Hd. injection Hd as <-.
      destruct (Hshape k0 s0 (or_introl eq_refl)) as [[v ->]|[a ->]];
        [discriminate|].
      cbn [eval_source] in E0. unfold getattr in E0.
      destruct (get hf a) eqn:G; [discriminate|]. injection E0 as <-.
      exists [], k0, a, entries. repeat split; try assumption.
      intros k' s' [].
    + cbn [and_then] in Hd.
      destruct (display hf entries) as [e1|d] eqn:Ed; [|discriminate].
      cbn [and_then] in Hd. injection Hd as <-.
      destruct (IH (fun k s H => Hshape k s (or_intror H)) eq_refl)
        as (pre & k & a & post & -> & G & -> & Hpre).
      exists ((k0, s0) :: pre), k, a, post. repeat split; try assumption.
      intros k' s' [Heq|Hin].
      * injection Heq as <- <-. now exists v0.
      * now apply (Hpre k' s').
Qed.

Lemma base_entries_shape dtype k s :
  In (k, s) (base_entries (F:=F) dtype) ->
  (exists v, s = Const v) \/ (exists a, s = Attr a).
Proof.
  cbn [base_entries In]. intros H.
  repeat (destruct H as [H|H];
          [injection H as <- <-; (left; eexists; reflexivity)
                                 || (right; eexists; reflexivity)|]).
  destruct H.
Qed.

(** The target configuration carries every entry of the first display:
    the two constants, the constant [False] and each attribute of the
    source under its target key, for instance [num_key_value_heads]
    under ['num_kv_heads'] and [blocksparse_vert_stride] under
    ['blocksparse_vertical_stride'].  None of the later updates
    overwrites one of them. *)
Theorem config_keeps_base_fields hf dtype args cfg k s :
  convert_hf_config float_ge_int hf dtype args = inr cfg ->
  In (k, s) (base_entries dtype) ->
  exists v, eval_source hf s = inr v /\ get cfg k = Some v.
Proof.
  intros H Hin.
  destruct (@convert_hf_config_inv _ _ _ _ H) as (base & m & long & Hb & _ & _ & Hc).
  cbv zeta in Hc.
  destruct (@display_get _ _ _ Hb (base_keys_nodup dtype) _ _ Hin) as [v [Ev Gv]].
  destruct (@base_key_not_added _ _ _ Hin) as (Hm & Hq & Hl).
  exists v. split; [assumption|].
  destruct long.
  - destruct Hc as (extra & He & ->).
    rewrite get_update_disjoint.
    + rewrite get_after_arguments by assumption. exact Gv.
    + rewrite (@display_keys _ _ _ He). exact Hl.
  - subst cfg. rewrite get_after_arguments by assumption. exact Gv.
Qed.

(** The ['mapping'] entry is there exactly when arguments are given,
    with the world size the product of the two parallel degrees; the
    ['quantization'] entry names W8A16 or W4A16 exactly when the weight
    converter stores weight-only int8 or 4-bit weights for the same
    arguments, and is absent otherwise. *)
Theorem config_mapping_and_quantization hf dtype args cfg :
  convert_hf_config float_ge_int hf dtype args = inr cfg ->
  get cfg "mapping" =
    option_map
      (fun a =>
         VDict [ ("world_size", VInt (Z.of_nat (tp_size a * pp_size a)));
                 ("tp_size", VInt (Z.of_nat (tp_size a)));
                 ("pp_size", VInt (Z.of_nat (pp_size a))) ]%string)
      args /\
  get cfg "quantization" =
    option_map
      (fun q => VDict [ ("quant_algo", VQuantAlgo (quant_algo_of q)) ]%string)
      match args with
      | Some a => plugin_quant_type a
      | None => None
      end.
Proof.
  intros H.
  destruct (@convert_hf_config_inv _ _ _ _ H) as (base & m & long & Hb & _ & _ & Hc).
  cbv zeta in Hc.
  assert (Hbm : get base "mapping" = None).
  { apply get_absent. rewrite (@display_keys _ _ _ Hb).
    cbn. intuition discriminate. }
  assert (Hbq : get base "quantization" = None).
  { apply get_absent. rewrite (@display_keys _ _ _ Hb).
    cbn. intuition discriminate. }
  assert (Hmid :
    forall mid,
      mid = match args with
            | Some a =>
                let c := update base (mapping_entry a) in
                match plugin_quant_type a with
                | Some q => update c (quantization_entry (quant_algo_of q))
                | None => c
                end
            | None => base
            end ->
      get mid "mapping" =
        option_map
          (fun a =>
             VDict [ ("world_size", VInt (Z.of_nat (tp_size a * pp_size a)));
                     ("tp_size", VInt (Z.of_nat (tp_size a)));
                     ("pp_size", VInt (Z.of_nat (pp_size a))) ]%string)
          args /\
      get mid "quantization" =
        option_map
          (fun q =>
             VDict [ ("quant_algo", VQuantAlgo (quant_algo_of q)) ]%string)
          match args with
          | Some a => plugin_quant_type a
          | None => None
          end).
  { intros mid ->. destruct args as [a|]; [|now split]. cbv zeta.
    cbn [option_map].
    assert (Hmm : get (update base (mapping_entry (F:=F) a)) "mapping" =
                  Some (VDict
                    [ ("world_size", VInt (Z.of_nat (tp_size a * pp_size a)));
                      ("tp_size", VInt (Z.of_nat (tp_size a)));
                      ("pp_size", VInt (Z.of_nat (pp_size a))) ]%string)).
    { unfold mapping_entry, update. cbn [fold_left fst snd].
      apply get_set_same. }
    assert (Hmq : get (update base (mapping_entry (F:=F) a)) "quantization" =
                  None).
    { rewrite get_update_disjoint; [exact Hbq|]. cbn. intuition discriminate. }
    destruct (plugin_quant_type a) as [q|]; cbn [option_map].
    - split.
      + rewrite get_update_disjoint; [exact Hmm|]. cbn. intuition discriminate.
      + unfold quantization_entry, update. cbn [fold_left fst snd].
        apply get_set_same.
    - now split. }
  destruct long.
  - destruct Hc as (extra & He & ->).
    rewrite !get_update_disjoint
      by (rewrite (@display_keys _ _ _ He); cbn; intuition discriminate).
    now apply Hmid.
  - now apply Hmid.
Qed.

(** Below 128000 positions none of the five long-context keys is in
    the target configuration. *)
Theorem config_short_context hf dtype args cfg (m : Z) k (s : @source F) :
  convert_hf_config float_ge_int hf dtype args = inr cfg ->
  get hf "max_position_embeddings" = Some (VInt m) ->
  (m < 128000)%Z ->
  In (k, s) longrope_entries ->
  get cfg k = None.
Proof.
  intros H Hm Hlt Hin.
  destruct (@convert_hf_config_inv _ _ _ _ H) as (base & m' & long & Hb & Hg & Hge & Hc).
  cbv zeta in Hc.
  unfold getattr in Hg. rewrite Hm in Hg. injection Hg as <-.
  cbn [ge_int] in Hge. injection Hge as <-.
  destruct (Z.leb_spec 128000 m) as [Hle|_]; [lia|].
  subst cfg.
  destruct (@longrope_key_not_base dtype _ _ Hin) as (Hkm & Hkq & Hkb).
  rewrite get_after_arguments by assumption.
  apply get_absent. now rewrite (@display_keys _ _ _ Hb).
Qed.

(** From 128000 positions on, the target configuration carries the
    original context length and the four long-rope values read from the
    [rope_scaling] dictionary of the source. *)
Theorem config_long_context hf dtype args cfg (m : Z) k (s : @source F) :
  convert_hf_config float_ge_int hf dtype args = inr cfg ->
  get hf "max_position_embeddings" = Some (VInt m) ->
  (128000 <= m)%Z ->
  In (k, s) longrope_entries ->
  exists v, eval_source hf s = inr v /\ get cfg k = Some v.
Proof.
  intros H Hm Hle Hin.
  destruct (@convert_hf_config_inv _ _ _ _ H) as (base & m' & long & Hb & Hg & Hge & Hc).
  cbv zeta in Hc.
  unfold getattr in Hg. rewrite Hm in Hg. injection Hg as <-.
  cbn [ge_int] in Hge. injection Hge as <-.
  destruct (Z.leb_spec 128000 m) as [_|Hlt]; [|lia].
  destruct Hc as (extra & He & ->).
  destruct (@display_get _ _ _ He longrope_keys_nodup _ _ Hin) as [v [Ev Gv]].
  exists v. split; [assumption|].
  apply get_update_present; [exact Gv|].
  rewrite (@display_keys _ _ _ He). exact longrope_keys_nodup.
Qed.

(** When the source lacks an attribute that the first display reads,
    the projector raises [AttributeError] for the first such attribute
    in the order of the display, whatever the arguments. *)
Theorem config_missing_attribute hf dtype args k a :
  In (k, Attr a) (base_entries (F:=F) dtype) ->
  get hf a = None ->
  exists pre k' a' post,
    base_entries dtype = pre ++ (k', Attr a') :: post /\
    get hf a' = None /\
    (forall k0 s0, In (k0, s0) pre -> exists v, eval_source hf s0 = inr v) /\
    convert_hf_config float_ge_int hf dtype args = inl (AttributeError a').
Proof.
  intros Hin Hnone.
  destruct (display hf (base_entries dtype)) as [e|base] eqn:Hd.
  - destruct (@display_only_attributes _ _ _ (@base_entries_shape dtype) Hd)
      as (pre & k' & a' & post & Heq & G & -> & Hpre).
    exists pre, k', a', post. repeat split; try assumption.
    unfold convert_hf_config. rewrite Hd. reflexivity.
  - destruct (@display_get _ _ _ Hd (base_keys_nodup dtype) _ _ Hin) as [v [Ev _]].
    cbn [eval_source] in Ev. unfold getattr in Ev. rewrite Hnone in Ev.
    discriminate.
Qed.

(** A long-context source whose [rope_scaling] is not a dictionary, as
    when it is left at [None], makes the projector raise [TypeError]. *)
Theorem config_long_context_needs_rope_scaling hf dtype args base (m : Z)
    (orig r : @value F) :
  display hf (base_entries dtype) = inr base ->
  get hf "max_position_embeddings" = Some (VInt m) ->
  (128000 <= m)%Z ->
  get hf "original_max_position_embeddings" = Some orig ->
  get hf "rope_scaling" = Some r ->
  (forall items, r <> VDict items) ->
  convert_hf_config float_ge_int hf dtype args = inl TypeError.
Proof.
  intros Hb Hm Hle Ho Hr Hnd.
  unfold convert_hf_config. rewrite Hb. cbn [and_then].
  unfold getattr at 1. rewrite Hm. cbn [and_then ge_int].
  destruct (Z.leb_spec 128000 m) as [_|Hlt]; [|lia].
  cbn [longrope_entries display eval_source].
  unfold getattr. rewrite Ho, Hr. cbn [and_then].
  destruct r; try reflexivity. exfalso. now apply (Hnd items).
Qed.

End ProjectorFacts.

Lemma config_keeps_base_fields_witness :
  exists v,
    Projector.eval_source (Projector.example_hf_config 4096 Projector.VNone)
      (Projector.Attr "num_key_value_heads") = inr v /\
    get Projector.example_short_config "num_kv_heads" = Some v.
Proof.
  apply (@config_keeps_base_fields nat Projector.example_float_ge_int
           (Projector.example_hf_config 4096 Projector.VNone) "float16"
           (Some Projector.example_quantized_args)
           Projector.example_short_config
           "num_kv_heads" (Projector.Attr "num_key_value_heads")).
  - vm_compute. reflexivity.
  - vm_compute. tauto.
Defined.

Lemma config_mapping_and_quantization_witness :
  get Projector.example_short_config "mapping" =
    Some (Projector.VDict
            [ ("world_size", Projector.VInt 6);
              ("tp_size", Projector.VInt 2);
              ("pp_size", Projector.VInt 3) ]%string) /\
  get Projector.example_short_config "quantization" =
    Some (Projector.VDict
            [ ("quant_algo", Projector.VQuantAlgo Projector.W4A16) ]%string).
Proof.
  apply (@config_mapping_and_quantization nat Projector.example_float_ge_int
           (Projector.example_hf_config 4096 Projector.VNone) "float16"
           (Some Projector.example_quantized_args)
           Projector.example_short_config).
  vm_compute. reflexivity.
Defined.

Lemma config_short_context_witness :
  get Projector.example_short_config "longrope_long_mscale" = None.
Proof.
  apply (@config_short_context nat Projector.example_float_ge_int
           (Projector.example_hf_config 4096 Projector.VNone) "float16"
           (Some Projector.example_quantized_args)
           Projector.example_short_config 4096%Z
           "longrope_long_mscale"
           (Projector.AttrItem "rope_scaling" "long_mscale")).
  - vm_compute. reflexivity.
  - vm_compute. reflexivity.
  - lia.
  - vm_compute. tauto.
Defined.

Lemma config_long_context_witness :
  exists v,
    Projector.eval_source
      (Projector.example_hf_config 131072 Projector.example_rope_scaling)
      (Projector.AttrItem "rope_scaling" "long_mscale") = inr v /\
    get Projector.example_long_config "longrope_long_mscale" = Some v.
Proof.
  apply (@config_long_context nat Projector.example_float_ge_int
           (Projector.example_hf_config 131072 Projector.example_rope_scaling)
           "float16" None Projector.example_long_config 131072%Z
           "longrope_long_mscale"
           (Projector.AttrItem "rope_scaling" "long_mscale")).
  - vm_compute. reflexivity.
  - vm_compute. reflexivity.
  - lia.
  - vm_compute. tauto.
Defined.

Lemma config_missing_attribute_witness :
  exists pre k' a' post,
    Projector.base_entries "float16" =
      pre ++ (k', Projector.Attr a') :: post /\
    get Projector.example_hf_config_incomplete a' = None /\
    (forall k0 s0, In (k0, s0) pre ->
       exists v,
         Projector.eval_source Projector.example_hf_config_incomplete s0
         = inr v) /\
    Projector.convert_hf_config Projector.example_float_ge_int
      Projector.example_hf_config_incomplete "float16" None
    = inl (Projector.AttributeError a').
Proof.
  apply (@config_missing_attribute nat Projector.example_float_ge_int
           Projector.example_hf_config_incomplete "float16" None
           "hidden_size" "hidden_size").
  - vm_compute. tauto.
  - vm_compute. reflexivity.
Defined.

Lemma config_long_context_needs_rope_scaling_witness :
  Projector.convert_hf_config Projector.example_float_ge_int
    (Projector.example_hf_config 131072 Projector.VNone) "float16" None
  = inl Projector.TypeError.
Proof.
  apply (@config_long_context_needs_rope_scaling nat
           Projector.example_float_ge_int
           (Projector.example_hf_config 131072 Projector.VNone) "float16" None
           Projector.example_base_config 131072%Z
           (Projector.VInt 8192) Projector.VNone).
  - vm_compute. reflexivity.
  - vm_compute. reflexivity.
  - lia.
  - vm_compute. reflexivity.
  - vm_compute. reflexivity.
  - intros items. discriminate.
Defined.
